(** * The OVSDB database-file layer

    A shallow embedding of [ovsdb/file.c] (opening a database log and
    replaying it, decoding transaction records, committing live
    transactions, compacting) and of the record header printed by
    [do_show_log_standalone] in [ovsdb-tool.c].

    The log container, the clocks, the datum layer and the transaction
    engine are other compilation units; they appear here as an interface
    (type classes) or as small models written from their documented
    contract. *)

From Stdlib Require Import ZArith Lia.
From stdpp Require Import base option list strings gmap pretty.

Local Open Scope Z_scope.

(** ** Machine integers *)

(** [unsigned int]: arithmetic is modulo 2^32. *)
Definition UINT_MODULUS : Z := 2 ^ 32.
Definition uint (z : Z) : Z := z mod UINT_MODULUS.

(** [long long int]: 64 bits, two's complement.  C leaves signed overflow
    undefined; the model wraps, and the theorems that depend on a sum state
    that it stays in range. *)
Definition LLONG_MAX : Z := 2 ^ 63 - 1.
Definition LLONG_MIN : Z := - 2 ^ 63.
Definition llong (z : Z) : Z := (z + 2 ^ 63) mod 2 ^ 64 - 2 ^ 63.

Definition INT32_MAX : Z := 2147483647.
Definition INT32_MIN : Z := -2147483648.

Lemma llong_id z : LLONG_MIN <= z <= LLONG_MAX → llong z = z.
Proof.
  unfold llong, LLONG_MIN, LLONG_MAX. intros Hz.
  rewrite Z.mod_small; lia.
Qed.

Lemma llong_range z : LLONG_MIN <= llong z <= LLONG_MAX.
Proof.
  unfold llong, LLONG_MIN, LLONG_MAX.
  pose proof (Z.mod_pos_bound (z + 2 ^ 63) (2 ^ 64)). lia.
Qed.

Lemma uint_range z : 0 <= uint z < UINT_MODULUS.
Proof. apply Z.mod_pos_bound. reflexivity. Qed.

Lemma uint_id z : 0 <= z < UINT_MODULUS → uint z = z.
Proof. apply Z.mod_small. Qed.

(** ** JSON values ([openvswitch/json.h])

    A JSON object is a string-keyed hash map; the association list gives its
    members in the order in which [SHASH_FOR_EACH] visits them. *)
#[warnings="-register-all"]
Inductive json : Type :=
  | JSON_NULL
  | JSON_FALSE
  | JSON_TRUE
  | JSON_OBJECT (object : list (string * json))
  | JSON_ARRAY (elems : list json)
  | JSON_INTEGER (integer : Z)
  | JSON_REAL (mantissa exponent : Z)
  | JSON_STRING (s : string).

(** [shash_find_data]: the data of the member called [name], if any. *)
Fixpoint shash_find_data {A} (sh : list (string * A)) (name : string) : option A :=
  match sh with
  | [] => None
  | (k, v) :: sh' => if decide (k = name) then Some v else shash_find_data sh' name
  end.

(** [json_object_put]: sets member [name], replacing an existing one. *)
Fixpoint shash_replace {A} (sh : list (string * A)) (name : string) (v : A)
  : list (string * A) :=
  match sh with
  | [] => [(name, v)]
  | (k, v') :: sh' =>
      if decide (k = name) then (k, v) :: sh' else (k, v') :: shash_replace sh' name v
  end.

Definition json_object_create : json := JSON_OBJECT [].

(** [json->type == JSON_INTEGER] *)
Definition json_is_integer (js : json) : bool :=
  match js with JSON_INTEGER _ => true | _ => false end.

(** The string made of one double quote. *)
Definition dquote : string := String (Ascii.ascii_of_nat 34) EmptyString.

Definition json_object_put (js : json) (name : string) (v : json) : json :=
  match js with
  | JSON_OBJECT object => JSON_OBJECT (shash_replace object name v)
  | _ => js
  end.

Definition json_object_put_string (js : json) (name value : string) : json :=
  json_object_put js name (JSON_STRING value).

(** ** Errors ([ovsdb-error.h]) *)
Inductive ovsdb_error : Type :=
  | ovsdb_io_error (details : string)
  | ovsdb_syntax_error (js : option json) (tag : option string) (details : string)
  | ovsdb_wrap_error (inner : ovsdb_error) (msg : string)
  | ovsdb_other_error (tag details : string).

(** ** The datum layer and UUIDs (interface)

    [ovsdb-data.h] and [uuid.h] are consumed through their functions only.
    A UUID is its 128-bit value. *)
Abbreviation uuid := N.

Class ovsdb_data_layer : Type := {
  ovsdb_type : Type;
  ovsdb_datum : Type;
  (** the value [ovsdb_row_create] gives to a field *)
  ovsdb_datum_default : ovsdb_type → ovsdb_datum;
  ovsdb_datum_from_json : ovsdb_type → json → ovsdb_error + ovsdb_datum;
  ovsdb_datum_to_json : ovsdb_datum → ovsdb_type → json;
  ovsdb_datum_is_default : ovsdb_datum → ovsdb_type → bool;
  (** [datum->keys[0].uuid]: the UUID that a datum of the UUID column
      holds *)
  ovsdb_datum_uuid : ovsdb_datum → uuid;
  uuid_from_string : string → option uuid;
  (** [UUID_FMT] applied to [UUID_ARGS] *)
  uuid_to_string : uuid → string;
}.

(** ** Schemas, rows, tables, databases *)
Section Database.
Context `{ovsdb_data_layer}.

Record ovsdb_column : Type := {
  column_name : string;
  column_index : nat;
  column_persistent : bool;
  column_type : ovsdb_type;
}.

Record ovsdb_table_schema : Type := {
  table_schema_name : string;
  table_schema_columns : list (string * ovsdb_column);
}.

Record ovsdb_schema : Type := {
  schema_name : string;
  schema_version : string;
  schema_cksum : string;
  schema_tables : list (string * ovsdb_table_schema);
}.

(** A row points to its table; the model keeps the part of the table that
    the file layer reads through that pointer, its schema.  [row_uuid] is
    what [ovsdb_row_get_uuid] reads, the UUID held by the datum of field
    [OVSDB_COL_UUID]: [ovsdb_row_get_uuid_rw] writes it, and so does every
    write of a datum to that field ([row_set_field]).  [row_fields] holds
    the data by column index as [ovsdb_row_create] and the writes of whole
    data leave them. *)
Record ovsdb_row : Type := {
  row_table : ovsdb_table_schema;
  row_uuid : uuid;
  row_fields : gmap nat ovsdb_datum;
}.

Record ovsdb_table : Type := {
  table_schema : ovsdb_table_schema;
  table_rows : gmap uuid ovsdb_row;
}.

Record ovsdb : Type := {
  db_schema : ovsdb_schema;
  db_tables : list (string * ovsdb_table);
}.

Definition OVSDB_COL_UUID : nat := 0.

(** [row->fields[idx]] *)
Definition row_field (row : ovsdb_row) (idx : nat) (type : ovsdb_type) : ovsdb_datum :=
  default (ovsdb_datum_default type) (row_fields row !! idx).

(** [ovsdb_datum_swap(&row->fields[idx], &datum)], the datum swapped out
    being destroyed: the field holds [datum], and for [OVSDB_COL_UUID]
    the UUID of the row is the one of [datum]. *)
Definition row_set_field (row : ovsdb_row) (idx : nat) (datum : ovsdb_datum) : ovsdb_row :=
  {| row_table := row_table row;
     row_uuid := if bool_decide (idx = OVSDB_COL_UUID) then ovsdb_datum_uuid datum
                 else row_uuid row;
     row_fields := <[idx := datum]> (row_fields row) |}.

Definition ovsdb_table_schema_get_column (schema : ovsdb_table_schema) (name : string)
  : option ovsdb_column :=
  shash_find_data (table_schema_columns schema) name.

(** Modelled from the spec: [database_create] of the engine interface; a
    database over the schema whose tables have no rows. *)
Definition ovsdb_create (schema : ovsdb_schema) : ovsdb :=
  {| db_schema := schema;
     db_tables :=
       (λ '(name, ts), (name, {| table_schema := ts; table_rows := ∅ |}))
         <$> schema_tables schema |}.

(** Modelled from the spec: [row_create] of the engine interface; every
    field of the new row has its type's default value. *)
Definition ovsdb_row_create (table : ovsdb_table) : ovsdb_row :=
  {| row_table := table_schema table;
     row_uuid := 0%N;
     row_fields :=
       foldr (λ '(_, column) fields,
                <[column_index column := ovsdb_datum_default (column_type column)]> fields)
             ∅ (table_schema_columns (table_schema table)) |}.

(** Modelled from the spec: the transaction of the engine interface
    ([transaction_create], [transaction_row_insert],
    [transaction_row_modify], [transaction_row_delete],
    [transaction_abort]).  The engine changes the tables of the database
    in place and undoes the changes on abort; here a transaction carries
    the database with its changes applied, and aborting a transaction is
    dropping it. *)
Record ovsdb_txn : Type := {
  txn_db : ovsdb;
  txn_rows : list (option ovsdb_row * option ovsdb_row);
  txn_comment : option string;
}.

(** Modelled from the spec: [transaction_create]. *)
Definition ovsdb_txn_create (db : ovsdb) : ovsdb_txn :=
  {| txn_db := db; txn_rows := []; txn_comment := None |}.

(** The rows of one table changed by [f]; the other tables are kept. *)
Definition db_alter_rows (db : ovsdb) (table_name : string)
    (f : gmap uuid ovsdb_row → gmap uuid ovsdb_row) : ovsdb :=
  {| db_schema := db_schema db;
     db_tables :=
       match shash_find_data (db_tables db) table_name with
       | Some table =>
           shash_replace (db_tables db) table_name
             {| table_schema := table_schema table;
                table_rows := f (table_rows table) |}
       | None => db_tables db
       end |}.

(** Modelled from the spec: [table.rows] looked up by UUID; the row of
    that UUID that the table holds at this point of the transaction. *)
Definition ovsdb_table_get_row (txn : ovsdb_txn) (table : ovsdb_table) (row_uuid : uuid)
  : option ovsdb_row :=
  t ← shash_find_data (db_tables (txn_db txn)) (table_schema_name (table_schema table));
  table_rows t !! row_uuid.

(** Modelled from the spec: a row put into its table by the transaction
    under the UUID [key] (the common part of insert and modify). *)
Definition ovsdb_txn_row_put (txn : ovsdb_txn) (old : option ovsdb_row) (key : uuid)
    (new : ovsdb_row) : ovsdb_txn :=
  {| txn_db := db_alter_rows (txn_db txn) (table_schema_name (row_table new))
                 (<[key := new]>);
     txn_rows := txn_rows txn ++ [(old, Some new)];
     txn_comment := txn_comment txn |}.

(** Modelled from the spec: [transaction_row_insert]; the table holds the
    row under its UUID. *)
Definition ovsdb_txn_row_insert (txn : ovsdb_txn) (new : ovsdb_row) : ovsdb_txn :=
  ovsdb_txn_row_put txn None (row_uuid new) new.

(** Modelled from the spec: [transaction_row_modify]; it hands out a
    writable copy of the row, owned by the transaction. *)
Definition ovsdb_txn_row_modify (txn : ovsdb_txn) (ro_row : ovsdb_row) : ovsdb_row := ro_row.

(** Modelled from the spec: the caller of [transaction_row_modify] writes
    to the copy in place; this is the transaction once the copy [rw]
    holds the caller's writes.  The copy has taken the place of the row
    in its table, so the table holds it where it held the row, whatever
    the writes. *)
Definition ovsdb_txn_row_modified (txn : ovsdb_txn) (ro_row rw : ovsdb_row) : ovsdb_txn :=
  ovsdb_txn_row_put txn (Some ro_row) (row_uuid ro_row) rw.

(** Modelled from the spec: [transaction_row_delete]. *)
Definition ovsdb_txn_row_delete (txn : ovsdb_txn) (row : ovsdb_row) : ovsdb_txn :=
  {| txn_db := db_alter_rows (txn_db txn) (table_schema_name (row_table row))
                 (delete (row_uuid row));
     txn_rows := txn_rows txn ++ [(Some row, None)];
     txn_comment := txn_comment txn |}.

(** Modelled from the spec: [transaction_get_comment]. *)
Definition ovsdb_txn_get_comment (txn : ovsdb_txn) : option string := txn_comment txn.
End Database.

(** ** What the other compilation units supply (interface)

    Schema (de)serialisation, the engine's checks at commit and its change
    iterator, error printing, the size of a log record on disk (the framing
    [<MAGIC> <LEN> <SHA1>\n<payload>\n] around the serialised JSON) and
    [xastrftime_msec] of [timeval.h]. *)
Class ovsdb_externals `{ovsdb_data_layer} : Type := {
  ovsdb_schema_from_json : json → ovsdb_error + ovsdb_schema;
  ovsdb_schema_to_json : ovsdb_schema → json;
  (** the checks of [ovsdb_txn_commit]; [None] when the transaction passes *)
  ovsdb_txn_precommit : ovsdb_txn → option ovsdb_error;
  (** the [(old, new, changed)] triples that [ovsdb_txn_for_each_change]
      passes to its callback, in order *)
  ovsdb_txn_for_each_change :
    ovsdb_txn → list (option ovsdb_row * option ovsdb_row * (nat → bool));
  ovsdb_error_to_string : ovsdb_error → string;
  ovsdb_log_record_size : json → Z;
  (** the comment that [ovsdb_file_compact] formats with [xasprintf] from
      the age of the snapshot in milliseconds, the transaction count and
      the size of the log *)
  compact_comment : Z → Z → Z → string;
  xastrftime_msec : string → Z → bool → string;
}.

(** ** The world outside the process

    Files hold log records; the two clocks and the outcome of each fallible
    file operation are given in advance, one reading per call; [trace]
    records the calls made, most recent first. *)
Inductive log_entry : Type :=
  | log_record (payload : json) (size : Z)
      (** an intact record, [size] bytes on disk *)
  | log_corrupt.
      (** bytes that the read refuses: they fail the integrity check, or
          their payload is no JSON text *)

Inductive vlog_level : Type := VLL_ERR | VLL_WARN.

Inductive event : Type :=
  | ev_vlog (level : vlog_level) (msg : string)
  | ev_log_open (name : string)
  | ev_log_read (name : string)
  | ev_log_unread (name : string)
  | ev_log_write (name : string) (js : json)
  | ev_log_commit (name : string)
  | ev_log_replace_start (name : string)
  | ev_log_replace_commit (name : string)
  | ev_log_close (name : string)
  | ev_unlink (name : string).

Record world : Type := {
  fs : gmap string (list log_entry);
  wall_clock : nat → Z;
  wall_reads : nat;
  mono_clock : nat → Z;
  mono_reads : nat;
  io_fault : nat → bool;
  io_ops : nat;
  trace : list event;
}.

Definition world_emit (ev : event) (w : world) : world :=
  {| fs := fs w; wall_clock := wall_clock w; wall_reads := wall_reads w;
     mono_clock := mono_clock w; mono_reads := mono_reads w;
     io_fault := io_fault w; io_ops := io_ops w; trace := ev :: trace w |}.

Definition world_set_fs (files : gmap string (list log_entry)) (w : world) : world :=
  {| fs := files; wall_clock := wall_clock w; wall_reads := wall_reads w;
     mono_clock := mono_clock w; mono_reads := mono_reads w;
     io_fault := io_fault w; io_ops := io_ops w; trace := trace w |}.

(** Computations that act on the world. *)
Definition sys (A : Type) : Type := world → A * world.

Definition sys_ret {A} (a : A) : sys A := λ w, (a, w).
Definition sys_bind {A B} (m : sys A) (k : A → sys B) : sys B :=
  λ w, let '(a, w') := m w in k a w'.

Notation "x ←ˢ m ; k" := (sys_bind m (λ x, k))
  (at level 20, m at level 100, k at level 200, right associativity, only parsing).
Notation "' pat ←ˢ m ; k" := (sys_bind m (λ x, match x with pat => k end))
  (at level 20, pat pattern, m at level 100, k at level 200, right associativity, only parsing).
Notation "m ;;ˢ k" := (sys_bind m (λ _, k))
  (at level 100, k at level 200, right associativity, only parsing).

Definition emit (ev : event) : sys unit := λ w, (tt, world_emit ev w).

(** Modelled from the spec: the current wall-clock time in milliseconds
    ([time_wall_msec()] of [timeval.h]); the next reading of the wall clock,
    as a [long long int]. *)
Definition time_wall_msec : sys Z := λ w,
  (llong (wall_clock w (wall_reads w)),
   {| fs := fs w; wall_clock := wall_clock w; wall_reads := S (wall_reads w);
      mono_clock := mono_clock w; mono_reads := mono_reads w;
      io_fault := io_fault w; io_ops := io_ops w; trace := trace w |}).

(** Modelled from the spec: the time [now] of the compaction gate
    ([time_msec()] of [timeval.h]); the next reading of the monotonic clock,
    as a [long long int]. *)
Definition time_msec : sys Z := λ w,
  (llong (mono_clock w (mono_reads w)),
   {| fs := fs w; wall_clock := wall_clock w; wall_reads := wall_reads w;
      mono_clock := mono_clock w; mono_reads := S (mono_reads w);
      io_fault := io_fault w; io_ops := io_ops w; trace := trace w |}).

(** Whether the next fallible file operation fails. *)
Definition io_attempt : sys bool := λ w,
  (io_fault w (io_ops w),
   {| fs := fs w; wall_clock := wall_clock w; wall_reads := wall_reads w;
      mono_clock := mono_clock w; mono_reads := mono_reads w;
      io_fault := io_fault w; io_ops := S (io_ops w); trace := trace w |}).

(** [unlink(2)]. *)
Definition unlink (file_name : string) : sys unit :=
  emit (ev_unlink file_name);;ˢ
  λ w, (tt, world_set_fs (delete file_name (fs w)) w).

(** The number of compactions started so far: the calls of
    [ovsdb_log_replace_start], with which [ovsdb_file_compact] begins its
    work on the files. *)
Definition compactions_started (w : world) : nat :=
  length (List.filter (λ ev, match ev with ev_log_replace_start _ => true | _ => false end)
            (trace w)).

Definition VLOG_ERR (msg : string) : sys unit := emit (ev_vlog VLL_ERR msg).
Definition VLOG_WARN (msg : string) : sys unit := emit (ev_vlog VLL_WARN msg).

(** ** The log container ([log.h])

    The handle of an open log: the file it reads and writes, the number of
    records before its position, the byte offset of that position and the
    offset before the last record read. *)
Inductive ovsdb_log_open_mode : Type :=
  | OVSDB_LOG_READ_ONLY
  | OVSDB_LOG_READ_WRITE
  | OVSDB_LOG_CREATE_EXCL.

Record ovsdb_log : Type := {
  log_name : string;
  log_pos : nat;
  log_offset : Z;
  log_prev_offset : Z;
}.

Section Log.
Context `{ovsdb_externals}.

(** Modelled from the spec: [open(path, magic, mode, locking)] of the log
    container.  Create-exclusive fails if the path exists and creates an
    empty log otherwise; the other modes need the file.  The magic is the
    standalone one throughout, and locking is left to [io_fault]. *)
Definition ovsdb_log_open (file_name : string) (open_mode : ovsdb_log_open_mode)
    (locking : Z) : sys (ovsdb_error + ovsdb_log) :=
  emit (ev_log_open file_name);;ˢ
  failed ←ˢ io_attempt;
  λ w,
    let fresh := {| log_name := file_name; log_pos := 0%nat;
                    log_offset := 0; log_prev_offset := 0 |} in
    if failed : bool then (inl (ovsdb_io_error "open failed"), w)
    else match open_mode, fs w !! file_name with
         | OVSDB_LOG_CREATE_EXCL, Some _ => (inl (ovsdb_io_error "create failed"), w)
         | OVSDB_LOG_CREATE_EXCL, None =>
             (inr fresh, world_set_fs (<[file_name := []]> (fs w)) w)
         | _, Some _ => (inr fresh, w)
         | _, None => (inl (ovsdb_io_error "open failed"), w)
         end.

(** Modelled from the spec: [read(log)] of the log container.  It yields
    the payload of the next record, or nothing at the end of the file; on
    an integrity failure it returns an I/O error and leaves the position
    just before the bad record. *)
Definition ovsdb_log_read (log : ovsdb_log)
  : sys ((ovsdb_error + option json) * ovsdb_log) :=
  emit (ev_log_read (log_name log));;ˢ
  λ w,
    match default [] (fs w !! log_name log) !! log_pos log with
    | None => ((inr None, log), w)
    | Some (log_record payload size) =>
        ((inr (Some payload),
          {| log_name := log_name log; log_pos := S (log_pos log);
             log_offset := log_offset log + size;
             log_prev_offset := log_offset log |}), w)
    | Some log_corrupt => ((inl (ovsdb_io_error "read failed"), log), w)
    end.

(** Modelled from the spec: [unread(log)] of the log container; it pushes
    back the record read last, so that the next read returns it again. *)
Definition ovsdb_log_unread (log : ovsdb_log) : sys ovsdb_log :=
  emit (ev_log_unread (log_name log));;ˢ
  sys_ret {| log_name := log_name log; log_pos := pred (log_pos log);
             log_offset := log_prev_offset log;
             log_prev_offset := log_prev_offset log |}.

(** Modelled from the spec: [write(log, json)] of the log container; it
    appends a record at the position of the log.  Records behind that
    position, left unread by a replay that stopped, are discarded. *)
Definition ovsdb_log_write (log : ovsdb_log) (js : json)
  : sys (option ovsdb_error * ovsdb_log) :=
  emit (ev_log_write (log_name log) js);;ˢ
  failed ←ˢ io_attempt;
  λ w,
    if failed : bool then ((Some (ovsdb_io_error "write failed"), log), w)
    else
      let size := ovsdb_log_record_size js in
      let records := take (log_pos log) (default [] (fs w !! log_name log)) in
      ((None,
        {| log_name := log_name log; log_pos := S (log_pos log);
           log_offset := log_offset log + size;
           log_prev_offset := log_offset log |}),
       world_set_fs (<[log_name log := records ++ [log_record js size]]> (fs w)) w).

(** Modelled from the spec: [commit(log)] of the log container, the
    [fsync] of the file. *)
Definition ovsdb_log_commit (log : ovsdb_log) : sys (option ovsdb_error) :=
  emit (ev_log_commit (log_name log));;ˢ
  failed ←ˢ io_attempt;
  sys_ret (if failed : bool then Some (ovsdb_io_error "fsync failed") else None).

(** Modelled from the spec: [offset(log)] of the log container. *)
Definition ovsdb_log_get_offset (log : ovsdb_log) : Z := log_offset log.

(** Modelled from the spec: the path of the log. *)
Definition ovsdb_log_get_name (log : ovsdb_log) : string := log_name log.

(** Modelled from the spec: [replace_start(log)] of the log container; it
    creates an empty sibling temporary log. *)
Definition ovsdb_log_replace_start (old : ovsdb_log) : sys (ovsdb_error + ovsdb_log) :=
  emit (ev_log_replace_start (log_name old));;ˢ
  failed ←ˢ io_attempt;
  λ w,
    if failed : bool then (inl (ovsdb_io_error "replace_start failed"), w)
    else
      let tmp_name := (log_name old ++ ".tmp")%string in
      (inr {| log_name := tmp_name; log_pos := 0%nat;
              log_offset := 0; log_prev_offset := 0 |},
       world_set_fs (<[tmp_name := []]> (fs w)) w).

(** Modelled from the spec: [replace_commit(log, new_log)] of the log
    container; it swaps the file of [new] into the path of [old], and
    [old] then observes the new file.  On failure the old file is
    untouched. *)
Definition ovsdb_log_replace_commit (old new : ovsdb_log)
  : sys (option ovsdb_error * ovsdb_log) :=
  emit (ev_log_replace_commit (log_name old));;ˢ
  failed ←ˢ io_attempt;
  λ w,
    if failed : bool then ((Some (ovsdb_io_error "replace_commit failed"), old), w)
    else
      ((None,
        {| log_name := log_name old; log_pos := log_pos new;
           log_offset := log_offset new;
           log_prev_offset := log_prev_offset new |}),
       world_set_fs
         (<[log_name old := default [] (fs w !! log_name new)]>
            (delete (log_name new) (fs w))) w).

(** Modelled from the spec: [close(log)] of the log container. *)
Definition ovsdb_log_close (log : ovsdb_log) : sys unit :=
  emit (ev_log_close (log_name log)).
End Log.

(** ** Decoding a transaction record ([ovsdb/file.c]) *)
Section Decode.
Context `{ovsdb_externals}.

(** Modelled from the spec: [transaction_commit] of the engine interface;
    the database is the transaction's when the engine's checks pass and
    is left as it was otherwise. *)
Definition ovsdb_txn_commit (db : ovsdb) (txn : ovsdb_txn) (durable : bool)
  : ovsdb * option ovsdb_error :=
  match ovsdb_txn_precommit txn with
  | Some error => (db, Some error)
  | None => (txn_db txn, None)
  end.

(** The loop of [ovsdb_file_update_row_from_json] over the members of the
    row object. *)
Fixpoint update_row_columns (row : ovsdb_row) (converting : bool) (js : json)
    (nodes : list (string * json)) : ovsdb_row * option ovsdb_error :=
  match nodes with
  | [] => (row, None)
  | (column_name, data) :: nodes' =>
      let schema := row_table row in
      match ovsdb_table_schema_get_column schema column_name with
      | None =>
          if converting then update_row_columns row converting js nodes'
          else (row, Some (ovsdb_syntax_error (Some js) (Some "unknown column")
                             ("No column " ++ column_name ++ " in table "
                                ++ table_schema_name schema ++ ".")))
      | Some column =>
          match ovsdb_datum_from_json (column_type column) data with
          | inl error => (row, Some error)
          | inr datum =>
              update_row_columns (row_set_field row (column_index column) datum)
                converting js nodes'
          end
      end
  end.

Definition ovsdb_file_update_row_from_json (row : ovsdb_row) (converting : bool)
    (js : json) : ovsdb_row * option ovsdb_error :=
  match js with
  | JSON_OBJECT object => update_row_columns row converting js object
  | _ => (row, Some (ovsdb_syntax_error (Some js) None "row must be JSON object"))
  end.

Definition ovsdb_file_txn_row_from_json (txn : ovsdb_txn) (table : ovsdb_table)
    (converting : bool) (row_uuid : uuid) (js : json) : ovsdb_txn * option ovsdb_error :=
  let row := ovsdb_table_get_row txn table row_uuid in
  match js, row with
  | JSON_NULL, None =>
      (txn, Some (ovsdb_syntax_error None None
                    ("transaction deletes row " ++ uuid_to_string row_uuid
                       ++ " that does not exist")))
  | JSON_NULL, Some row => (ovsdb_txn_row_delete txn row, None)
  | _, Some row =>
      let '(rw, error) :=
        ovsdb_file_update_row_from_json (ovsdb_txn_row_modify txn row) converting js in
      (ovsdb_txn_row_modified txn row rw, error)
  | _, None =>
      let new := ovsdb_row_create table in
      let new := {| row_table := row_table new; row_uuid := row_uuid;
                    row_fields := row_fields new |} in
      let '(new, error) := ovsdb_file_update_row_from_json new converting js in
      match error with
      | Some _ => (txn, error)
      | None => (ovsdb_txn_row_insert txn new, None)
      end
  end.

(** The loop of [ovsdb_file_txn_table_from_json] over the rows of the
    table object. *)
Fixpoint txn_table_rows (txn : ovsdb_txn) (table : ovsdb_table) (converting : bool)
    (js : json) (nodes : list (string * json)) : ovsdb_txn * option ovsdb_error :=
  match nodes with
  | [] => (txn, None)
  | (uuid_string, txn_row_json) :: nodes' =>
      match uuid_from_string uuid_string with
      | None =>
          (txn, Some (ovsdb_syntax_error (Some js) None
                        (dquote ++ uuid_string ++ dquote ++ " is not a valid UUID")))
      | Some row_uuid =>
          match ovsdb_file_txn_row_from_json txn table converting row_uuid txn_row_json with
          | (txn', Some error) => (txn', Some error)
          | (txn', None) => txn_table_rows txn' table converting js nodes'
          end
      end
  end.

Definition ovsdb_file_txn_table_from_json (txn : ovsdb_txn) (table : ovsdb_table)
    (converting : bool) (js : json) : ovsdb_txn * option ovsdb_error :=
  match js with
  | JSON_OBJECT object => txn_table_rows txn table converting js object
  | _ => (txn, Some (ovsdb_syntax_error (Some js) None "object expected"))
  end.

(** The loop of [ovsdb_file_txn_from_json] over the members of the
    record. *)
Fixpoint txn_tables (db : ovsdb) (txn : ovsdb_txn) (converting : bool) (js : json)
    (nodes : list (string * json)) : ovsdb_txn * option ovsdb_error :=
  match nodes with
  | [] => (txn, None)
  | (table_name, node_json) :: nodes' =>
      match shash_find_data (db_tables db) table_name with
      | None =>
          if bool_decide (table_name = "_date") && json_is_integer node_json
          then txn_tables db txn converting js nodes'
          else if bool_decide (table_name = "_comment") || converting
          then txn_tables db txn converting js nodes'
          else (txn, Some (ovsdb_syntax_error (Some js) (Some "unknown table")
                             ("No table named " ++ table_name ++ ".")))
      | Some table =>
          match ovsdb_file_txn_table_from_json txn table converting node_json with
          | (txn', Some error) => (txn', Some error)
          | (txn', None) => txn_tables db txn' converting js nodes'
          end
      end
  end.

(** [ovsdb_file_txn_from_json]: the transaction stored in [*txnp], or the
    error; on an error the transaction built so far is aborted. *)
Definition ovsdb_file_txn_from_json (db : ovsdb) (js : json) (converting : bool)
  : ovsdb_error + ovsdb_txn :=
  match js with
  | JSON_OBJECT object =>
      match txn_tables db (ovsdb_txn_create db) converting js object with
      | (_, Some error) => inl error
      | (txn, None) => inr txn
      end
  | _ => inl (ovsdb_syntax_error (Some js) None "object expected")
  end.
End Decode.

(** ** Encoding and writing transactions ([ovsdb/file.c]) *)

(** Minimum number of milliseconds between database compactions. *)
Definition COMPACT_MIN_MSEC : Z := 10 * 60 * 1000.

(** Minimum number of milliseconds between trying to compact the database
    if compacting fails. *)
Definition COMPACT_RETRY_MSEC : Z := 60 * 1000.

Section File.
Context `{ovsdb_externals}.

(** A transaction being converted to JSON for writing to a file.
    [ftxn_table] is the name of the table that [ftxn_table_json]
    describes; [ftxn_table_json] is the member of that name in
    [ftxn_json] (the two share one object in C, so every change of the
    former is written through to the latter). *)
Record ovsdb_file_txn : Type := {
  ftxn_json : option json;
  ftxn_table_json : option json;
  ftxn_table : option string;
}.

Definition ovsdb_file_txn_init : ovsdb_file_txn :=
  {| ftxn_json := None; ftxn_table_json := None; ftxn_table := None |}.

(** The JSON of one row of [ovsdb_file_txn_add_row]: null for a deleted
    row, otherwise the columns to store; nothing for a modified row none
    of whose stored columns changed. *)
Definition add_row_json (old new : option ovsdb_row) (changed : nat → bool)
  : option json :=
  match new with
  | None => Some JSON_NULL
  | Some new =>
      foldl
        (λ (row : option json) '(_, column),
           let type := column_type column in
           let idx := column_index column in
           if negb (bool_decide (idx = OVSDB_COL_UUID))
              && column_persistent column
              && (match old with
                  | Some _ => changed idx
                  | None => negb (ovsdb_datum_is_default (row_field new idx type) type)
                  end)
           then Some (json_object_put (default json_object_create row)
                        (column_name column)
                        (ovsdb_datum_to_json (row_field new idx type) type))
           else row)
        (match old with Some _ => None | None => Some json_object_create end)
        (table_schema_columns (row_table new))
  end.

(** [ovsdb_file_txn_add_row].  The engine reports no change without a
    row; the model leaves [ftxn] alone for one. *)
Definition ovsdb_file_txn_add_row (ftxn : ovsdb_file_txn)
    (old new : option ovsdb_row) (changed : nat → bool) : ovsdb_file_txn :=
  match add_row_json old new changed, (match new with Some _ => new | None => old end) with
  | Some row, Some new_or_old =>
      let table := table_schema_name (row_table new_or_old) in
      let ftxn :=
        if bool_decide (Some table ≠ ftxn_table ftxn) then
          let table_json := json_object_create in
          {| ftxn_json :=
               Some (json_object_put (default json_object_create (ftxn_json ftxn))
                       table table_json);
             ftxn_table_json := Some table_json;
             ftxn_table := Some table |}
        else ftxn in
      let table_json :=
        json_object_put (default json_object_create (ftxn_table_json ftxn))
          (uuid_to_string (row_uuid new_or_old)) row in
      {| ftxn_json :=
           Some (json_object_put (default json_object_create (ftxn_json ftxn))
                   table table_json);
         ftxn_table_json := Some table_json;
         ftxn_table := ftxn_table ftxn |}
  | _, _ => ftxn
  end.

Definition ovsdb_file_txn_commit (js : option json) (comment : option string)
    (durable : bool) (log : ovsdb_log) : sys (option ovsdb_error * ovsdb_log) :=
  let js := default json_object_create js in
  let js := match comment with
            | Some comment => json_object_put_string js "_comment" comment
            | None => js
            end in
  now ←ˢ time_wall_msec;
  let js := json_object_put js "_date" (JSON_INTEGER now) in
  '(error, log) ←ˢ ovsdb_log_write log js;
  match error with
  | Some error => sys_ret (Some (ovsdb_wrap_error error "writing transaction failed"), log)
  | None =>
      if durable then
        error ←ˢ ovsdb_log_commit log;
        match error with
        | Some error =>
            sys_ret (Some (ovsdb_wrap_error error "committing transaction failed"), log)
        | None => sys_ret (None, log)
        end
      else sys_ret (None, log)
  end.

(** The rows that [ovsdb_file_save_copy__] adds: every row of every
    table, as a fresh insertion. *)
Definition save_copy_rows (db : ovsdb) : ovsdb_file_txn :=
  foldl
    (λ ftxn '(_, table),
       foldl (λ ftxn '(_, row), ovsdb_file_txn_add_row ftxn None (Some row) (λ _, false))
             ftxn (map_to_list (table_rows table)))
    ovsdb_file_txn_init (db_tables db).

Definition ovsdb_file_save_copy__ (log : ovsdb_log) (comment : option string)
    (db : ovsdb) : sys (option ovsdb_error * ovsdb_log) :=
  (* Write schema. *)
  let js := ovsdb_schema_to_json (db_schema db) in
  '(error, log) ←ˢ ovsdb_log_write log js;
  match error with
  | Some error => sys_ret (Some error, log)
  | None =>
      (* Write data. *)
      let ftxn := save_copy_rows db in
      ovsdb_file_txn_commit (ftxn_json ftxn) comment true log
  end.

(** [ovsdb_file_save_copy]: saves a snapshot of the contents of [db] as
    [file_name]. *)
Definition ovsdb_file_save_copy (file_name : string) (comment : option string)
    (db : ovsdb) : sys (option ovsdb_error) :=
  r ←ˢ ovsdb_log_open file_name OVSDB_LOG_CREATE_EXCL 1;
  match r with
  | inl error => sys_ret (Some error)
  | inr log =>
      '(error, log) ←ˢ ovsdb_file_save_copy__ log comment db;
      error ←ˢ match error with
               | None => ovsdb_log_commit log
               | Some _ => sys_ret error
               end;
      match error with
      | Some _ => unlink file_name
      | None => sys_ret tt
      end;;ˢ
      ovsdb_log_close log;;ˢ
      sys_ret error
  end.

Record ovsdb_file : Type := {
  file_db : ovsdb;
  file_log : ovsdb_log;
  last_compact : Z;
  next_compact : Z;
  n_transactions : Z;
  snapshot_size : Z;
}.

Definition ovsdb_file_create (db : ovsdb) (log : ovsdb_log) (n_transactions : Z)
    (snapshot_size : Z) : sys (option ovsdb_error * ovsdb_file) :=
  last_compact ←ˢ time_wall_msec;
  sys_ret (None,
           {| file_db := db; file_log := log;
              last_compact := last_compact;
              next_compact := llong (last_compact + COMPACT_MIN_MSEC);
              n_transactions := n_transactions;
              snapshot_size := snapshot_size |}).

Definition ovsdb_file_compact (file : ovsdb_file) : sys (option ovsdb_error * ovsdb_file) :=
  now ←ˢ time_wall_msec;
  let comment :=
    compact_comment (now - last_compact file) (n_transactions file)
      (ovsdb_log_get_offset (file_log file)) in
  r ←ˢ ovsdb_log_replace_start (file_log file);
  match r with
  | inl error => sys_ret (Some error, file)
  | inr new_log =>
      '(error, new_log) ←ˢ ovsdb_file_save_copy__ new_log (Some comment) (file_db file);
      match error with
      | Some _ => sys_ret (error, file)
      | None =>
          '(error, log) ←ˢ ovsdb_log_replace_commit (file_log file) new_log;
          match error with
          | Some _ => sys_ret (error, file)
          | None =>
              last_compact ←ˢ time_wall_msec;
              sys_ret (None,
                       {| file_db := file_db file; file_log := log;
                          last_compact := last_compact;
                          next_compact := llong (last_compact + COMPACT_MIN_MSEC);
                          n_transactions := 1;
                          snapshot_size := snapshot_size file |})
          end
      end
  end.

(** [ovsdb_file_change_cb]; it returns [true], so that the iteration
    goes on. *)
Definition ovsdb_file_change_cb (ftxn : ovsdb_file_txn)
    (change : option ovsdb_row * option ovsdb_row * (nat → bool)) : ovsdb_file_txn :=
  let '(old, new, changed) := change in
  ovsdb_file_txn_add_row ftxn old new changed.

(** [ftxn] of [ovsdb_file_commit] after [ovsdb_txn_for_each_change]. *)
Definition commit_ftxn (txn : ovsdb_txn) : ovsdb_file_txn :=
  foldl ovsdb_file_change_cb ovsdb_file_txn_init (ovsdb_txn_for_each_change txn).

Definition ovsdb_file_commit (file : ovsdb_file) (txn : ovsdb_txn) (durable : bool)
  : sys (option ovsdb_error * ovsdb_file) :=
  let ftxn := commit_ftxn txn in
  match ftxn_json ftxn with
  | None =>
      (* Nothing to commit. *)
      sys_ret (None, file)
  | Some js =>
      '(error, log) ←ˢ ovsdb_file_txn_commit (Some js) (ovsdb_txn_get_comment txn)
                         durable (file_log file);
      let file := {| file_db := file_db file; file_log := log;
                     last_compact := last_compact file;
                     next_compact := next_compact file;
                     n_transactions := n_transactions file;
                     snapshot_size := snapshot_size file |} in
      match error with
      | Some _ => sys_ret (error, file)
      | None =>
          let file := {| file_db := file_db file; file_log := file_log file;
                         last_compact := last_compact file;
                         next_compact := next_compact file;
                         n_transactions := uint (n_transactions file + 1);
                         snapshot_size := snapshot_size file |} in
          let log_size := ovsdb_log_get_offset (file_log file) in
          now ←ˢ time_msec;
          if (now >=? next_compact file)
             && (n_transactions file >=? 100)
             && (log_size >=? 10 * 1024 * 1024)
             && (log_size ÷ 4 >=? snapshot_size file)
          then
            '(error, file) ←ˢ ovsdb_file_compact file;
            match error with
            | Some error =>
                let s := ovsdb_error_to_string error in
                VLOG_WARN (ovsdb_log_get_name (file_log file)
                             ++ ": compacting database failed (" ++ s
                             ++ "), retrying in 60 seconds");;ˢ
                now ←ˢ time_msec;
                sys_ret (None,
                         {| file_db := file_db file; file_log := file_log file;
                            last_compact := last_compact file;
                            next_compact := llong (now + COMPACT_RETRY_MSEC);
                            n_transactions := n_transactions file;
                            snapshot_size := snapshot_size file |})
            | None => sys_ret (None, file)
            end
          else sys_ret (None, file)
      end
  end.

(** The state of the replay loop of [ovsdb_file_open]. *)
Record replay_state : Type := {
  replay_db : ovsdb;
  replay_log : ovsdb_log;
  replay_n_transactions : Z;
  replay_snapshot_size : Z;
}.

(** [ovsdb_file_open_log]; [logp] and [schemap] tell whether the caller
    passed a place for the log and for the schema. *)
Definition ovsdb_file_open_log (file_name : string) (open_mode : ovsdb_log_open_mode)
    (locking : Z) (logp schemap : bool)
  : sys (ovsdb_error + (option ovsdb_log * option ovsdb_schema)) :=
  r ←ˢ ovsdb_log_open file_name open_mode locking;
  match r with
  | inl error => sys_ret (inl error)
  | inr log =>
      '(r, log) ←ˢ ovsdb_log_read log;
      match r with
      | inl error => ovsdb_log_close log;;ˢ sys_ret (inl error)
      | inr None =>
          ovsdb_log_close log;;ˢ
          sys_ret (inl (ovsdb_io_error (file_name ++ ": database file contains no schema")))
      | inr (Some js) =>
          let parsed : ovsdb_error + option ovsdb_schema :=
            if schemap then
              match ovsdb_schema_from_json js with
              | inl error =>
                  inl (ovsdb_wrap_error error
                         ("failed to parse " ++ dquote ++ file_name ++ dquote
                            ++ " as ovsdb schema"))
              | inr schema => inr (Some schema)
              end
            else inr None in
          match parsed with
          | inl error => ovsdb_log_close log;;ˢ sys_ret (inl error)
          | inr schema =>
              if logp then sys_ret (inr (Some log, schema))
              else ovsdb_log_close log;;ˢ sys_ret (inr (None, schema))
          end
      end
  end.

(** The [while] loop of [ovsdb_file_open].  Each turn reads one record,
    so the number of records of the file and one more turn for the end
    of the file bound the loop; [fuel] counts the turns left. *)
Fixpoint ovsdb_file_open_replay (fuel : nat) (converting : bool) (st : replay_state)
  : sys (option ovsdb_error * replay_state) :=
  match fuel with
  | O => sys_ret (None, st)
  | S fuel =>
      '(r, log) ←ˢ ovsdb_log_read (replay_log st);
      match r with
      | inl error =>
          sys_ret (Some error,
                   {| replay_db := replay_db st; replay_log := log;
                      replay_n_transactions := replay_n_transactions st;
                      replay_snapshot_size := replay_snapshot_size st |})
      | inr None =>
          sys_ret (None,
                   {| replay_db := replay_db st; replay_log := log;
                      replay_n_transactions := replay_n_transactions st;
                      replay_snapshot_size := replay_snapshot_size st |})
      | inr (Some js) =>
          match ovsdb_file_txn_from_json (replay_db st) js converting with
          | inl error =>
              log ←ˢ ovsdb_log_unread log;
              sys_ret (Some error,
                       {| replay_db := replay_db st; replay_log := log;
                          replay_n_transactions := replay_n_transactions st;
                          replay_snapshot_size := replay_snapshot_size st |})
          | inr txn =>
              let n_transactions := uint (replay_n_transactions st + 1) in
              match ovsdb_txn_commit (replay_db st) txn false with
              | (db, Some error) =>
                  log ←ˢ ovsdb_log_unread log;
                  sys_ret (Some error,
                           {| replay_db := db; replay_log := log;
                              replay_n_transactions := n_transactions;
                              replay_snapshot_size := replay_snapshot_size st |})
              | (db, None) =>
                  let snapshot_size :=
                    if bool_decide (n_transactions = 1) then ovsdb_log_get_offset log
                    else replay_snapshot_size st in
                  ovsdb_file_open_replay fuel converting
                    {| replay_db := db; replay_log := log;
                       replay_n_transactions := n_transactions;
                       replay_snapshot_size := snapshot_size |}
              end
          end
      end
  end.

(** The number of records, intact or not, in the file of [log]. *)
Definition log_file_length (log : ovsdb_log) (w : world) : nat :=
  length (default [] (fs w !! log_name log)).

(** [ovsdb_file_open]; [alternate_schema] is [None] for a null pointer and
    [filep] tells whether the caller asked for the [ovsdb_file]. *)
Definition ovsdb_file_open (file_name : string) (alternate_schema : option ovsdb_schema)
    (read_only : bool) (locking : Z) (filep : bool)
  : sys (ovsdb_error + (ovsdb * option ovsdb_file)) :=
  let open_mode := if read_only then OVSDB_LOG_READ_ONLY else OVSDB_LOG_READ_WRITE in
  r ←ˢ ovsdb_file_open_log file_name open_mode locking true
         (bool_decide (alternate_schema = None));
  match r with
  | inl error => sys_ret (inl error)
  | inr (None, _) =>
      (* not reached: the log was asked for *)
      sys_ret (inl (ovsdb_io_error "no log"))
  | inr (Some log, schema) =>
      match (match schema with Some _ => schema | None => alternate_schema end) with
      | None =>
          (* not reached: the schema is read unless an alternate one is given *)
          sys_ret (inl (ovsdb_io_error "no schema"))
      | Some schema =>
          let db := ovsdb_create schema in
          fuel ←ˢ (λ w, (S (log_file_length log w), w));
          '(error, st) ←ˢ
            ovsdb_file_open_replay fuel (bool_decide (alternate_schema ≠ None))
              {| replay_db := db; replay_log := log;
                 replay_n_transactions := 0; replay_snapshot_size := 0 |};
          match error with
          | Some error =>
              (* Log error but otherwise ignore it. *)
              VLOG_ERR (ovsdb_error_to_string error)
          | None => sys_ret tt
          end;;ˢ
          if filep then
            '(error, file) ←ˢ
              ovsdb_file_create (replay_db st) (replay_log st)
                (replay_n_transactions st) (replay_snapshot_size st);
            match error with
            | Some error =>
                ovsdb_log_close (replay_log st);;ˢ sys_ret (inl error)
            | None => sys_ret (inr (replay_db st, Some file))
            end
          else
            ovsdb_log_close (replay_log st);;ˢ sys_ret (inr (replay_db st, None))
      end
  end.

(** *** The life of an open database file

    Once open, the file is changed by commits and compactions only.  The
    database is shared with the engine, which may have changed it before
    each call: [db] is the database at the time of the call. *)
Inductive file_call : Type :=
  | call_commit (db : ovsdb) (txn : ovsdb_txn) (durable : bool)
  | call_compact (db : ovsdb).

Definition file_with_db (db : ovsdb) (file : ovsdb_file) : ovsdb_file :=
  {| file_db := db; file_log := file_log file;
     last_compact := last_compact file; next_compact := next_compact file;
     n_transactions := n_transactions file; snapshot_size := snapshot_size file |}.

Definition run_call (call : file_call) (file : ovsdb_file) : sys ovsdb_file :=
  match call with
  | call_commit db txn durable =>
      '(_, file) ←ˢ ovsdb_file_commit (file_with_db db file) txn durable;
      sys_ret file
  | call_compact db =>
      '(_, file) ←ˢ ovsdb_file_compact (file_with_db db file);
      sys_ret file
  end.

Fixpoint run_calls (calls : list file_call) (file : ovsdb_file) : sys ovsdb_file :=
  match calls with
  | [] => sys_ret file
  | call :: calls => file ←ˢ run_call call file; run_calls calls file
  end.

End File.

(** The members of a transaction record that the claims about reserved keys
    speak of: [_date] with an integer value, [_comment] with any value. *)
Definition reserved_member (node : string * json) : bool :=
  bool_decide (node.1 = "_date") && json_is_integer node.2
  || bool_decide (node.1 = "_comment").

(** [name[0] == '_'] *)
Definition starts_with_underscore (name : string) : bool :=
  match name with
  | String c _ => bool_decide (c = Ascii.ascii_of_nat 95)
  | EmptyString => false
  end.

(** The tables of a database are those of its schema ([ovsdb_create]),
    and a schema comes from [ovsdb_schema_from_json], of [ovsdb.c], which
    refuses a table whose name begins with an underscore: such names are
    reserved.  Hence what the decoder may rely on for the database that
    it is given: no name of a table begins with an underscore. *)
Definition table_names_valid `{ovsdb_data_layer} (db : ovsdb) : Prop :=
  ∀ name, name ∈ (db_tables db).*1 → starts_with_underscore name = false.

(** What the replay loop requires of a record to go on: it decodes to a
    transaction, and the transaction commits; [db'] is the database then. *)
Definition record_applies `{ovsdb_externals} (converting : bool) (db : ovsdb) (js : json)
    (db' : ovsdb) : Prop :=
  ∃ txn, ovsdb_file_txn_from_json db js converting = inr txn
         ∧ ovsdb_txn_commit db txn false = (db', None).

(** The records, each with its size on disk, apply one after the other. *)
Fixpoint records_apply `{ovsdb_externals} (converting : bool) (db : ovsdb)
    (records : list (json * Z)) (db' : ovsdb) : Prop :=
  match records with
  | [] => db' = db
  | (js, _) :: records =>
      ∃ db1, record_applies converting db js db1
             ∧ records_apply converting db1 records db'
  end.

(** Decoding the record fails, or committing its transaction does. *)
Definition record_fails `{ovsdb_externals} (converting : bool) (db : ovsdb) (js : json)
    (error : ovsdb_error) : Prop :=
  ovsdb_file_txn_from_json db js converting = inl error
  ∨ ∃ txn, ovsdb_file_txn_from_json db js converting = inr txn
           ∧ ovsdb_txn_commit db txn false = (db, Some error).

(** The entry of the log ends the replay with [error]: the read refuses
    it, or it holds a record that fails to decode or to commit. *)
Definition entry_fails `{ovsdb_externals} (converting : bool) (db : ovsdb)
    (entry : log_entry) (error : ovsdb_error) : Prop :=
  match entry with
  | log_record js _ => record_fails converting db js error
  | log_corrupt => error = ovsdb_io_error "read failed"
  end.

(** The calls of [ovsdb_log_unread] that the replay loop makes when it
    ends at the entry: one after a record that was read, none when the
    read itself failed. *)
Definition replay_unreads (name : string) (entry : log_entry) : list event :=
  match entry with
  | log_record _ _ => [ev_log_unread name]
  | log_corrupt => []
  end.

(** The file operations of [ovsdb_file_compact], in the order it makes
    them: [ovsdb_log_replace_start]; in [ovsdb_file_save_copy__] the write
    of the schema, the write of the data and the [fsync] of the copy;
    [ovsdb_log_replace_commit].  [compact_step_error i] is the error that
    the [i]-th of them gives [ovsdb_file_compact] when it fails. *)
Definition compact_step_error `{ovsdb_externals} (i : nat) : ovsdb_error :=
  match i with
  | 0%nat => ovsdb_io_error "replace_start failed"
  | 1%nat => ovsdb_io_error "write failed"
  | 2%nat => ovsdb_wrap_error (ovsdb_io_error "write failed") "writing transaction failed"
  | 3%nat =>
      ovsdb_wrap_error (ovsdb_io_error "fsync failed") "committing transaction failed"
  | _ => ovsdb_io_error "replace_commit failed"
  end.

(** The warning of [ovsdb_file_commit] for a compaction of the log [name]
    that failed with [error]. *)
Definition compact_warning `{ovsdb_externals} (name : string) (error : ovsdb_error)
  : event :=
  ev_vlog VLL_WARN (name ++ ": compacting database failed ("
                      ++ ovsdb_error_to_string error ++ "), retrying in 60 seconds").

(** The records as they lie in the file. *)
Definition log_records (records : list (json * Z)) : list log_entry :=
  (λ '(js, size), log_record js size) <$> records.

(** The bytes that the records take. *)
Definition log_records_size (records : list (json * Z)) : Z :=
  foldr (λ '(_, size) total, size + total) 0 records.

(** The world after [n] more reads of the log. *)
Definition world_reads (name : string) (n : nat) (w : world) : world :=
  Nat.iter n (world_emit (ev_log_read name)) w.

(** A database without rows. *)
Definition db_empty `{ovsdb_data_layer} (db : ovsdb) : Prop :=
  ∀ name table, (name, table) ∈ db_tables db → table_rows table = ∅.

(** The readings of the clocks are such that the sums made with them fit
    a [long long int]. *)
Definition clocks_in_range (w : world) : Prop :=
  ∀ i, (LLONG_MIN <= wall_clock w i ∧ wall_clock w i + COMPACT_MIN_MSEC <= LLONG_MAX)
       ∧ (LLONG_MIN <= mono_clock w i ∧ mono_clock w i + COMPACT_MIN_MSEC <= LLONG_MAX).

(** The monotonic clock does not go back. *)
Definition mono_clock_monotone (w : world) : Prop :=
  ∀ i j, (i ≤ j)%nat → mono_clock w i <= mono_clock w j.

(** ** The record header of [do_show_log_standalone] ([ovsdb-tool.c]) *)
Section ShowLog.
Context `{ovsdb_externals}.

Definition newline : string := String (Ascii.ascii_of_nat 10) EmptyString.

(** The time in milliseconds that the loop passes to [xastrftime_msec]
    for the value [t] of [_date]. *)
Definition show_log_date_msec (t : Z) : Z :=
  if t <? INT32_MAX then
    (* Older versions of ovsdb wrote timestamps in seconds. *)
    llong (t * 1000)
  else t.

(** What one turn of the loop prints after ["record %u:"] for a record of
    index [i > 0], when [show_log_verbosity] is 0. *)
Definition show_log_record (js : json) : string :=
  match js with
  | JSON_OBJECT object =>
      match shash_find_data object "_date" with
      | Some (JSON_INTEGER t) =>
          xastrftime_msec " %Y-%m-%d %H:%M:%S.###" (show_log_date_msec t) true
      | _ => ""
      end
      ++ match shash_find_data object "_comment" with
         | Some (JSON_STRING comment) => " " ++ dquote ++ comment ++ dquote
         | _ => ""
         end
  | _ => ""
  end ++ newline.
End ShowLog.

(** ** A small instance of the interfaces

    Columns of type string or integer whose data are the JSON values
    themselves, UUIDs written as 32 hexadecimal digits in five groups, an
    engine whose checks always pass.  The concrete runs below use it. *)
Module Mini.
Inductive mini_type : Type := mini_string | mini_integer | mini_uuid.

Definition mini_default (type : mini_type) : json :=
  match type with
  | mini_integer => JSON_INTEGER 0
  | _ => JSON_STRING ""
  end.

Definition mini_datum_from_json (type : mini_type) (js : json) : ovsdb_error + json :=
  match type, js with
  | mini_integer, JSON_INTEGER _ => inr js
  | mini_string, JSON_STRING _ => inr js
  | mini_uuid, JSON_STRING _ => inr js
  | _, _ => inl (ovsdb_syntax_error (Some js) None "type mismatch")
  end.

Definition mini_datum_is_default (datum : json) (type : mini_type) : bool :=
  match datum with
  | JSON_INTEGER i => bool_decide (i = 0)
  | JSON_STRING s => bool_decide (s = "")
  | _ => false
  end.

Definition hex_value (c : Ascii.ascii) : option N :=
  let n := Ascii.N_of_ascii c in
  if (48 <=? n)%N && (n <=? 57)%N then Some (n - 48)%N
  else if (97 <=? n)%N && (n <=? 102)%N then Some (n - 87)%N
  else if (65 <=? n)%N && (n <=? 70)%N then Some (n - 55)%N
  else None.

Fixpoint uuid_parse (pos : nat) (s : string) (acc : N) : option N :=
  match s with
  | EmptyString => if bool_decide (pos = 36%nat) then Some acc else None
  | String c s' =>
      if bool_decide (pos ∈ [8; 13; 18; 23]%nat) then
        if bool_decide (c = Ascii.ascii_of_nat 45) then uuid_parse (S pos) s' acc else None
      else
        match hex_value c with
        | Some d => uuid_parse (S pos) s' (acc * 16 + d)%N
        | None => None
        end
  end.

Definition hex_char (d : N) : Ascii.ascii :=
  if (d <? 10)%N then Ascii.ascii_of_N (48 + d) else Ascii.ascii_of_N (87 + d).

Fixpoint hex_digits (n : nat) (v : N) (acc : string) : string :=
  match n with
  | O => acc
  | S n' => hex_digits n' (v / 16)%N (String (hex_char (v mod 16)%N) acc)
  end.

Definition mini_uuid_to_string (u : N) : string :=
  let h := hex_digits 32 u "" in
  String.substring 0 8 h ++ "-" ++ String.substring 8 4 h ++ "-" ++ String.substring 12 4 h ++ "-"
    ++ String.substring 16 4 h ++ "-" ++ String.substring 20 12 h.

(** The UUID that the datum of a UUID column holds: the one its string
    spells. *)
Definition mini_datum_uuid (datum : json) : N :=
  match datum with
  | JSON_STRING s => default 0%N (uuid_parse 0 s 0%N)
  | _ => 0%N
  end.

#[export] Instance mini_data : ovsdb_data_layer := {|
  ovsdb_type := mini_type;
  ovsdb_datum := json;
  ovsdb_datum_default := mini_default;
  ovsdb_datum_from_json := mini_datum_from_json;
  ovsdb_datum_to_json := λ datum _, datum;
  ovsdb_datum_is_default := mini_datum_is_default;
  ovsdb_datum_uuid := mini_datum_uuid;
  uuid_from_string := λ s, uuid_parse 0 s 0%N;
  uuid_to_string := mini_uuid_to_string;
|}.

Definition mini_column (name : string) (index : nat) (persistent : bool)
    (type : mini_type) : string * ovsdb_column :=
  (name, {| column_name := name; column_index := index;
            column_persistent := persistent; column_type := type |}).

Fixpoint parse_columns (index : nat) (nodes : list (string * json))
  : option (list (string * ovsdb_column)) :=
  match nodes with
  | [] => Some []
  | (name, JSON_OBJECT column) :: nodes' =>
      match shash_find_data column "type", parse_columns (S index) nodes' with
      | Some (JSON_STRING type), Some columns =>
          if bool_decide (type = "string")
          then Some (mini_column name index true mini_string :: columns)
          else if bool_decide (type = "integer")
          then Some (mini_column name index true mini_integer :: columns)
          else None
      | _, _ => None
      end
  | _ => None
  end.

Fixpoint parse_tables (nodes : list (string * json))
  : option (list (string * ovsdb_table_schema)) :=
  match nodes with
  | [] => Some []
  | (name, JSON_OBJECT table) :: nodes' =>
      match shash_find_data table "columns", parse_tables nodes' with
      | Some (JSON_OBJECT columns), Some tables =>
          match parse_columns 2 columns with
          | Some columns =>
              (* names beginning with "_" are reserved *)
              if starts_with_underscore name then None else
              Some ((name,
                     {| table_schema_name := name;
                        table_schema_columns :=
                          mini_column "_uuid" 0 true mini_uuid
                            :: mini_column "_version" 1 false mini_uuid :: columns |})
                      :: tables)
          | None => None
          end
      | _, _ => None
      end
  | _ => None
  end.

Definition json_string_member (object : list (string * json)) (name : string) : string :=
  match shash_find_data object name with
  | Some (JSON_STRING s) => s
  | _ => ""
  end.

Definition mini_schema_from_json (js : json) : ovsdb_error + ovsdb_schema :=
  match js with
  | JSON_OBJECT object =>
      match shash_find_data object "name", shash_find_data object "tables" with
      | Some (JSON_STRING name), Some (JSON_OBJECT tables) =>
          match parse_tables tables with
          | Some tables =>
              inr {| schema_name := name;
                     schema_version := json_string_member object "version";
                     schema_cksum := json_string_member object "cksum";
                     schema_tables := tables |}
          | None => inl (ovsdb_syntax_error (Some js) None "bad table")
          end
      | _, _ => inl (ovsdb_syntax_error (Some js) None "bad schema")
      end
  | _ => inl (ovsdb_syntax_error (Some js) None "bad schema")
  end.

Definition mini_column_to_json (column : string * ovsdb_column) : string * json :=
  (column.1,
   JSON_OBJECT [("type", JSON_STRING match column_type column.2 with
                                     | mini_integer => "integer"
                                     | _ => "string"
                                     end)]).

Definition mini_table_to_json (table : string * ovsdb_table_schema) : string * json :=
  (table.1,
   JSON_OBJECT [("columns",
                 JSON_OBJECT (mini_column_to_json
                                <$> drop 2 (table_schema_columns table.2)))]).

Definition mini_schema_to_json (schema : ovsdb_schema) : json :=
  JSON_OBJECT [("name", JSON_STRING (schema_name schema));
               ("tables", JSON_OBJECT (mini_table_to_json <$> schema_tables schema))].

Fixpoint json_length (js : json) : Z :=
  match js with
  | JSON_NULL | JSON_TRUE => 4
  | JSON_FALSE => 5
  | JSON_OBJECT object =>
      2 + (fix members (l : list (string * json)) : Z :=
             match l with
             | [] => 0
             | (k, v) :: l' => Z.of_nat (String.length k) + 4 + json_length v + members l'
             end) object
  | JSON_ARRAY elems =>
      2 + (fix elements (l : list json) : Z :=
             match l with
             | [] => 0
             | v :: l' => json_length v + 1 + elements l'
             end) elems
  | JSON_INTEGER i => Z.of_nat (String.length (pretty i))
  | JSON_REAL _ _ => 8
  | JSON_STRING s => Z.of_nat (String.length s) + 2
  end.

(** Header line, payload, newline. *)
Definition mini_record_size (js : json) : Z :=
  let len := json_length js in
  53 + Z.of_nat (String.length (pretty len)) + len + 1.

Fixpoint mini_error_to_string (error : ovsdb_error) : string :=
  match error with
  | ovsdb_io_error details => "I/O error: " ++ details
  | ovsdb_syntax_error _ _ details => "syntax error: " ++ details
  | ovsdb_wrap_error inner msg => msg ++ ": " ++ mini_error_to_string inner
  | ovsdb_other_error tag details => tag ++ ": " ++ details
  end.

#[export] Instance mini_externals : ovsdb_externals := {|
  ovsdb_schema_from_json := mini_schema_from_json;
  ovsdb_schema_to_json := mini_schema_to_json;
  ovsdb_txn_precommit := λ _, None;
  ovsdb_txn_for_each_change := λ txn, (λ '(old, new), (old, new, λ _, true)) <$> txn_rows txn;
  ovsdb_error_to_string := mini_error_to_string;
  ovsdb_log_record_size := mini_record_size;
  compact_comment := λ _ _ _, "compacting database online";
  xastrftime_msec := λ _ when _, (" @" ++ pretty when)%string;
|}.

(** *** Concrete runs

    The schema of the scenarios: one table [T] with a string column [k]
    and an integer column [v]. *)
Definition schema_json : json :=
  JSON_OBJECT
    [("name", JSON_STRING "mini");
     ("tables",
      JSON_OBJECT
        [("T",
          JSON_OBJECT
            [("columns",
              JSON_OBJECT [("k", JSON_OBJECT [("type", JSON_STRING "string")]);
                           ("v", JSON_OBJECT [("type", JSON_STRING "integer")])])])])].

Definition empty_schema : ovsdb_schema :=
  {| schema_name := ""; schema_version := ""; schema_cksum := ""; schema_tables := [] |}.

Definition schema : ovsdb_schema :=
  match mini_schema_from_json schema_json with
  | inr schema => schema
  | inl _ => empty_schema
  end.

Definition db0 : ovsdb := ovsdb_create schema.

Definition u1 : string := "00000000-0000-0000-0000-000000000001".
Definition u2 : string := "00000000-0000-0000-0000-000000000002".

Definition insert_u1 : json :=
  JSON_OBJECT [("T", JSON_OBJECT [(u1, JSON_OBJECT [("k", JSON_STRING "a");
                                                    ("v", JSON_INTEGER 1)])]);
               ("_date", JSON_INTEGER 1700000000000)].

Definition modify_u1 : json :=
  JSON_OBJECT [("T", JSON_OBJECT [(u1, JSON_OBJECT [("v", JSON_INTEGER 2)])]);
               ("_date", JSON_INTEGER 1700000001000)].

Definition delete_u2 : json :=
  JSON_OBJECT [("T", JSON_OBJECT [(u2, JSON_NULL)]);
               ("_date", JSON_INTEGER 1700000002000)].

(** The transaction that a record decodes to. *)
Definition decoded (db : ovsdb) (js : json) : ovsdb_txn :=
  match ovsdb_file_txn_from_json db js false with
  | inr txn => txn
  | inl _ => ovsdb_txn_create db
  end.

Definition db1 : ovsdb := txn_db (decoded db0 insert_u1).

(** A world whose clocks tick once per reading, a thousand times: the
    wall clock from a date in 2023, the monotonic clock from [boot]
    milliseconds after boot. *)
Definition clock_world (boot : Z) (files : gmap string (list log_entry))
    (faults : nat → bool) : world :=
  {| fs := files;
     wall_clock := λ n, 1700000000000 + Z.of_nat (n `min` 1000);
     wall_reads := 0;
     mono_clock := λ n, boot + Z.of_nat (n `min` 1000);
     mono_reads := 0;
     io_fault := faults; io_ops := 0; trace := [] |}.

Definition no_fault : nat → bool := λ _, false.

(** A log with the schema and one transaction, as a compaction leaves
    it. *)
Definition snapshot_record : json :=
  JSON_OBJECT [("_comment", JSON_STRING "compacting database online");
               ("_date", JSON_INTEGER 1700000000000)].

Definition compacted_world : world :=
  clock_world 5000 {[ "db" := [log_record schema_json (mini_record_size schema_json);
                          log_record snapshot_record (mini_record_size snapshot_record)] ]}
    no_fault.

(** A log whose third record deletes a row that does not exist. *)
Definition broken_world : world :=
  clock_world 5000 {[ "db" := [log_record schema_json 151;
                               log_record insert_u1 160;
                               log_record delete_u2 120;
                               log_record modify_u1 130] ]}
    no_fault.

(** A log whose third record the read refuses. *)
Definition corrupt_world : world :=
  clock_world 5000 {[ "db" := [log_record schema_json 151;
                               log_record insert_u1 160;
                               log_corrupt;
                               log_record modify_u1 130] ]}
    no_fault.

(** An open file whose log has grown to 20 MB over 149 transactions. *)
Definition grown_log : ovsdb_log :=
  {| log_name := "db"; log_pos := 2; log_offset := 20000000; log_prev_offset := 151 |}.

Definition grown_file : ovsdb_file :=
  {| file_db := db1;
     file_log := grown_log;
     last_compact := 1000; next_compact := 4000;
     n_transactions := 149; snapshot_size := 160 |}.

Definition grown_files : gmap string (list log_entry) :=
  {[ "db" := [log_record schema_json 151; log_record insert_u1 19999849] ]}.

Definition grown_world (faults : nat → bool) : world :=
  clock_world 5000 grown_files faults.

(** The same files on a machine that has been up for a long time: the
    monotonic clock is ahead of the wall clock. *)
Definition late_world (faults : nat → bool) : world :=
  clock_world 1800000000000 grown_files faults.

Definition txn_modify : ovsdb_txn := decoded db1 modify_u1.

(** The third file operation fails: the [replace_start] of the
    compaction that follows the write and the [fsync] of a commit. *)
Definition third_fails : nat → bool := λ n, bool_decide (n = 2%nat).

(** The first file operation fails. *)
Definition first_fails : nat → bool := λ n, bool_decide (n = 0%nat).

(** Scenario S4: the log of [broken_world] is opened, compacted, and opened
    again. *)
Definition s4_opened : (ovsdb_error + (ovsdb * option ovsdb_file)) * world :=
  ovsdb_file_open "db" None false 0 true broken_world.

Definition s4_file : ovsdb_file :=
  match s4_opened.1 with
  | inr (_, Some file) => file
  | _ => grown_file
  end.

Definition s4_compacted : (option ovsdb_error * ovsdb_file) * world :=
  ovsdb_file_compact s4_file s4_opened.2.

Definition s4_reopened : (ovsdb_error + (ovsdb * option ovsdb_file)) * world :=
  ovsdb_file_open "db" None false 0 true s4_compacted.2.

(** The [snapshot_size] of the file that [ovsdb_file_open] returned. *)
Definition opened_snapshot_size (r : ovsdb_error + (ovsdb * option ovsdb_file))
  : option Z :=
  match r with
  | inr (_, Some file) => Some (snapshot_size file)
  | _ => None
  end.

(** The table [T] of a database. *)
Definition table_T (db : ovsdb) : ovsdb_table :=
  default {| table_schema := {| table_schema_name := ""; table_schema_columns := [] |};
             table_rows := ∅ |}
          (shash_find_data (db_tables db) "T").

(** The tables that the rows of a transaction are in: for each change, the
    table of the old row and the table of the new one. *)
Definition txn_row_tables (txn : ovsdb_txn) : list (option string * option string) :=
  (λ change : option ovsdb_row * option ovsdb_row,
     (table_schema_name ∘ row_table <$> change.1,
      table_schema_name ∘ row_table <$> change.2)) <$> txn_rows txn.

(** The record that [ovsdb_file_commit] writes for [txn_modify], and the
    log and the world once it is written. *)
Definition modify_json : json := default JSON_NULL (ftxn_json (commit_ftxn txn_modify)).

Definition modify_appended (w : world) : (option ovsdb_error * ovsdb_log) * world :=
  ovsdb_file_txn_commit (Some modify_json) (ovsdb_txn_get_comment txn_modify) true
    (file_log grown_file) w.

(** The error of [ovsdb_file_txn_row_from_json] for the row of [u2]. *)
Definition u2_missing : ovsdb_error :=
  ovsdb_syntax_error None None
    ("transaction deletes row " ++ u2 ++ " that does not exist").

(** The bytes that an entry of a log file takes, for the intact ones. *)
Definition entry_size (entry : log_entry) : Z :=
  match entry with
  | log_record _ size => size
  | log_corrupt => 0
  end.
End Mini.

(** ** Reading the schema of a file ([ovsdb/file.c]) *)
Section FileSchema.
Context `{ovsdb_externals}.

(** [ovsdb_file_read_schema]: opens the database, reads its schema and
    closes it; the caller passes no place for the log. *)
Definition ovsdb_file_read_schema (file_name : string) : sys (ovsdb_error + ovsdb_schema) :=
  r ←ˢ ovsdb_file_open_log file_name OVSDB_LOG_READ_ONLY 0 false true;
  match r with
  | inl error => sys_ret (inl error)
  | inr (_, Some schema) => sys_ret (inr schema)
  | inr (_, None) =>
      (* not reached: the schema was asked for *)
      sys_ret (inl (ovsdb_io_error "no schema"))
  end.
End FileSchema.

(** ** The commands of [ovsdb-tool] ([ovsdb-tool.c])

    What the tool takes from other compilation units: the printers of
    JSON and of data, the reader of schema files, [follow_symlinks],
    [ovsdb_destroy], the directories of the installation and the
    version string. *)
Class ovsdb_tool_externals `{ovsdb_externals} : Type := {
  (** [json_to_string(json, JSSF_SORT)] *)
  json_to_string : json → string;
  ovsdb_datum_to_string : ovsdb_datum → ovsdb_type → string;
  ovsdb_schema_from_file : string → sys (ovsdb_error + ovsdb_schema);
  follow_symlinks : string → string;
  ovsdb_destroy : ovsdb → sys unit;
  ovs_dbdir : string;
  ovs_pkgdatadir : string;
  VERSION : string;
}.

Section Tool.
Context `{ovsdb_tool_externals}.

Definition tab : string := String (Ascii.ascii_of_nat 9) EmptyString.

(** What [%.8s] prints of a string, and what [xmemdup0(s, 8)] keeps of it:
    its first eight characters. *)
Definition first_8 (s : string) : string := String.substring 0 8 s.

Definition default_db : string := (ovs_dbdir ++ "/conf.db")%string.
Definition default_schema : string := (ovs_pkgdatadir ++ "/vswitch.ovsschema")%string.

(** [ctx->argc >= n + 1 ? ctx->argv[n] : otherwise]; [argv] holds the name
    of the command and its arguments. *)
Definition arg_or (argv : list string) (n : nat) (otherwise : string) : string :=
  if bool_decide (n + 1 ≤ length argv)%nat then default otherwise (argv !! n) else otherwise.

(** A command ends with the text that it wrote to the standard output,
    or, where [check_ovsdb_error] found an error, in [ovs_fatal] with that
    error; the text written before is kept with it. *)
Record tool_exit : Type := {
  tool_stdout : string;
  tool_fatal : option ovsdb_error;
}.

(** The line of [print_db_changes] for one column of a row, with
    [show_log_verbosity > 1]. *)
Definition print_db_changes_column (table_schema : option ovsdb_table_schema)
    (n3 : string * json) : string :=
  let '(column, value) := n3 in
  let column_schema :=
    match table_schema with
    | Some table_schema => shash_find_data (table_schema_columns table_schema) column
    | None => None
    end in
  let value_string :=
    match column_schema with
    | Some column_schema =>
        let type := column_type column_schema in
        match ovsdb_datum_from_json type value with
        | inr datum => Some (ovsdb_datum_to_string datum type)
        | inl _ => None
        end
    | None => None
    end in
  let value_string := default (json_to_string value) value_string in
  (tab ++ tab ++ column ++ "=" ++ value_string ++ newline)%string.

(** One turn of the loop of [print_db_changes] over the rows of a table:
    the text printed and the names of the rows afterwards. *)
Definition print_db_changes_row (show_log_verbosity : Z) (table : string)
    (table_schema : option ovsdb_table_schema) (names : gmap string string)
    (n2 : string * json) : string * gmap string string :=
  let '(row_uuid, columns) := n2 in
  let old_name := names !! row_uuid in
  let new_name_json :=
    match columns with
    | JSON_OBJECT object => shash_find_data object "name"
    | _ => None
    end in
  let new_name :=
    match new_name_json with
    | Some new_name_json => Some (json_to_string new_name_json)
    | None => old_name
    end in
  let out :=
    (tab ++ "table " ++ table
     ++ match old_name with
        | None =>
            match new_name with
            | Some new_name =>
                " insert row " ++ new_name ++ " (" ++ first_8 row_uuid ++ "):" ++ newline
            | None => " insert row " ++ first_8 row_uuid ++ ":" ++ newline
            end
        | Some old_name =>
            " row " ++ old_name ++ " (" ++ first_8 row_uuid ++ "):" ++ newline
        end)%string in
  match columns with
  | JSON_OBJECT object =>
      let out :=
        (out ++ if (1 <? show_log_verbosity)%Z
                then String.concat "" (print_db_changes_column table_schema <$> object)
                else "")%string in
      let renamed :=
        match old_name, new_name_json with
        | None, _ => true
        | Some old_name, Some new_name_json =>
            negb (bool_decide (old_name = json_to_string new_name_json))
        | Some _, None => false
        end in
      (out,
       if renamed
       then <[row_uuid := default (first_8 row_uuid) new_name]> (delete row_uuid names)
       else names)
  | JSON_NULL =>
      ((out ++ tab ++ tab ++ "delete row" ++ newline)%string, delete row_uuid names)
  | _ => (out, names)
  end.

(** [print_db_changes]: the changes of one transaction record. *)
Definition print_db_changes (show_log_verbosity : Z) (tables : list (string * json))
    (names : gmap string string) (schema : ovsdb_schema) : string * gmap string string :=
  foldl
    (λ '(out, names) n1,
       let '(table, rows) := n1 in
       match rows with
       | JSON_OBJECT rows =>
           if starts_with_underscore table then (out, names)
           else
             let table_schema := shash_find_data (schema_tables schema) table in
             foldl
               (λ '(out, names) n2,
                  let '(text, names) :=
                    print_db_changes_row show_log_verbosity table table_schema names n2 in
                  ((out ++ text)%string, names))
               (out, names) rows
       | _ => (out, names)
       end)
    ("", names) tables.

Definition tool_ok (text : string) : tool_exit :=
  {| tool_stdout := text; tool_fatal := None |}.

(** [check_ovsdb_error] with an error, after [text] was written. *)
Definition ovs_fatal (text : string) (error : ovsdb_error) : tool_exit :=
  {| tool_stdout := text; tool_fatal := Some error |}.

(** What follows the text [text] of one turn of a loop: the text and the
    end of the turns behind it. *)
Definition tool_then (text : string) (rest : tool_exit) : tool_exit :=
  {| tool_stdout := (text ++ tool_stdout rest)%string; tool_fatal := tool_fatal rest |}.

(** What [do_show_log_standalone] prints behind ["record %u:"] for the
    schema record. *)
Definition show_log_schema (schema : ovsdb_schema) : string :=
  (" " ++ dquote ++ schema_name schema ++ dquote ++ " schema, version=" ++ dquote
   ++ schema_version schema ++ dquote ++ ", cksum=" ++ dquote ++ schema_cksum schema
   ++ dquote ++ newline)%string.

(** What [do_show_log_standalone] prints behind ["record %u:"] for a
    record of index [i > 0], and the names of the rows afterwards. *)
Definition show_log_transaction (show_log_verbosity : Z) (names : gmap string string)
    (schema : option ovsdb_schema) (js : json) : string * gmap string string :=
  match js with
  | JSON_OBJECT object =>
      let date :=
        match shash_find_data object "_date" with
        | Some (JSON_INTEGER t) =>
            xastrftime_msec " %Y-%m-%d %H:%M:%S.###" (show_log_date_msec t) true
        | _ => ""
        end in
      let comment :=
        match shash_find_data object "_comment" with
        | Some (JSON_STRING comment) => (" " ++ dquote ++ comment ++ dquote)%string
        | _ => ""
        end in
      if 0 <? show_log_verbosity then
        match schema with
        | Some schema =>
            let '(changes, names) :=
              print_db_changes show_log_verbosity object names schema in
            ((date ++ comment ++ newline ++ changes)%string, names)
        | None =>
            (* not reached: record 0 has set the schema *)
            ((date ++ comment ++ newline)%string, names)
        end
      else ((date ++ comment)%string, names)
  | _ => ("", names)
  end.

(** The loop of [do_show_log_standalone]; [fuel] counts the turns left,
    [i] is the [unsigned int] index of the record. *)
Fixpoint do_show_log_standalone_loop (fuel : nat) (show_log_verbosity : Z) (i : Z)
    (names : gmap string string) (schema : option ovsdb_schema) (log : ovsdb_log)
  : sys tool_exit :=
  match fuel with
  | O => sys_ret (tool_ok "")
  | S fuel =>
      '(r, log) ←ˢ ovsdb_log_read log;
      match r with
      | inl error => sys_ret (ovs_fatal "" error)
      | inr None => sys_ret (tool_ok "")
      | inr (Some js) =>
          let head := ("record " ++ pretty i ++ ":")%string in
          if bool_decide (i = 0) then
            match ovsdb_schema_from_json js with
            | inl error => sys_ret (ovs_fatal head error)
            | inr schema =>
                rest ←ˢ do_show_log_standalone_loop fuel show_log_verbosity
                          (uint (i + 1)) names (Some schema) log;
                sys_ret (tool_then (head ++ show_log_schema schema ++ newline) rest)
            end
          else
            let '(text, names) := show_log_transaction show_log_verbosity names schema js in
            rest ←ˢ do_show_log_standalone_loop fuel show_log_verbosity
                      (uint (i + 1)) names schema log;
            sys_ret (tool_then (head ++ text ++ newline) rest)
      end
  end.

(** [do_show_log_standalone]; the loop takes one turn for every record
    of the file and one for its end. *)
Definition do_show_log_standalone (show_log_verbosity : Z) (log : ovsdb_log)
  : sys tool_exit :=
  fuel ←ˢ (λ w, (S (log_file_length log w), w));
  do_show_log_standalone_loop fuel show_log_verbosity 0 ∅ None log.

(** [do_db_name], [do_db_version], [do_db_cksum]. *)
Definition do_db_field (field : ovsdb_schema → string) (argv : list string)
  : sys tool_exit :=
  let db_file_name := arg_or argv 1 default_db in
  r ←ˢ ovsdb_file_read_schema db_file_name;
  match r with
  | inl error => sys_ret (ovs_fatal "" error)
  | inr schema => sys_ret (tool_ok (field schema ++ newline))
  end.

Definition do_db_name : list string → sys tool_exit := do_db_field schema_name.
Definition do_db_version : list string → sys tool_exit := do_db_field schema_version.
Definition do_db_cksum : list string → sys tool_exit := do_db_field schema_cksum.

Definition do_create (argv : list string) : sys tool_exit :=
  let db_file_name := arg_or argv 1 default_db in
  let schema_file_name := arg_or argv 2 default_schema in
  (* Read schema from file and convert to JSON. *)
  r ←ˢ ovsdb_schema_from_file schema_file_name;
  match r with
  | inl error => sys_ret (ovs_fatal "" error)
  | inr schema =>
      let js := ovsdb_schema_to_json schema in
      (* Create database file. *)
      r ←ˢ ovsdb_log_open db_file_name OVSDB_LOG_CREATE_EXCL (-1);
      match r with
      | inl error => sys_ret (ovs_fatal "" error)
      | inr log =>
          '(error, log) ←ˢ ovsdb_log_write log js;
          match error with
          | Some error => sys_ret (ovs_fatal "" error)
          | None =>
              error ←ˢ ovsdb_log_commit log;
              match error with
              | Some error => sys_ret (ovs_fatal "" error)
              | None => ovsdb_log_close log;;ˢ sys_ret (tool_ok "")
              end
          end
      end
  end.

(** [compact_or_convert]; [dst_name_] and [new_schema] are [None] for
    null pointers. *)
Definition compact_or_convert (src_name_ : string) (dst_name_ : option string)
    (new_schema : option ovsdb_schema) (comment : string) : sys tool_exit :=
  let src_name := follow_symlinks src_name_ in
  r ←ˢ ovsdb_file_open src_name new_schema true
         (if dst_name_ is None then 1 else 0) true;
  match r with
  | inl error => sys_ret (ovs_fatal "" error)
  | inr (db, file) =>
      match dst_name_ with
      | None =>
          match file with
          | Some file =>
              '(error, _) ←ˢ ovsdb_file_compact file;
              match error with
              | Some error => sys_ret (ovs_fatal "" error)
              | None => ovsdb_destroy db;;ˢ sys_ret (tool_ok "")
              end
          | None =>
              (* not reached: the file was asked for *)
              sys_ret (ovs_fatal "" (ovsdb_io_error "no file"))
          end
      | Some dst_name_ =>
          let dst_name := follow_symlinks dst_name_ in
          error ←ˢ ovsdb_file_save_copy dst_name (Some comment) db;
          match error with
          | Some error => sys_ret (ovs_fatal "" error)
          | None => ovsdb_destroy db;;ˢ sys_ret (tool_ok "")
          end
      end
  end.

Definition do_compact (argv : list string) : sys tool_exit :=
  let db := arg_or argv 1 default_db in
  let target := if bool_decide (3 ≤ length argv)%nat then argv !! 2%nat else None in
  compact_or_convert db target None ("compacted by ovsdb-tool " ++ VERSION).

Definition do_convert (argv : list string) : sys tool_exit :=
  let db := arg_or argv 1 default_db in
  let schema := arg_or argv 2 default_schema in
  let target := if bool_decide (4 ≤ length argv)%nat then argv !! 3%nat else None in
  r ←ˢ ovsdb_schema_from_file schema;
  match r with
  | inl error => sys_ret (ovs_fatal "" error)
  | inr new_schema =>
      compact_or_convert db target (Some new_schema)
        ("converted by ovsdb-tool " ++ VERSION)
  end.
End Tool.

(** ** Notions for the properties of the decoder, the writer and the tool *)

(** Whether a member of a transaction record names a table of the
    database. *)
Definition names_table `{ovsdb_data_layer} (db : ovsdb) (node : string * json) : bool :=
  bool_decide (is_Some (shash_find_data (db_tables db) node.1)).

(** Whether a member of a row object names a column of the table. *)
Definition names_column `{ovsdb_data_layer} (schema : ovsdb_table_schema)
    (node : string * json) : bool :=
  bool_decide (is_Some (ovsdb_table_schema_get_column schema node.1)).

(** Whether [ovsdb_file_txn_add_row] stores the column of a row: not the
    UUID column, persistent, and changed (for a modified row) or not at
    its default (for a new one). *)
Definition column_stored `{ovsdb_data_layer} (old : option ovsdb_row) (new : ovsdb_row)
    (changed : nat → bool) (column : ovsdb_column) : bool :=
  negb (bool_decide (column_index column = OVSDB_COL_UUID))
  && column_persistent column
  && match old with
     | Some _ => changed (column_index column)
     | None =>
         negb (ovsdb_datum_is_default
                 (row_field new (column_index column) (column_type column))
                 (column_type column))
     end.

(** One turn of the loop of [ovsdb_file_txn_add_row] over the columns. *)
Definition add_row_step `{ovsdb_data_layer} (old : option ovsdb_row) (new : ovsdb_row)
    (changed : nat → bool) (row : option json) (node : string * ovsdb_column)
  : option json :=
  let '(_, column) := node in
  let type := column_type column in
  let idx := column_index column in
  if negb (bool_decide (idx = OVSDB_COL_UUID))
     && column_persistent column
     && (match old with
         | Some _ => changed idx
         | None => negb (ovsdb_datum_is_default (row_field new idx type) type)
         end)
  then Some (json_object_put (default json_object_create row)
               (column_name column)
               (ovsdb_datum_to_json (row_field new idx type) type))
  else row.

(** The members that the loop of [ovsdb_file_txn_add_row] over the
    columns puts into the row object. *)
Definition stored_members `{ovsdb_data_layer} (old : option ovsdb_row) (new : ovsdb_row)
    (changed : nat → bool) (members : list (string * json))
    (columns : list (string * ovsdb_column))
  : list (string * json) :=
  foldl (λ members '(_, column),
           shash_replace members (column_name column)
             (ovsdb_datum_to_json
                (row_field new (column_index column) (column_type column))
                (column_type column)))
        members
        (List.filter (λ node, column_stored old new changed node.2) columns).

(** A change of a row that touches no stored column: a modification in
    which no column that is persistent, and is not the UUID column, is
    marked as changed. *)
Definition ephemeral_change `{ovsdb_data_layer}
    (change : option ovsdb_row * option ovsdb_row * (nat → bool)) : Prop :=
  ∃ old new,
    change.1.1 = Some old ∧ change.1.2 = Some new
    ∧ ∀ key column,
        (key, column) ∈ table_schema_columns (row_table new) →
        column_persistent column = true →
        column_index column ≠ OVSDB_COL_UUID →
        change.2 (column_index column) = false.

(** The record that [ovsdb_file_txn_commit] makes of the members of a
    transaction, the comment and the time. *)
Definition txn_commit_members (members : list (string * json)) (comment : option string)
    (now : Z) : list (string * json) :=
  shash_replace
    (match comment with
     | Some comment => shash_replace members "_comment" (JSON_STRING comment)
     | None => members
     end)
    "_date" (JSON_INTEGER now).

(** What [ovsdb_file_open] does once the replay loop has ended with
    [error] in the state [st]. *)
Definition ovsdb_file_open_finish `{ovsdb_externals} (filep : bool)
    (error : option ovsdb_error) (st : replay_state)
  : sys (ovsdb_error + (ovsdb * option ovsdb_file)) :=
  match error with
  | Some error => VLOG_ERR (ovsdb_error_to_string error)
  | None => sys_ret tt
  end;;ˢ
  if filep then
    '(error, file) ←ˢ
      ovsdb_file_create (replay_db st) (replay_log st)
        (replay_n_transactions st) (replay_snapshot_size st);
    match error with
    | Some error => ovsdb_log_close (replay_log st);;ˢ sys_ret (inl error)
    | None => sys_ret (inr (replay_db st, Some file))
    end
  else
    ovsdb_log_close (replay_log st);;ˢ sys_ret (inr (replay_db st, None)).

(** The size of the snapshot once the records [good] are replayed: the
    offset behind the first of them. *)
Definition snapshot_size_after (size0 : Z) (good : list (json * Z)) : Z :=
  match good with
  | [] => 0
  | (_, size1) :: _ => size0 + size1
  end.



(** The row that [ovsdb_file_txn_row_from_json] starts from for a UUID
    that the table does not hold. *)
Definition fresh_row `{ovsdb_data_layer} (table : ovsdb_table) (row_uuid : uuid) : ovsdb_row :=
  {| row_table := row_table (ovsdb_row_create table); row_uuid := row_uuid;
     row_fields := row_fields (ovsdb_row_create table) |}.















(** The lines of [show-log] for the transaction records [records], the
    first of which has the index [i]. *)
Fixpoint show_log_lines `{ovsdb_externals} (i : Z) (records : list (json * Z)) : string :=
  match records with
  | [] => ""
  | (js, _) :: records =>
      ("record " ++ pretty i ++ ":" ++ show_log_record js
       ++ show_log_lines (i + 1) records)%string
  end.

(** Whether [print_db_changes] shows a member of a transaction record as
    a table: its name does not begin with an underscore and its value is
    an object. *)
Definition shown_table (n1 : string * json) : bool :=
  negb (starts_with_underscore n1.1)
  && match n1.2 with JSON_OBJECT _ => true | _ => false end.

(** The rows of the tables that [print_db_changes] shows, in the order
    in which it goes through them. *)
Definition shown_rows (tables : list (string * json)) : list (string * json) :=
  mjoin ((λ n1, match n1.2 with JSON_OBJECT rows => rows | _ => [] end)
           <$> List.filter shown_table tables).

(** The name that [print_db_changes] keeps for a row once it has shown a
    change of it: none for a deleted row; for a row with columns the
    value of the column [name] if that is among them, else the name kept
    before, else the first eight characters of the UUID. *)
Definition name_after `{ovsdb_tool_externals} (old_name : option string) (row_uuid : string)
    (columns : json) : option string :=
  match columns with
  | JSON_NULL => None
  | JSON_OBJECT object =>
      Some match shash_find_data object "name" with
           | Some new_name_json => json_to_string new_name_json
           | None => default (first_8 row_uuid) old_name
           end
  | _ => old_name
  end.

(** One turn of the loop of [print_db_changes] over the members of the
    record. *)
Definition print_db_changes_table `{ovsdb_tool_externals} (show_log_verbosity : Z)
    (schema : ovsdb_schema) (acc : string * gmap string string) (n1 : string * json)
  : string * gmap string string :=
  let '(out, names) := acc in
  let '(table, rows) := n1 in
  match rows with
  | JSON_OBJECT rows =>
      if starts_with_underscore table then (out, names)
      else
        let table_schema := shash_find_data (schema_tables schema) table in
        foldl
          (λ '(out, names) n2,
             let '(text, names) :=
               print_db_changes_row show_log_verbosity table table_schema names n2 in
             ((out ++ text)%string, names))
          (out, names) rows
  | _ => (out, names)
  end.

(** What showing a change of a row does to the names. *)
Definition names_step `{ovsdb_tool_externals} (names : gmap string string)
    (n2 : string * json) : gmap string string :=
  match name_after (names !! n2.1) n2.1 n2.2 with
  | Some name => <[n2.1 := name]> names
  | None => delete n2.1 names
  end.

(** ** A small installation of the tool

    The printers, the schema file and the paths that the concrete runs of
    the tool use, over the data layer of [Mini]. *)
Module MiniTool.
Import Mini.

Definition mini_json_to_string (js : json) : string :=
  match js with
  | JSON_STRING s => dquote ++ s ++ dquote
  | JSON_INTEGER i => pretty i
  | _ => "?"
  end.

(** One schema file, [mini.ovsschema], holds the schema of the
    scenarios. *)
Definition mini_schema_from_file (file_name : string)
  : sys (ovsdb_error + ovsdb_schema) :=
  λ w, (if bool_decide (file_name = "mini.ovsschema") then inr schema
        else inl (ovsdb_io_error (file_name ++ ": open failed")), w).

#[export] Instance mini_tool : ovsdb_tool_externals := {|
  json_to_string := mini_json_to_string;
  ovsdb_datum_to_string := λ datum _, mini_json_to_string datum;
  ovsdb_schema_from_file := mini_schema_from_file;
  follow_symlinks := λ name, name;
  ovsdb_destroy := λ _, sys_ret tt;
  ovs_dbdir := "/etc/openvswitch";
  ovs_pkgdatadir := "/usr/share/openvswitch";
  VERSION := "2.9.0";
|}.
(** *** More concrete runs

    The table [T] of the scenarios with its columns written out, and a
    database that holds one row of it. *)
Definition schema_T : ovsdb_table_schema :=
  {| table_schema_name := "T";
     table_schema_columns :=
       [mini_column "_uuid" 0 true mini_uuid; mini_column "_version" 1 false mini_uuid;
        mini_column "k" 2 true mini_string; mini_column "v" 3 true mini_integer] |}.

Definition row_one : ovsdb_row :=
  {| row_table := schema_T; row_uuid := 1%N;
     row_fields := <[2%nat := JSON_STRING "a"]> (<[3%nat := JSON_INTEGER 1]> ∅) |}.

Definition table_one : ovsdb_table :=
  {| table_schema := schema_T; table_rows := {[ 1%N := row_one ]} |}.


(** The row object of [u1] in [insert_u1]. *)
Definition columns_u1 : list (string * json) :=
  [("k", JSON_STRING "a"); ("v", JSON_INTEGER 1)].

(** A row object that names the UUID column. *)
Definition columns_uuid : list (string * json) :=
  [("_uuid", JSON_STRING u2); ("k", JSON_STRING "a")].

(** A file whose record 0 is no schema. *)
Definition no_schema_world : world :=
  clock_world 5000 {[ "db" := [log_record (JSON_STRING "x") 57] ]} no_fault.

(** A log at the start of the file [db]. *)
Definition log_at_start : ovsdb_log :=
  {| log_name := "db"; log_pos := 0; log_offset := 0; log_prev_offset := 0 |}.

(** The members of [modify_u1] that name tables. *)
Definition members_modify : list (string * json) :=
  [("T", JSON_OBJECT [(u1, JSON_OBJECT [("v", JSON_INTEGER 2)])])].

(** The members of a record that gives [u1] a name and deletes [u2]. *)
Definition members_named : list (string * json) :=
  [("T", JSON_OBJECT [(u1, JSON_OBJECT [("name", JSON_STRING "a")]); (u2, JSON_NULL)]);
   ("_date", JSON_INTEGER 1700000000000)].

(** The command line of [create]. *)
Definition argv_create : list string := ["create"; "new.db"; "mini.ovsschema"].
End MiniTool.

(** * Properties *)

(** Runs the calls on the world symbolically. *)
Ltac sys_unfold :=
  cbv beta iota zeta delta
    [ovsdb_file_compact ovsdb_file_save_copy__ ovsdb_file_txn_commit ovsdb_file_create
     ovsdb_file_save_copy ovsdb_file_open_log
     ovsdb_log_replace_start ovsdb_log_replace_commit ovsdb_log_write ovsdb_log_commit
     ovsdb_log_read ovsdb_log_unread ovsdb_log_open ovsdb_log_close ovsdb_log_get_offset
     ovsdb_log_get_name unlink
     sys_bind sys_ret emit io_attempt time_wall_msec time_msec world_emit world_set_fs
     VLOG_WARN VLOG_ERR].

Ltac world_simpl :=
  cbn [fs wall_clock wall_reads mono_clock mono_reads io_fault io_ops trace
       log_name log_pos log_offset log_prev_offset fst snd] in *.

Ltac file_simpl :=
  cbn [file_db file_log last_compact next_compact n_transactions snapshot_size
       file_with_db] in *.

Ltac gate_facts :=
  repeat match goal with
         | H : _ && _ = true |- _ => apply andb_prop in H as [? ?]
         end;
  repeat match goal with
         | H : (_ >=? _) = true |- _ => apply Z.geb_le in H
         | H : (_ >=? _) = false |- _ => rewrite Z.geb_leb in H; apply Z.leb_gt in H
         end.

Ltac sys_cases :=
  repeat (match goal with
          | |- context [if ?b then _ else _] => destruct b eqn:?
          end; world_simpl).

Section Properties.
Context `{ovsdb_externals}.

(** *** Effects of the calls on the trace and the clocks *)

Lemma txn_commit_compactions js comment durable log r w w' :
  ovsdb_file_txn_commit js comment durable log w = (r, w') →
  compactions_started w' = compactions_started w ∧ mono_reads w' = mono_reads w
  ∧ mono_clock w' = mono_clock w.
Proof.
  sys_unfold. world_simpl. sys_cases; intros [= <- <-]; done.
Qed.

Lemma compact_compactions file r w w' :
  ovsdb_file_compact file w = (r, w') →
  compactions_started w' = S (compactions_started w) ∧ mono_reads w' = mono_reads w
  ∧ mono_clock w' = mono_clock w.
Proof.
  sys_unfold. world_simpl. sys_cases; intros [= <- <-]; done.
Qed.

(** A failed compaction leaves the [ovsdb_file] as it was. *)
Lemma compact_failure_keeps_file file error file' w w' :
  ovsdb_file_compact file w = ((Some error, file'), w') → file' = file.
Proof.
  sys_unfold. world_simpl. sys_cases; intros [= <- <- <-]; done.
Qed.

Lemma quot4_ge (log_size size : Z) :
  0 <= log_size → (log_size ÷ 4 >=? size) = true ↔ 4 * size <= log_size.
Proof.
  intros Hpos. rewrite Z.geb_le, Z.quot_div_nonneg by lia.
  split; intros Hle.
  - pose proof (Z.mul_div_le log_size 4). lia.
  - apply Z.div_le_lower_bound; lia.
Qed.

(** C2. During [ovsdb_file_commit], once the record has been appended,
    a compaction is attempted if and only if all four conditions of the
    gate hold: the time [now] read from [time_msec()] is at least
    [next_compact], the count of transactions (the one just appended
    included) is at least 100, the log is at least 10 MiB, and the log is
    at least 4 times the size of the snapshot. *)
Theorem commit_compacts_iff_gate file txn durable js log' w w1 r w' :
  ftxn_json (commit_ftxn txn) = Some js →
  ovsdb_file_txn_commit (Some js) (ovsdb_txn_get_comment txn) durable (file_log file) w
    = ((None, log'), w1) →
  ovsdb_file_commit file txn durable w = (r, w') →
  let now := llong (mono_clock w1 (mono_reads w1)) in
  let log_size := ovsdb_log_get_offset log' in
  compactions_started w' = S (compactions_started w)
  ↔ next_compact file <= now
    ∧ 100 <= uint (n_transactions file + 1)
    ∧ 10 * 1024 * 1024 <= log_size
    ∧ 4 * snapshot_size file <= log_size.
Proof.
  intros Hjs Happend Hcommit now log_size.
  destruct (txn_commit_compactions _ _ _ _ _ _ _ Happend) as (Hn1 & _ & _).
  unfold ovsdb_file_commit in Hcommit. rewrite Hjs in Hcommit.
  unfold sys_bind at 1 in Hcommit. rewrite Happend in Hcommit.
  cbn [file_db file_log last_compact next_compact n_transactions snapshot_size]
    in Hcommit.
  unfold sys_bind at 1, time_msec at 1 in Hcommit.
  fold now in Hcommit. fold log_size in Hcommit.
  destruct ((now >=? next_compact file) && (uint (n_transactions file + 1) >=? 100)
            && (log_size >=? 10 * 1024 * 1024)
            && (log_size ÷ 4 >=? snapshot_size file)) eqn:Hgate.
  - apply andb_prop in Hgate as [Hgate Hquot].
    apply andb_prop in Hgate as [Hgate Hsize].
    apply andb_prop in Hgate as [Hnow Hcount].
    apply Z.geb_le in Hnow, Hcount, Hsize.
    apply quot4_ge in Hquot; [|lia].
    split; [intros _; lia|intros _].
    unfold sys_bind at 1 in Hcommit.
    match type of Hcommit with
    | context [ovsdb_file_compact ?f ?w0] =>
        destruct (ovsdb_file_compact f w0) as [[error file'] w2] eqn:Hcompact
    end.
    apply compact_compactions in Hcompact as (Hn2 & _ & _).
    unfold compactions_started in Hn2 at 2; cbn [trace] in Hn2.
    fold (compactions_started w1) in Hn2.
    destruct error; revert Hcommit; sys_unfold; world_simpl; intros [= <- <-];
      unfold compactions_started in *; world_simpl; cbn [List.filter]; lia.
  - revert Hcommit. unfold sys_ret. intros [= <- <-].
    unfold compactions_started at 1; cbn [trace]. fold (compactions_started w1).
    split; [lia|intros (Hnow & Hcount & Hsize & Hquot)].
    apply quot4_ge in Hquot; [|lia].
    apply Z.geb_le in Hnow, Hcount, Hsize.
    rewrite Hnow, Hcount, Hsize, Hquot in Hgate. discriminate.
Qed.

Lemma tmp_name_ne (name : string) : (name ++ ".tmp")%string ≠ name.
Proof. induction name as [|a name IH]; [done|]. intros [= Heq]. by apply IH. Qed.

(** Whatever [ovsdb_file_compact] does, the log file it compacts keeps
    its records unless the compaction succeeds. *)
Lemma compact_failure_keeps_log file error file' w w' :
  ovsdb_file_compact file w = ((Some error, file'), w') →
  fs w' !! log_name (file_log file) = fs w !! log_name (file_log file).
Proof.
  pose proof (tmp_name_ne (log_name (file_log file))) as Hne.
  sys_unfold. world_simpl. sys_cases; intros [= <- <- <-]; world_simpl;
    by rewrite ?lookup_insert_ne.
Qed.

(** The first of its file operations to fail ends [ovsdb_file_compact],
    which returns the error of that operation. *)
Lemma compact_step_fails file w i :
  (i < 5)%nat →
  io_fault w (io_ops w + i) = true →
  (∀ j, (j < i)%nat → io_fault w (io_ops w + j) = false) →
  ∃ w', ovsdb_file_compact file w = ((Some (compact_step_error i), file), w').
Proof.
  intros Hi Hfail Hbefore.
  assert (∀ j, (j < i)%nat → io_fault w (j + io_ops w) = false) as Hok.
  { intros j Hj. rewrite Nat.add_comm. by apply Hbefore. }
  rewrite Nat.add_comm in Hfail. clear Hbefore.
  assert (i = 0 ∨ i = 1 ∨ i = 2 ∨ i = 3 ∨ i = 4)%nat as Hcase by lia.
  destruct Hcase as [->|[->|[->|[->| ->]]]].
  all: try pose proof (Hok 0%nat ltac:(lia)) as Hok0.
  all: try pose proof (Hok 1%nat ltac:(lia)) as Hok1.
  all: try pose proof (Hok 2%nat ltac:(lia)) as Hok2.
  all: try pose proof (Hok 3%nat ltac:(lia)) as Hok3.
  all: clear Hok Hi; cbn [Nat.add] in *.
  all: sys_unfold.
  all: repeat (world_simpl;
               match goal with
               | Hj : io_fault _ _ = _ |- _ => rewrite Hj; clear Hj
               end; cbv beta iota).
  all: eexists; reflexivity.
Qed.

(** C4 (amended).  If a step of [ovsdb_file_compact] fails
    ([replace_start]; writing the snapshot copy, which is the write of
    the schema, the write of the data and the [fsync] of the copy;
    [replace_commit]), then [ovsdb_file_compact] ends there and returns
    the error of that step to its caller.  Whenever it returns an error,
    the log file keeps its records and the [ovsdb_file] is as it was:
    [last_compact], [next_compact] and [n_transactions] are unchanged.
    It is [ovsdb_file_commit] that, when the compaction started by its
    gate fails, logs the warning that the compaction failed and is
    retried in 60 seconds, and then sets [next_compact] to the time
    read from [time_msec()] plus [COMPACT_RETRY_MSEC]; it returns
    success, with [last_compact] as it was and [n_transactions] counting
    the record just appended. *)
Theorem compact_failure :
  (∀ file w i,
     (i < 5)%nat →
     io_fault w (io_ops w + i) = true →
     (∀ j, (j < i)%nat → io_fault w (io_ops w + j) = false) →
     ∃ w', ovsdb_file_compact file w = ((Some (compact_step_error i), file), w')
           ∧ fs w' !! log_name (file_log file) = fs w !! log_name (file_log file))
  ∧ (∀ file error file' w w',
     ovsdb_file_compact file w = ((Some error, file'), w') →
     file' = file
     ∧ fs w' !! log_name (file_log file) = fs w !! log_name (file_log file))
  ∧ (∀ file txn durable js log' error file2 w w1 w2,
       ftxn_json (commit_ftxn txn) = Some js →
       ovsdb_file_txn_commit (Some js) (ovsdb_txn_get_comment txn) durable
         (file_log file) w = ((None, log'), w1) →
       let appended :=
         {| file_db := file_db file; file_log := log';
            last_compact := last_compact file; next_compact := next_compact file;
            n_transactions := uint (n_transactions file + 1);
            snapshot_size := snapshot_size file |} in
       let now := llong (mono_clock w1 (mono_reads w1)) in
       let log_size := ovsdb_log_get_offset log' in
       next_compact file <= now →
       100 <= uint (n_transactions file + 1) →
       10 * 1024 * 1024 <= log_size →
       4 * snapshot_size file <= log_size →
       ovsdb_file_compact appended (time_msec w1).2 = ((Some error, file2), w2) →
       let retry := llong (mono_clock w2 (mono_reads w2)) in
       retry + COMPACT_RETRY_MSEC <= LLONG_MAX →
       ∃ file' w',
         ovsdb_file_commit file txn durable w = ((None, file'), w')
         ∧ next_compact file' = retry + COMPACT_RETRY_MSEC
         ∧ last_compact file' = last_compact file
         ∧ n_transactions file' = uint (n_transactions file + 1)
         ∧ fs w' !! log_name log' = fs w1 !! log_name log'
         ∧ trace w' = compact_warning (log_name log') error :: trace w2).
Proof.
  split_and!.
  - intros file w i Hi Hfail Hbefore.
    destruct (compact_step_fails file w i Hi Hfail Hbefore) as [w' Hcompact].
    exists w'. split; [done|]. by eapply compact_failure_keeps_log.
  - intros file error file' w w' Hcompact. split.
    + by eapply compact_failure_keeps_file.
    + by eapply compact_failure_keeps_log.
  - intros file txn durable js log' error file2 w w1 w2 Hjs Happend appended now
      log_size Hnow Hcount Hsize Hquot Hcompact retry Hretry.
    assert (file2 = appended) as -> by by eapply compact_failure_keeps_file.
    pose proof (compact_failure_keeps_log _ _ _ _ _ Hcompact) as Hlog.
    unfold ovsdb_file_commit. rewrite Hjs.
    unfold sys_bind at 1. rewrite Happend. file_simpl.
    unfold sys_bind at 1.
    destruct (time_msec w1) as [now' w1'] eqn:Hread.
    assert (now' = now) as -> by (revert Hread; unfold time_msec; by intros [= <- <-]).
    fold log_size.
    apply Z.geb_le in Hnow, Hcount, Hsize. apply quot4_ge in Hquot; [|lia].
    rewrite Hnow, Hcount, Hsize, Hquot. cbn [andb].
    fold appended. cbn [snd] in Hcompact.
    unfold sys_bind at 1. rewrite Hcompact.
    sys_unfold. world_simpl. eexists _, _. split; [reflexivity|].
    file_simpl. fold retry. split_and!; try done.
    * apply llong_id. pose proof (llong_range (mono_clock w2 (mono_reads w2))).
      unfold retry, LLONG_MIN, COMPACT_RETRY_MSEC in *. lia.
    * subst appended. file_simpl. world_simpl. rewrite Hlog.
      revert Hread. unfold time_msec. by intros [= <-].
Qed.

(** *** The two times of compaction *)

Lemma clock_facts w i :
  clocks_in_range w →
  llong (wall_clock w i) = wall_clock w i ∧ llong (mono_clock w i) = mono_clock w i
  ∧ llong (wall_clock w i + COMPACT_MIN_MSEC) = wall_clock w i + COMPACT_MIN_MSEC
  ∧ llong (mono_clock w i + COMPACT_RETRY_MSEC) = mono_clock w i + COMPACT_RETRY_MSEC.
Proof.
  intros Hrange. destruct (Hrange i) as [[? ?] [? ?]].
  unfold COMPACT_MIN_MSEC, COMPACT_RETRY_MSEC, LLONG_MIN, LLONG_MAX in *.
  split_and!; apply llong_id; unfold LLONG_MIN, LLONG_MAX; lia.
Qed.

Ltac clock_rewrite Hrange :=
  repeat match goal with
         | |- context [llong (wall_clock ?w ?i)] =>
             rewrite (proj1 (clock_facts w i Hrange))
         | |- context [llong (mono_clock ?w ?i)] =>
             rewrite (proj1 (proj2 (clock_facts w i Hrange)))
         | |- context [llong (wall_clock ?w ?i + COMPACT_MIN_MSEC)] =>
             rewrite (proj1 (proj2 (proj2 (clock_facts w i Hrange))))
         | |- context [llong (mono_clock ?w ?i + COMPACT_RETRY_MSEC)] =>
             rewrite (proj2 (proj2 (proj2 (clock_facts w i Hrange))))
         end.

Lemma run_call_times_ordered call file file' w w' :
  clocks_in_range w → mono_clock_monotone w →
  last_compact file <= next_compact file →
  run_call call file w = (file', w') →
  last_compact file' <= next_compact file'
  ∧ wall_clock w' = wall_clock w ∧ mono_clock w' = mono_clock w.
Proof.
  intros Hrange Hmono Hinv.
  pose proof (Hmono (mono_reads w) (S (mono_reads w)) ltac:(lia)) as Hstep.
  destruct call as [db txn durable|db]; unfold run_call, ovsdb_file_commit.
  - destruct (ftxn_json (commit_ftxn txn)) as [js|];
      sys_unfold; world_simpl; sys_cases; intros [= <- <-];
      file_simpl; world_simpl; gate_facts; (split; [|done]);
      clock_rewrite Hrange; unfold COMPACT_MIN_MSEC, COMPACT_RETRY_MSEC in *;
      try lia.
    all: revert select (_ <= llong _); clock_rewrite Hrange; lia.
  - sys_unfold; world_simpl; sys_cases; intros [= <- <-];
      file_simpl; world_simpl; (split; [|done]);
      clock_rewrite Hrange; unfold COMPACT_MIN_MSEC in *; lia.
Qed.

(** C5. At every point while a database file is open (after the creation
    of the file handle and after any sequence of commits and compactions,
    whether the compactions succeed or fail) [next_compact] is at least
    [last_compact].  The monotonic clock does not go back, and the sums
    made with the readings of the clocks fit a [long long int]. *)
Theorem next_compact_not_before_last db log n size calls file file' w w1 w' :
  clocks_in_range w → mono_clock_monotone w →
  ovsdb_file_create db log n size w = ((None, file), w1) →
  run_calls calls file w1 = (file', w') →
  last_compact file' <= next_compact file'.
Proof.
  intros Hrange Hmono Hcreate Hcalls.
  assert (last_compact file <= next_compact file
          ∧ wall_clock w1 = wall_clock w ∧ mono_clock w1 = mono_clock w)
    as (Hinv & Hwall & Hclock).
  { revert Hcreate. sys_unfold. intros [= <- <-]. file_simpl. world_simpl.
    split; [|done]. clock_rewrite Hrange. unfold COMPACT_MIN_MSEC. lia. }
  assert (clocks_in_range w1) as Hrange1.
  { intros i. specialize (Hrange i). by rewrite Hwall, Hclock. }
  assert (mono_clock_monotone w1) as Hmono1.
  { intros i j Hle. rewrite Hclock. by apply Hmono. }
  clear Hcreate Hrange Hmono Hwall Hclock.
  revert file w1 Hinv Hrange1 Hmono1 Hcalls.
  induction calls as [|call calls IH]; intros file w1 Hinv Hrange Hmono.
  - cbn. unfold sys_ret. by intros [= <- <-].
  - cbn [run_calls]. unfold sys_bind at 1.
    destruct (run_call call file w1) as [file1 w2] eqn:Hcall.
    apply run_call_times_ordered in Hcall as (Hinv1 & Hwall & Hclock); [|done..].
    apply IH; [done| |].
    + intros i. specialize (Hrange i). by rewrite Hwall, Hclock.
    + intros i j Hle. rewrite Hclock. by apply Hmono.
Qed.




(** *** The date of a record in [show-log] *)

Lemma string_app_assoc (s1 s2 s3 : string) :
  ((s1 ++ s2) ++ s3 = s1 ++ (s2 ++ s3))%string.
Proof.
  induction s1 as [|a s1 IH]; [done|].
  change (String a ((s1 ++ s2) ++ s3) = String a (s1 ++ (s2 ++ s3)))%string.
  by f_equal.
Qed.

Lemma show_log_record_date object t :
  shash_find_data object "_date" = Some (JSON_INTEGER t) →
  ∃ rest,
    show_log_record (JSON_OBJECT object)
    = (xastrftime_msec " %Y-%m-%d %H:%M:%S.###" (show_log_date_msec t) true ++ rest)%string.
Proof.
  intros Hdate. unfold show_log_record. rewrite Hdate. cbv iota beta.
  eexists. by rewrite string_app_assoc.
Qed.

(** C8 (amended).  When [show-log] prints the [_date] of a record of the
    standalone format, a value less than [INT32_MAX] (2147483647) is
    taken as seconds and multiplied by 1000 before it is rendered; this
    holds for every smaller value, also the negative ones that do not fit
    in 32 bits.  The product is that of a [long long int]: it is the
    product of the integers unless that is below [LLONG_MIN], and its
    value modulo 2^64 then.  [INT32_MAX] itself and the values above it
    are rendered as milliseconds unchanged. *)
Theorem show_log_date_scaling object t :
  shash_find_data object "_date" = Some (JSON_INTEGER t) →
  show_log_date_msec t = (if decide (t < INT32_MAX) then llong (t * 1000) else t)
  ∧ (t < INT32_MAX → LLONG_MIN <= t * 1000 → show_log_date_msec t = t * 1000)
  ∧ (t < INT32_MAX → t * 1000 < LLONG_MIN →
     LLONG_MIN <= show_log_date_msec t <= LLONG_MAX
     ∧ ∃ k, 0 < k ∧ show_log_date_msec t = t * 1000 + k * 2 ^ 64)
  ∧ ∃ rest,
      show_log_record (JSON_OBJECT object)
      = (xastrftime_msec " %Y-%m-%d %H:%M:%S.###"
           (if decide (t < INT32_MAX) then llong (t * 1000) else t) true
           ++ rest)%string.
Proof.
  intros Hdate. destruct (show_log_record_date object t Hdate) as [rest ->].
  assert (show_log_date_msec t
          = (if decide (t < INT32_MAX) then llong (t * 1000) else t)) as Hmsec.
  { unfold show_log_date_msec. case_decide as Hlt.
    - apply Z.ltb_lt in Hlt as Hltb. by rewrite Hltb.
    - assert ((t <? INT32_MAX) = false) as -> by (apply Z.ltb_ge; lia). done. }
  rewrite Hmsec. split_and!; [done| | |by eauto].
  - intros Hlt Hmin. rewrite decide_True by done. apply llong_id.
    unfold INT32_MAX, LLONG_MAX in *. lia.
  - intros Hlt Hmin. rewrite decide_True by done. split; [apply llong_range|].
    exists (- ((t * 1000 + 2 ^ 63) `div` 2 ^ 64)).
    pose proof (Z.div_lt_upper_bound (t * 1000 + 2 ^ 63) (2 ^ 64) 0 ltac:(lia)) as Hdiv.
    unfold LLONG_MIN in Hmin. split; [lia|].
    unfold llong. rewrite Z.mod_eq by lia. lia.
Qed.

(** *** Snapshots *)

Lemma save_copy_rows_empty db : db_empty db → save_copy_rows db = ovsdb_file_txn_init.
Proof.
  unfold db_empty, save_copy_rows. generalize ovsdb_file_txn_init as ftxn.
  induction (db_tables db) as [|[name table] tables IH]; intros ftxn Hempty; [done|].
  cbn [foldl]. rewrite (Hempty name table) by left. rewrite map_to_list_empty.
  cbn [foldl]. apply IH. intros name' table' Hin. apply (Hempty name'). by right.
Qed.

Lemma save_copy_two_records log comment db log' w w' :
  log_pos log = 0%nat →
  ovsdb_file_save_copy__ log comment db w = ((None, log'), w') →
  let schema_json := ovsdb_schema_to_json (db_schema db) in
  let js :=
    json_object_put
      (match comment with
       | Some comment =>
           json_object_put_string
             (default json_object_create (ftxn_json (save_copy_rows db)))
             "_comment" comment
       | None => default json_object_create (ftxn_json (save_copy_rows db))
       end)
      "_date" (JSON_INTEGER (llong (wall_clock w (wall_reads w)))) in
  fs w' !! log_name log
  = Some [log_record schema_json (ovsdb_log_record_size schema_json);
          log_record js (ovsdb_log_record_size js)]
  ∧ log_name log' = log_name log.
Proof.
  intros Hpos. sys_unfold. world_simpl. rewrite Hpos.
  sys_cases; intros [= <- <-]; world_simpl;
    rewrite ?lookup_insert_eq; cbn [default take app]; rewrite ?lookup_insert_eq;
    by destruct comment.
Qed.

(** C10. The snapshot writer always appends a record after the schema,
    also for a database without rows: [ovsdb_file_txn_commit] then
    writes an object that holds only [_date] and, when supplied,
    [_comment].  So a saved copy and a compacted log hold exactly two
    records, whereas a live commit of an empty change set writes
    nothing. *)
Theorem snapshot_has_two_records :
  (∀ log comment db log' w w',
     log_pos log = 0%nat →
     ovsdb_file_save_copy__ log comment db w = ((None, log'), w') →
     ∃ js size0 size1,
       fs w' !! log_name log
       = Some [log_record (ovsdb_schema_to_json (db_schema db)) size0;
               log_record js size1]
       ∧ (db_empty db →
          js = JSON_OBJECT
                 (match comment with
                  | Some comment => [("_comment", JSON_STRING comment)]
                  | None => []
                  end
                  ++ [("_date", JSON_INTEGER (llong (wall_clock w (wall_reads w))))])))
  ∧ (∀ file_name comment db w w',
       ovsdb_file_save_copy file_name comment db w = (None, w') →
       ∃ record0 record1, fs w' !! file_name = Some [record0; record1])
  ∧ (∀ file file' w w',
       ovsdb_file_compact file w = ((None, file'), w') →
       ∃ record0 record1,
         fs w' !! log_name (file_log file') = Some [record0; record1])
  ∧ (∀ file txn durable w,
       ovsdb_txn_for_each_change txn = [] →
       ovsdb_file_commit file txn durable w = ((None, file), w)).
Proof.
  split_and!.
  - intros log comment db log' w w' Hpos Hsave.
    destruct (save_copy_two_records _ _ _ _ _ _ Hpos Hsave) as [Hfs _].
    eexists _, _, _. split; [exact Hfs|]. intros Hempty.
    rewrite (save_copy_rows_empty db Hempty). by destruct comment.
  - intros file_name comment db w w'. unfold ovsdb_file_save_copy.
    sys_unfold. world_simpl.
    sys_cases; try (destruct (fs w !! file_name)); intros [= <-]; world_simpl;
      rewrite ?lookup_insert_eq; cbn [default take app]; rewrite ?lookup_insert_eq;
      by eauto.
  - intros file file' w w'. sys_unfold. world_simpl.
    sys_cases; intros [= <- <-]; file_simpl; world_simpl.
    rewrite ?lookup_insert_eq; cbn [default take app]; rewrite ?lookup_insert_eq.
    by eauto.
  - intros file txn durable w Hnone.
    unfold ovsdb_file_commit, commit_ftxn. by rewrite Hnone.
Qed.

(** *** Reading the log *)

Lemma log_read_record log w records payload size :
  fs w !! log_name log = Some records →
  records !! log_pos log = Some (log_record payload size) →
  ovsdb_log_read log w
  = ((inr (Some payload),
      {| log_name := log_name log; log_pos := S (log_pos log);
         log_offset := log_offset log + size; log_prev_offset := log_offset log |}),
     world_emit (ev_log_read (log_name log)) w).
Proof.
  intros Hfile Hrecord. sys_unfold. world_simpl.
  rewrite Hfile. cbn [from_option id]. by rewrite Hrecord.
Qed.

Lemma log_read_corrupt log w records :
  fs w !! log_name log = Some records →
  records !! log_pos log = Some log_corrupt →
  ovsdb_log_read log w
  = ((inl (ovsdb_io_error "read failed"), log),
     world_emit (ev_log_read (log_name log)) w).
Proof.
  intros Hfile Hrecord. sys_unfold. world_simpl.
  rewrite Hfile. cbn [from_option id]. by rewrite Hrecord.
Qed.

Lemma log_read_eof log w records :
  fs w !! log_name log = Some records →
  records !! log_pos log = None →
  ovsdb_log_read log w = ((inr None, log), world_emit (ev_log_read (log_name log)) w).
Proof.
  intros Hfile Hrecord. sys_unfold. world_simpl.
  rewrite Hfile. cbn [from_option id]. by rewrite Hrecord.
Qed.

Lemma world_reads_fs name n w : fs (world_reads name n w) = fs w.
Proof. induction n as [|n IH]; [done|]. by cbn. Qed.

Lemma world_reads_trace name n w :
  trace (world_reads name n w) = replicate n (ev_log_read name) ++ trace w.
Proof. induction n as [|n IH]; [done|]. cbn. by f_equal. Qed.

Lemma world_reads_succ name n w :
  world_reads name n (world_emit (ev_log_read name) w) = world_reads name (S n) w.
Proof. unfold world_reads. by rewrite <- Nat.iter_succ_r. Qed.

(** Opening the log and reading record 0. *)
Lemma open_log_schema file_name open_mode locking (schemap : bool) w js size records
    schema :
  io_fault w (io_ops w) = false →
  open_mode ≠ OVSDB_LOG_CREATE_EXCL →
  fs w !! file_name = Some (log_record js size :: records) →
  (if schemap then ovsdb_schema_from_json js = inr schema else True) →
  ∃ w1,
    ovsdb_file_open_log file_name open_mode locking true schemap w
    = (inr (Some {| log_name := file_name; log_pos := 1%nat; log_offset := 0 + size;
                    log_prev_offset := 0 |},
            if schemap then Some schema else None), w1)
    ∧ fs w1 = fs w
    ∧ trace w1 = ev_log_read file_name :: ev_log_open file_name :: trace w
    ∧ wall_clock w1 = wall_clock w ∧ wall_reads w1 = wall_reads w.
Proof.
  intros Hio Hmode Hfile Hschema. sys_unfold. world_simpl.
  rewrite Hio, Hfile. cbn [from_option id lookup list_lookup].
  destruct open_mode; try done; world_simpl; rewrite Hfile;
    cbn [from_option id lookup list_lookup];
    (destruct schemap; [rewrite Hschema|]); by eexists.
Qed.

(** The loop applies a run of records that decode and commit, and goes
    on behind them. *)
Lemma replay_applies good : ∀ fuel converting st w before tail db',
  fs w !! log_name (replay_log st) = Some (before ++ log_records good ++ tail) →
  length before = log_pos (replay_log st) →
  records_apply converting (replay_db st) good db' →
  ∃ st',
    ovsdb_file_open_replay (length good + fuel) converting st w
    = ovsdb_file_open_replay fuel converting st'
        (world_reads (log_name (replay_log st)) (length good) w)
    ∧ replay_db st' = db'
    ∧ log_name (replay_log st') = log_name (replay_log st)
    ∧ log_pos (replay_log st') = (log_pos (replay_log st) + length good)%nat
    ∧ log_offset (replay_log st')
      = log_offset (replay_log st) + log_records_size good.
Proof.
  induction good as [|[js size] good IH];
    intros fuel converting st w before tail db' Hfile Hpos Happly.
  { cbn in Happly. subst db'. exists st. cbn. split_and!; try done; lia. }
  destruct Happly as (db1 & (txn & Hdecode & Hcommit) & Happly).
  cbn [length Nat.add ovsdb_file_open_replay]. unfold sys_bind at 1.
  erewrite log_read_record; [|done|].
  2: { rewrite lookup_app_r by lia. rewrite Hpos, Nat.sub_diag. done. }
  rewrite Hdecode, Hcommit.
  match goal with
  | |- context [ovsdb_file_open_replay _ _ ?st1 ?w1] =>
      destruct (IH fuel converting st1 w1 (before ++ [log_record js size]) tail db')
        as (st' & Hrun & Hdb & Hname & Hpos' & Hoffset)
  end.
  - cbn [replay_log log_name]. unfold world_emit; cbn [fs].
    by rewrite <- app_assoc.
  - cbn [replay_log log_pos]. rewrite length_app. cbn. lia.
  - done.
  - exists st'. cbn [replay_log replay_db log_name log_pos log_offset] in *.
    rewrite Hrun, world_reads_succ. split_and!; try done; try lia.
    rewrite Hoffset. unfold log_records_size. cbn [foldr]. lia.
Qed.

(** The loop ends at a record that fails to decode or to commit: it
    pushes the record back. *)
Lemma replay_fails fuel converting st w records js size error :
  fs w !! log_name (replay_log st) = Some records →
  records !! log_pos (replay_log st) = Some (log_record js size) →
  record_fails converting (replay_db st) js error →
  ∃ st',
    ovsdb_file_open_replay (S fuel) converting st w
    = ((Some error, st'),
       world_emit (ev_log_unread (log_name (replay_log st)))
         (world_emit (ev_log_read (log_name (replay_log st))) w))
    ∧ replay_db st' = replay_db st
    ∧ log_name (replay_log st') = log_name (replay_log st)
    ∧ log_pos (replay_log st') = log_pos (replay_log st)
    ∧ log_offset (replay_log st') = log_offset (replay_log st).
Proof.
  intros Hfile Hrecord Hfails.
  cbn [ovsdb_file_open_replay]. unfold sys_bind at 1.
  rewrite (log_read_record _ _ _ _ _ Hfile Hrecord).
  destruct Hfails as [Hdecode|(txn & Hdecode & Hcommit)].
  - rewrite Hdecode. sys_unfold. world_simpl. by eexists.
  - rewrite Hdecode, Hcommit. sys_unfold. world_simpl. by eexists.
Qed.

(** *** Decoding transaction records *)

Lemma txn_table_rows_app txn table converting js nodes1 nodes2 :
  txn_table_rows txn table converting js (nodes1 ++ nodes2)
  = match txn_table_rows txn table converting js nodes1 with
    | (txn', Some error) => (txn', Some error)
    | (txn', None) => txn_table_rows txn' table converting js nodes2
    end.
Proof.
  revert txn. induction nodes1 as [|[uuid_string row_json] nodes1 IH]; intros txn;
    [done|].
  cbn [app txn_table_rows]. destruct (uuid_from_string uuid_string); [|done].
  destruct (ovsdb_file_txn_row_from_json _ _ _ _ _) as [txn' [error|]]; [done|].
  apply IH.
Qed.

Lemma txn_tables_app db txn converting js nodes1 nodes2 :
  txn_tables db txn converting js (nodes1 ++ nodes2)
  = match txn_tables db txn converting js nodes1 with
    | (txn', Some error) => (txn', Some error)
    | (txn', None) => txn_tables db txn' converting js nodes2
    end.
Proof.
  revert txn. induction nodes1 as [|[table_name node_json] nodes1 IH]; intros txn;
    [done|].
  cbn [app txn_tables]. destruct (shash_find_data _ _).
  - destruct (ovsdb_file_txn_table_from_json _ _ _ _) as [txn' [error|]]; [done|].
    apply IH.
  - destruct (bool_decide (table_name = "_date") && json_is_integer node_json);
      [apply IH|].
    destruct (bool_decide (table_name = "_comment") || converting); [apply IH|done].
Qed.

(** The transaction and the success of the loop do not depend on the
    JSON kept for the error message. *)
Lemma txn_tables_message db txn converting js js' nodes :
  (txn_tables db txn converting js nodes).1 = (txn_tables db txn converting js' nodes).1
  ∧ ((txn_tables db txn converting js nodes).2 = None
     ↔ (txn_tables db txn converting js' nodes).2 = None).
Proof.
  revert txn. induction nodes as [|[table_name node_json] nodes IH]; intros txn;
    [done|].
  cbn [txn_tables]. destruct (shash_find_data _ _).
  - destruct (ovsdb_file_txn_table_from_json _ _ _ _) as [txn' [error|]]; [done|].
    apply IH.
  - destruct (bool_decide (table_name = "_date") && json_is_integer node_json);
      [apply IH|].
    destruct (bool_decide (table_name = "_comment") || converting); [apply IH|done].
Qed.

Lemma reserved_members_skipped db txn converting js nodes :
  shash_find_data (db_tables db) "_date" = None →
  shash_find_data (db_tables db) "_comment" = None →
  txn_tables db txn converting js nodes
  = txn_tables db txn converting js (List.filter (λ node, negb (reserved_member node)) nodes).
Proof.
  intros Hdate Hcomment. revert txn.
  induction nodes as [|[table_name node_json] nodes IH]; intros txn; [done|].
  cbn [List.filter]. unfold reserved_member at 1. cbn [fst snd].
  destruct (bool_decide (table_name = "_date") && json_is_integer node_json
            || bool_decide (table_name = "_comment")) eqn:Hreserved; cbn [negb].
  - cbn [txn_tables].
    assert (shash_find_data (db_tables db) table_name = None) as ->.
    { apply orb_prop in Hreserved as [[Hname _]%andb_prop|Hname];
        apply bool_decide_eq_true in Hname; by subst. }
    apply orb_prop in Hreserved as [->|Hname]; [apply IH|].
    rewrite Hname. cbn [orb]. destruct (_ && _); apply IH.
  - cbn [txn_tables]. destruct (shash_find_data (db_tables db) table_name).
    + destruct (ovsdb_file_txn_table_from_json _ _ _ _) as [txn' [error|]]; [done|].
      apply IH.
    + destruct (bool_decide (table_name = "_date") && json_is_integer node_json);
        [apply IH|].
      destruct (bool_decide (table_name = "_comment") || converting); [apply IH|done].
Qed.

(** A reserved name is the name of no table. *)
Lemma reserved_name_no_table db name :
  table_names_valid db → starts_with_underscore name = true →
  shash_find_data (db_tables db) name = None.
Proof.
  unfold table_names_valid.
  induction (db_tables db) as [|[k table] tables IH]; intros Hvalid Hname; [done|].
  cbn [shash_find_data]. case_decide as Hk.
  - subst k. rewrite Hvalid in Hname; [done|]. cbn [fmap list_fmap fst]. by left.
  - apply IH; [|done]. intros n Hn. apply Hvalid. cbn [fmap list_fmap fst]. by right.
Qed.

(** C7. When a transaction record is decoded, the keys [_date] (with an
    integer value) and [_comment] (with a value of any type) are ignored
    and are not taken as the names of tables: they name no table of the
    database, whatever its schema, and the record decodes as the record
    without them does.  The schema is any that the database can have: the
    names of its tables do not begin with an underscore. *)
Theorem reserved_members_ignored db converting nodes :
  table_names_valid db →
  let others := List.filter (λ node, negb (reserved_member node)) nodes in
  (shash_find_data (db_tables db) "_date" = None
   ∧ shash_find_data (db_tables db) "_comment" = None)
  ∧ (∀ txn js,
       txn_tables db txn converting js nodes = txn_tables db txn converting js others)
  ∧ (∀ txn,
       ovsdb_file_txn_from_json db (JSON_OBJECT nodes) converting = inr txn
       ↔ ovsdb_file_txn_from_json db (JSON_OBJECT others) converting = inr txn).
Proof.
  intros Hvalid others.
  assert (shash_find_data (db_tables db) "_date" = None) as Hdate
    by by apply reserved_name_no_table.
  assert (shash_find_data (db_tables db) "_comment" = None) as Hcomment
    by by apply reserved_name_no_table.
  split; [done|]. split.
  - intros txn js. by apply reserved_members_skipped.
  - intros txn. unfold ovsdb_file_txn_from_json.
    rewrite (reserved_members_skipped db _ converting (JSON_OBJECT nodes) nodes)
      by done.
    fold others.
    destruct (txn_tables_message db (ovsdb_txn_create db) converting
                (JSON_OBJECT nodes) (JSON_OBJECT others) others) as [Htxn Hok].
    destruct (txn_tables db _ converting (JSON_OBJECT nodes) others) as [txn1 error1],
        (txn_tables db _ converting (JSON_OBJECT others) others) as [txn2 error2].
    cbn [fst snd] in *. subst txn2.
    destruct error1, error2; try done.
    + by destruct Hok as [_ ?%(λ H, H eq_refl)].
    + by destruct Hok as [?%(λ H, H eq_refl) _].
Qed.

(** C6. When a transaction record is decoded, a row value of JSON null
    for a UUID whose row is not in the table at that point is an error.
    The error aborts the whole transaction: no transaction is returned,
    so none is committed.  During replay the error ends the loop: the
    record is pushed back, the database and the count of transactions
    are as they were. *)
Theorem delete_of_missing_row_aborts db converting pre table_name table rows_pre
    uuid_string row_uuid rows_post post :
  let table_json := JSON_OBJECT (rows_pre ++ (uuid_string, JSON_NULL) :: rows_post) in
  let delta := JSON_OBJECT (pre ++ (table_name, table_json) :: post) in
  shash_find_data (db_tables db) table_name = Some table →
  uuid_from_string uuid_string = Some row_uuid →
  (∀ txn1 txn2,
     txn_tables db (ovsdb_txn_create db) converting delta pre = (txn1, None) →
     txn_table_rows txn1 table converting table_json rows_pre = (txn2, None) →
     ovsdb_table_get_row txn2 table row_uuid = None) →
  (∃ error, ovsdb_file_txn_from_json db delta converting = inl error)
  ∧ (∀ fuel st w records size,
       replay_db st = db →
       fs w !! log_name (replay_log st) = Some records →
       records !! log_pos (replay_log st) = Some (log_record delta size) →
       ∃ error st' w',
         ovsdb_file_open_replay (S fuel) converting st w = ((Some error, st'), w')
         ∧ replay_db st' = db
         ∧ replay_n_transactions st' = replay_n_transactions st
         ∧ log_pos (replay_log st') = log_pos (replay_log st)
         ∧ log_offset (replay_log st') = log_offset (replay_log st)
         ∧ trace w' = ev_log_unread (log_name (replay_log st))
                        :: ev_log_read (log_name (replay_log st)) :: trace w).
Proof.
  intros table_json delta Htable Huuid Hmissing.
  assert (∃ error, ovsdb_file_txn_from_json db delta converting = inl error)
    as [error Herror].
  { unfold ovsdb_file_txn_from_json, delta. fold delta.
    rewrite txn_tables_app.
    destruct (txn_tables db _ converting delta pre) as [txn1 [error|]] eqn:Hpre;
      [by eauto|].
    cbn [txn_tables]. rewrite Htable.
    unfold ovsdb_file_txn_table_from_json, table_json. fold table_json.
    rewrite txn_table_rows_app.
    destruct (txn_table_rows txn1 table converting table_json rows_pre)
      as [txn2 [error|]] eqn:Hrows; [by eauto|].
    cbn [txn_table_rows]. rewrite Huuid.
    unfold ovsdb_file_txn_row_from_json.
    rewrite (Hmissing txn1 txn2) by done. by eauto. }
  split; [by eauto|].
  intros fuel st w records size Hdb Hfile Hrecord.
  cbn [ovsdb_file_open_replay]. unfold sys_bind at 1.
  rewrite (log_read_record _ _ _ _ _ Hfile Hrecord), Hdb, Herror.
  sys_unfold. world_simpl. by eexists _, _, _.
Qed.

(** *** Opening a database file *)

Lemma replicate_snoc_app {A} n (x : A) l :
  replicate n x ++ x :: l = x :: replicate n x ++ l.
Proof. induction n as [|n IH]; [done|]. cbn. by f_equal. Qed.

(** C3 (amended).  For every log whose record 0 is a valid schema: if, in
    the replay loop of [ovsdb_file_open], a later record fails, be it that
    [ovsdb_log_read] refuses it (its bytes fail the integrity check or do
    not parse), that decoding it fails, or that committing its
    transaction fails, then the loop ends, the error is logged, and
    [ovsdb_file_open] returns success with the database built from the
    records before the failing one: the error does not reach the caller.
    The loop calls [ovsdb_log_unread], once, where decoding or
    committing failed; where the read failed it does not call it.  In
    all three cases the failing record is left as the next one to read,
    the records behind it are not read, and the file is not changed. *)
Theorem replay_error_swallowed file_name alternate_schema read_only locking
    (filep : bool) w js0 size0 schema good entry error db' rest :
  let converting := bool_decide (alternate_schema ≠ None) in
  io_fault w (io_ops w) = false →
  fs w !! file_name
  = Some (log_record js0 size0 :: log_records good ++ entry :: rest) →
  match alternate_schema with
  | Some alternate => schema = alternate
  | None => ovsdb_schema_from_json js0 = inr schema
  end →
  records_apply converting (ovsdb_create schema) good db' →
  entry_fails converting db' entry error →
  ∃ file_opt w',
    ovsdb_file_open file_name alternate_schema read_only locking filep w
    = (inr (db', file_opt), w')
    ∧ trace w'
      = (if filep then [] else [ev_log_close file_name])
          ++ ev_vlog VLL_ERR (ovsdb_error_to_string error)
          :: replay_unreads file_name entry
          ++ replicate (S (S (length good))) (ev_log_read file_name)
          ++ ev_log_open file_name :: trace w
    ∧ fs w' = fs w
    ∧ if filep then
        ∃ file, file_opt = Some file
                ∧ file_db file = db'
                ∧ log_name (file_log file) = file_name
                ∧ log_pos (file_log file) = S (length good)
                ∧ log_offset (file_log file) = size0 + log_records_size good
      else file_opt = None.
Proof.
  intros converting Hio Hfile Hschema Happly Hfails.
  unfold ovsdb_file_open. unfold sys_bind at 1.
  edestruct (open_log_schema file_name
               (if read_only then OVSDB_LOG_READ_ONLY else OVSDB_LOG_READ_WRITE)
               locking (bool_decide (alternate_schema = None)) w js0 size0
               (log_records good ++ entry :: rest) schema Hio)
    as (w1 & -> & Hfs1 & Htrace1 & _); [by destruct read_only|exact Hfile| |].
  { destruct alternate_schema; [by rewrite bool_decide_eq_false_2|].
    by rewrite bool_decide_eq_true_2. }
  assert (match (if bool_decide (alternate_schema = None) then Some schema else None)
          with Some _ => (if bool_decide (alternate_schema = None)
                          then Some schema else None)
          | None => alternate_schema end = Some schema) as ->.
  { destruct alternate_schema; [|by rewrite bool_decide_eq_true_2].
    rewrite bool_decide_eq_false_2 by done. by subst. }
  unfold sys_bind at 1. unfold log_file_length. cbn [log_name].
  rewrite Hfs1, Hfile. cbn [from_option id].
  unfold sys_bind at 1. fold converting.
  replace (S (length (log_record js0 size0
                        :: log_records good ++ entry :: rest)))
    with (length good + S (S (S (length rest))))%nat.
  2: { cbn [length]. rewrite length_app. unfold log_records.
       rewrite length_fmap. cbn [length]. lia. }
  match goal with
  | |- context [ovsdb_file_open_replay _ _ ?st0 _] =>
      destruct (replay_applies good (S (S (S (length rest)))) converting st0 w1
                  [log_record js0 size0] (entry :: rest) db')
        as (st1 & -> & Hdb1 & Hname1 & Hpos1 & Hoffset1)
  end.
  { cbn [replay_log log_name]. by rewrite Hfs1, Hfile. }
  { done. }
  { done. }
  cbn [replay_log log_name log_pos log_offset] in *.
  assert ((log_record js0 size0 :: log_records good ++ entry :: rest)
            !! log_pos (replay_log st1) = Some entry) as Hentry.
  { rewrite Hpos1. change (1 + length good)%nat with (S (length good)).
    rewrite lookup_cons. rewrite lookup_app_r; unfold log_records;
      rewrite length_fmap; [|lia]. by rewrite Nat.sub_diag. }
  assert (fs (world_reads file_name (length good) w1) !! log_name (replay_log st1)
          = Some (log_record js0 size0 :: log_records good ++ entry :: rest))
    as Hfile1.
  { rewrite world_reads_fs, Hname1, Hfs1. exact Hfile. }
  destruct entry as [bad size|]; cbn [entry_fails replay_unreads] in *.
  - (* a record that fails to decode or to commit: it is pushed back *)
    edestruct (replay_fails (S (S (length rest))) converting st1
                 (world_reads file_name (length good) w1)) as (st2 & -> & Hst2);
      [exact Hfile1|exact Hentry|by rewrite Hdb1|].
    destruct Hst2 as (Hdb2 & Hname2 & Hpos2 & Hoffset2).
    rewrite Hname1.
    destruct filep; sys_unfold; world_simpl; eexists _, _;
      (split; [by rewrite Hdb2, Hdb1|]);
      rewrite world_reads_trace, world_reads_fs, Htrace1, Hfs1, ?Hname2, ?Hname1;
      world_simpl;
      (split; [cbn [app replicate]; by rewrite replicate_snoc_app|]);
      (split; [done|]); [|done].
    eexists. split; [done|]. file_simpl.
    rewrite Hname2, Hname1, Hpos2, Hpos1, Hoffset2, Hoffset1.
    split_and!; try done; lia.
  - (* a record that the read refuses: the loop ends without pushing back *)
    subst error.
    cbn [ovsdb_file_open_replay]. unfold sys_bind at 1.
    rewrite (log_read_corrupt _ _ _ Hfile1 Hentry).
    rewrite Hname1.
    destruct filep; sys_unfold; world_simpl; eexists _, _;
      (split; [by rewrite ?Hdb1|]);
      rewrite world_reads_trace, world_reads_fs, Htrace1, Hfs1;
      world_simpl; cbn [replay_log replay_db]; rewrite ?Hname1;
      (split; [cbn [app replicate]; by rewrite replicate_snoc_app|]);
      (split; [done|]); [|done].
    eexists. split; [done|]. file_simpl. cbn [replay_log replay_db].
    rewrite Hname1, Hpos1, Hoffset1.
    split_and!; try done; lia.
Qed.

(** The turns that [ovsdb_file_open] grants the loop are enough: with
    more turns than records left to read, the loop ends by itself, and
    further turns change nothing. *)
Lemma replay_fuel_enough fuel1 : ∀ fuel2 converting st w records,
  fs w !! log_name (replay_log st) = Some records →
  (length records - log_pos (replay_log st) < fuel1)%nat →
  (length records - log_pos (replay_log st) < fuel2)%nat →
  ovsdb_file_open_replay fuel1 converting st w
  = ovsdb_file_open_replay fuel2 converting st w.
Proof.
  induction fuel1 as [|fuel1 IH]; intros fuel2 converting st w records Hfile Hlt1 Hlt2;
    [lia|].
  destruct fuel2 as [|fuel2]; [lia|].
  cbn [ovsdb_file_open_replay]. unfold sys_bind.
  destruct (records !! log_pos (replay_log st)) as [[js size|]|] eqn:Hrecord.
  - rewrite (log_read_record _ _ _ _ _ Hfile Hrecord).
    destruct (ovsdb_file_txn_from_json _ _ _) as [error|txn]; [done|].
    destruct (ovsdb_txn_commit _ _ _) as [db [error|]]; [done|].
    apply lookup_lt_Some in Hrecord.
    apply (IH _ _ _ _ records); cbn [replay_log log_name log_pos fs world_emit];
      [done|lia..].
  - by rewrite (log_read_corrupt _ _ _ Hfile Hrecord).
  - by rewrite (log_read_eof _ _ _ Hfile Hrecord).
Qed.

(** Once a transaction has been counted, the loop keeps the size of the
    snapshot, as long as the count does not wrap around. *)
Lemma replay_snapshot_stable fuel : ∀ converting st w r st' w',
  1 <= replay_n_transactions st →
  replay_n_transactions st + Z.of_nat fuel < UINT_MODULUS →
  ovsdb_file_open_replay fuel converting st w = ((r, st'), w') →
  replay_snapshot_size st' = replay_snapshot_size st.
Proof.
  induction fuel as [|fuel IH]; intros converting st w r st' w' Hcount Hwrap.
  { cbn. unfold sys_ret. by intros [= <- <- <-]. }
  cbn [ovsdb_file_open_replay]. unfold sys_bind at 1.
  destruct (ovsdb_log_read (replay_log st) w) as [[[error|[js|]] log] w1].
  - unfold sys_ret. by intros [= <- <- <-].
  - destruct (ovsdb_file_txn_from_json _ _ _) as [error|txn].
    { sys_unfold. by intros [= <- <- <-]. }
    destruct (ovsdb_txn_commit _ _ _) as [db [error|]].
    { sys_unfold. by intros [= <- <- <-]. }
    rewrite uint_id by lia. rewrite bool_decide_eq_false_2 by lia.
    intros Hrun. apply IH in Hrun; cbn [replay_n_transactions replay_snapshot_size] in *;
      [done|lia..].
  - unfold sys_ret. by intros [= <- <- <-].
Qed.

(** C1 (amended).  After a standalone database file has been opened, the
    [snapshot_size] of its state is the offset of the log just behind
    record 1, the first transaction record: the bytes of the schema
    record and of record 1 together.  (The size stays 0 when no
    transaction record is replayed; the count of transactions is taken
    not to wrap around.) *)
Theorem snapshot_size_is_offset_behind_record_1 file_name alternate_schema read_only
    locking w js0 size0 schema js1 size1 db1 rest :
  let converting := bool_decide (alternate_schema ≠ None) in
  io_fault w (io_ops w) = false →
  fs w !! file_name = Some (log_record js0 size0 :: log_record js1 size1 :: rest) →
  match alternate_schema with
  | Some alternate => schema = alternate
  | None => ovsdb_schema_from_json js0 = inr schema
  end →
  record_applies converting (ovsdb_create schema) js1 db1 →
  Z.of_nat (length rest) + 3 < UINT_MODULUS →
  ∃ db file w',
    ovsdb_file_open file_name alternate_schema read_only locking true w
    = (inr (db, Some file), w')
    ∧ snapshot_size file = size0 + size1.
Proof.
  intros converting Hio Hfile Hschema (txn & Hdecode & Hcommit) Hwrap.
  unfold ovsdb_file_open. unfold sys_bind at 1.
  edestruct (open_log_schema file_name
               (if read_only then OVSDB_LOG_READ_ONLY else OVSDB_LOG_READ_WRITE)
               locking (bool_decide (alternate_schema = None)) w js0 size0
               (log_record js1 size1 :: rest) schema Hio)
    as (w1 & -> & Hfs1 & Htrace1 & _); [by destruct read_only|exact Hfile| |].
  { destruct alternate_schema; [by rewrite bool_decide_eq_false_2|].
    by rewrite bool_decide_eq_true_2. }
  assert (match (if bool_decide (alternate_schema = None) then Some schema else None)
          with Some _ => (if bool_decide (alternate_schema = None)
                          then Some schema else None)
          | None => alternate_schema end = Some schema) as ->.
  { destruct alternate_schema; [|by rewrite bool_decide_eq_true_2].
    rewrite bool_decide_eq_false_2 by done. by subst. }
  unfold sys_bind at 1. unfold log_file_length. cbn [log_name].
  rewrite Hfs1, Hfile. cbn [from_option id length].
  unfold sys_bind at 1. fold converting.
  set (fuel := S (S (length rest))).
  cbn [ovsdb_file_open_replay]. unfold sys_bind at 1.
  erewrite log_read_record; [|by rewrite Hfs1|done].
  cbn [replay_db replay_log replay_n_transactions replay_snapshot_size].
  rewrite Hdecode, Hcommit.
  change (uint (0 + 1)) with 1. rewrite bool_decide_eq_true_2 by done.
  match goal with
  | |- context [ovsdb_file_open_replay fuel _ ?st1 ?w2] =>
      destruct (ovsdb_file_open_replay fuel converting st1 w2)
        as [[error st2] w3] eqn:Hrun
  end.
  apply replay_snapshot_stable in Hrun;
    cbn [replay_n_transactions replay_snapshot_size] in *; [|subst fuel; lia..].
  destruct error; sys_unfold; world_simpl; eexists _, _, _; (split; [done|]);
    file_simpl; rewrite Hrun; unfold ovsdb_log_get_offset; cbn [log_offset]; lia.
Qed.
End Properties.

(** * Concrete runs *)

(** * More properties of the file layer *)

Section MoreProperties.
Context `{ovsdb_externals}.

(** *** Members of JSON objects *)

Lemma shash_find_data_None {A} (sh : list (string * A)) name :
  shash_find_data sh name = None ↔ name ∉ sh.*1.
Proof.
  induction sh as [|[k v] sh IH]; cbn.
  - split; [intros _; apply not_elem_of_nil|reflexivity].
  - case_decide as Hk; [subst|].
    + split; [done|]. intros []. by left.
    + rewrite IH, not_elem_of_cons. cbn [fst].
      split; [intros Hin; split; [congruence|done]|by intros [_ Hin]].
Qed.

Lemma shash_find_data_Some {A} (sh : list (string * A)) name v :
  shash_find_data sh name = Some v → (name, v) ∈ sh.
Proof.
  induction sh as [|[k v'] sh IH]; cbn; [done|].
  case_decide as Hk; [subst|].
  - intros [= ->]. by left.
  - intros Hfind. right. by apply IH.
Qed.


Lemma shash_replace_eq {A} (sh : list (string * A)) name v :
  shash_find_data (shash_replace sh name v) name = Some v.
Proof.
  induction sh as [|[k v'] sh IH]; cbn.
  - by rewrite decide_True.
  - case_decide as Hk; cbn; [by rewrite decide_True|by rewrite decide_False].
Qed.

Lemma shash_replace_ne {A} (sh : list (string * A)) name name' v :
  name' ≠ name →
  shash_find_data (shash_replace sh name v) name' = shash_find_data sh name'.
Proof.
  intros Hne. induction sh as [|[k v'] sh IH]; cbn.
  - by rewrite decide_False.
  - case_decide as Hk; cbn; [subst; by rewrite !decide_False|].
    case_decide; [done|apply IH].
Qed.


Lemma shash_replace_keys {A} (sh : list (string * A)) name v :
  (shash_replace sh name v).*1 = if decide (name ∈ sh.*1) then sh.*1 else sh.*1 ++ [name].
Proof.
  induction sh as [|[k v'] sh IH]; cbn [shash_replace fmap list_fmap fst].
  - rewrite decide_False; [done|apply not_elem_of_nil].
  - destruct (decide (k = name)) as [->|Hk]; cbn [fmap list_fmap fst].
    + rewrite decide_True; [done|by left].
    + fold (@fmap list _ _ _ (@fst string A)). rewrite IH.
      destruct (decide (name ∈ sh.*1)) as [Hin|Hin].
      * rewrite decide_True; [done|by right].
      * rewrite decide_False; [done|]. rewrite not_elem_of_cons. naive_solver.
Qed.

(** *** Rows decoded from JSON *)

Lemma update_row_columns_table row converting js nodes row' error :
  update_row_columns row converting js nodes = (row', error) →
  row_table row' = row_table row.
Proof.
  revert row. induction nodes as [|[name data] nodes IH]; intros row; cbn.
  - by intros [= <- <-].
  - destruct (ovsdb_table_schema_get_column _ _) as [column|].
    + destruct (ovsdb_datum_from_json _ _) as [e|datum]; [by intros [= <- <-]|].
      intros Hrun. by apply IH in Hrun.
    + destruct converting; [apply IH|by intros [= <- <-]].
Qed.

(** A field that no member addresses keeps its datum, and so does the
    UUID of the row if that field is [OVSDB_COL_UUID]. *)
Lemma update_row_columns_frame row converting js nodes row' error idx :
  update_row_columns row converting js nodes = (row', error) →
  (∀ name column,
     name ∈ nodes.*1 →
     ovsdb_table_schema_get_column (row_table row) name = Some column →
     column_index column ≠ idx) →
  row_fields row' !! idx = row_fields row !! idx
  ∧ (idx = OVSDB_COL_UUID → row_uuid row' = row_uuid row).
Proof.
  revert row. induction nodes as [|[name data] nodes IH]; intros row; cbn.
  - by intros [= <- <-].
  - destruct (ovsdb_table_schema_get_column _ _) as [column|] eqn:Hcolumn.
    + destruct (ovsdb_datum_from_json _ _) as [e|datum]; [by intros [= <- <-]|].
      intros Hrun Hother.
      assert (column_index column ≠ idx) as Hne by (apply (Hother name); [by left|done]).
      apply IH in Hrun as [Hfield Huuid].
      * split.
        -- rewrite Hfield. cbn. by apply lookup_insert_ne.
        -- intros Hidx. rewrite (Huuid Hidx). cbn.
           rewrite bool_decide_eq_false_2; [done|congruence].
      * cbn. intros name' column' Hin. apply Hother. by right.
    + destruct converting; [|by intros [= <- <-]].
      intros Hrun Hother. apply IH in Hrun; [done|].
      intros name' column' Hin. apply Hother. by right.
Qed.

Lemma update_row_columns_app row converting js nodes1 nodes2 :
  update_row_columns row converting js (nodes1 ++ nodes2)
  = match update_row_columns row converting js nodes1 with
    | (row1, None) => update_row_columns row1 converting js nodes2
    | (row1, Some error) => (row1, Some error)
    end.
Proof.
  revert row. induction nodes1 as [|[name data] nodes1 IH]; intros row; [done|].
  cbn [app update_row_columns].
  destruct (ovsdb_table_schema_get_column _ _) as [column|].
  - destruct (ovsdb_datum_from_json _ _); [done|]. apply IH.
  - destruct converting; [apply IH|done].
Qed.

Lemma update_row_columns_installs row converting js pre name data post row' column :
  update_row_columns row converting js (pre ++ (name, data) :: post) = (row', None) →
  ovsdb_table_schema_get_column (row_table row) name = Some column →
  (∀ name' column',
     name' ∈ post.*1 →
     ovsdb_table_schema_get_column (row_table row) name' = Some column' →
     column_index column' ≠ column_index column) →
  ∃ datum,
    ovsdb_datum_from_json (column_type column) data = inr datum
    ∧ row_fields row' !! column_index column = Some datum
    ∧ (column_index column = OVSDB_COL_UUID → row_uuid row' = ovsdb_datum_uuid datum).
Proof.
  rewrite update_row_columns_app.
  destruct (update_row_columns row converting js pre) as [row1 [error|]] eqn:Hpre;
    [done|].
  apply update_row_columns_table in Hpre as Htable.
  intros Hrun Hcolumn Hlast. cbn in Hrun.
  rewrite <- Htable in Hcolumn. rewrite Hcolumn in Hrun.
  destruct (ovsdb_datum_from_json (column_type column) data) as [e|datum]; [done|].
  exists datum. split; [done|].
  destruct (update_row_columns_frame _ _ _ _ _ _ (column_index column) Hrun)
    as [Hfield Huuid].
  { cbn. rewrite Htable. exact Hlast. }
  split.
  - rewrite Hfield. cbn. apply lookup_insert_eq.
  - intros Hidx. rewrite (Huuid Hidx). cbn. by rewrite bool_decide_eq_true_2.
Qed.

(** X1.  What [ovsdb_file_update_row_from_json] does to a row.  The table
    of the row stays; a field that no member of the object addresses
    keeps its datum; a field that members address holds the datum parsed
    from the last of them.  The UUID of the row goes with the field
    [OVSDB_COL_UUID]: it stays when no member addresses that field, and
    a member that does (one that names its column, [_uuid]) replaces it
    by the UUID of its datum. *)
Theorem update_row_from_json_fields row converting object row' :
  ovsdb_file_update_row_from_json row converting (JSON_OBJECT object) = (row', None) →
  row_table row' = row_table row
  ∧ (∀ idx,
       (∀ name column,
          name ∈ object.*1 →
          ovsdb_table_schema_get_column (row_table row) name = Some column →
          column_index column ≠ idx) →
       row_fields row' !! idx = row_fields row !! idx
       ∧ (idx = OVSDB_COL_UUID → row_uuid row' = row_uuid row))
  ∧ (∀ pre name data post column,
       object = pre ++ (name, data) :: post →
       ovsdb_table_schema_get_column (row_table row) name = Some column →
       (∀ name' column',
          name' ∈ post.*1 →
          ovsdb_table_schema_get_column (row_table row) name' = Some column' →
          column_index column' ≠ column_index column) →
       ∃ datum,
         ovsdb_datum_from_json (column_type column) data = inr datum
         ∧ row_fields row' !! column_index column = Some datum
         ∧ (column_index column = OVSDB_COL_UUID →
            row_uuid row' = ovsdb_datum_uuid datum)).
Proof.
  cbn [ovsdb_file_update_row_from_json]. intros Hrun.
  pose proof (update_row_columns_table _ _ _ _ _ _ Hrun) as Htable.
  split_and!; [done| |].
  - intros idx. by apply update_row_columns_frame with (1 := Hrun).
  - intros pre name data post column ->.
    by apply update_row_columns_installs with (1 := Hrun).
Qed.

(** With [converting], members that name no column are skipped: the
    object decodes as the object without them. *)
Lemma update_row_columns_converting row js js' nodes :
  update_row_columns row true js nodes
  = update_row_columns row true js'
      (List.filter
         (λ node, bool_decide (is_Some (ovsdb_table_schema_get_column (row_table row) node.1)))
         nodes).
Proof.
  revert row. induction nodes as [|[name data] nodes IH]; intros row; [done|].
  cbn [List.filter fst update_row_columns].
  destruct (ovsdb_table_schema_get_column (row_table row) name) as [column|] eqn:Hcolumn.
  - rewrite bool_decide_eq_true_2 by done. cbn [update_row_columns]. rewrite Hcolumn.
    destruct (ovsdb_datum_from_json _ _); [done|].
    match goal with |- update_row_columns ?r _ _ _ = _ => exact (IH r) end.
  - rewrite bool_decide_eq_false_2 by (by intros [? ?]). apply IH.
Qed.

Lemma update_row_columns_known row js nodes row' :
  update_row_columns row false js nodes = (row', None) →
  ∀ name, name ∈ nodes.*1 →
    is_Some (ovsdb_table_schema_get_column (row_table row) name).
Proof.
  revert row. induction nodes as [|[name data] nodes IH]; intros row; cbn.
  - by intros _ name ?%elem_of_nil.
  - destruct (ovsdb_table_schema_get_column (row_table row) name) as [column|]
      eqn:Hcolumn; [|done].
    destruct (ovsdb_datum_from_json _ _); [done|].
    intros Hrun name' [->|Hin]%elem_of_cons; [by rewrite Hcolumn|].
    by apply (IH _ Hrun).
Qed.

Lemma txn_tables_converting db txn js js' nodes :
  txn_tables db txn true js nodes
  = txn_tables db txn true js' (List.filter (names_table db) nodes).
Proof.
  revert txn. induction nodes as [|[name data] nodes IH]; intros txn; [done|].
  cbn [List.filter txn_tables]. unfold names_table at 1. cbn [fst].
  destruct (shash_find_data (db_tables db) name) as [table|] eqn:Htable.
  - rewrite (bool_decide_eq_true_2 (is_Some (Some table))) by done.
    cbn [txn_tables]. rewrite Htable.
    destruct (ovsdb_file_txn_table_from_json _ _ _ _) as [txn' [error|]]; [done|].
    apply IH.
  - rewrite (bool_decide_eq_false_2 (is_Some None)) by apply is_Some_None.
    rewrite orb_true_r. destruct (_ && _); apply IH.
Qed.

(** X2.  With [converting], names that the schema does not know are
    skipped.  A transaction record decodes as the record without the
    members that name no table, and a row object as the object without
    the members that name no column. *)
Theorem converting_skips_unknown_names :
  (∀ db nodes,
     ovsdb_file_txn_from_json db (JSON_OBJECT nodes) true
     = ovsdb_file_txn_from_json db (JSON_OBJECT (List.filter (names_table db) nodes)) true)
  ∧ (∀ row object,
       ovsdb_file_update_row_from_json row true (JSON_OBJECT object)
       = ovsdb_file_update_row_from_json row true
           (JSON_OBJECT (List.filter (names_column (row_table row)) object))).
Proof.
  split.
  - intros db nodes. unfold ovsdb_file_txn_from_json.
    by rewrite (txn_tables_converting db _ (JSON_OBJECT nodes)
                  (JSON_OBJECT (List.filter (names_table db) nodes))).
  - intros row object. cbn [ovsdb_file_update_row_from_json].
    apply update_row_columns_converting.
Qed.

Lemma txn_tables_known db txn js nodes txn' :
  txn_tables db txn false js nodes = (txn', None) →
  ∀ name data, (name, data) ∈ nodes →
    is_Some (shash_find_data (db_tables db) name)
    ∨ name = "_comment" ∨ (name = "_date" ∧ json_is_integer data = true).
Proof.
  revert txn. induction nodes as [|[name data] nodes IH]; intros txn; cbn [txn_tables].
  - by intros _ name data ?%elem_of_nil.
  - destruct (shash_find_data (db_tables db) name) as [table|] eqn:Htable.
    + destruct (ovsdb_file_txn_table_from_json _ _ _ _) as [txn1 [error|]]; [done|].
      intros Hrun name' data' [[= -> ->]|Hin]%elem_of_cons; [left; by rewrite Htable|].
      by apply (IH _ Hrun).
    + destruct (bool_decide (name = "_date") && json_is_integer data) eqn:Hdate.
      * intros Hrun name' data' [[= -> ->]|Hin]%elem_of_cons; [|by apply (IH _ Hrun)].
        apply andb_prop in Hdate as [Hname%bool_decide_eq_true ?]. by right; right.
      * rewrite orb_false_r.
        destruct (bool_decide (name = "_comment")) eqn:Hcomment; [|done].
        apply bool_decide_eq_true in Hcomment.
        intros Hrun name' data' [[= -> ->]|Hin]%elem_of_cons; [|by apply (IH _ Hrun)].
        by right; left.
Qed.

(** X3.  Without [converting], names that the schema does not know are
    errors.  A transaction record that decodes has only members that name
    a table of the database, [_comment], or [_date] with an integer; the
    first other member, once the members before it are decoded, gives the
    syntax error [unknown table].  A row object that decodes has only
    members that name a column of the table. *)
Theorem unknown_names_rejected :
  (∀ db nodes txn,
     ovsdb_file_txn_from_json db (JSON_OBJECT nodes) false = inr txn →
     ∀ name data, (name, data) ∈ nodes →
       is_Some (shash_find_data (db_tables db) name)
       ∨ name = "_comment" ∨ (name = "_date" ∧ json_is_integer data = true))
  ∧ (∀ db pre name data post txn1,
       let js := JSON_OBJECT (pre ++ (name, data) :: post) in
       txn_tables db (ovsdb_txn_create db) false js pre = (txn1, None) →
       shash_find_data (db_tables db) name = None →
       name ≠ "_comment" →
       (name = "_date" → json_is_integer data = false) →
       ovsdb_file_txn_from_json db js false
       = inl (ovsdb_syntax_error (Some js) (Some "unknown table")
                ("No table named " ++ name ++ ".")))
  ∧ (∀ row object row',
       ovsdb_file_update_row_from_json row false (JSON_OBJECT object) = (row', None) →
       ∀ name, name ∈ object.*1 →
         is_Some (ovsdb_table_schema_get_column (row_table row) name)).
Proof.
  split_and!.
  - intros db nodes txn. unfold ovsdb_file_txn_from_json.
    destruct (txn_tables db _ false _ nodes) as [txn' [error|]] eqn:Hrun; [done|].
    intros _. by apply txn_tables_known with (1 := Hrun).
  - intros db pre name data post txn1 js Hpre Htable Hcomment Hdate.
    unfold ovsdb_file_txn_from_json, js. fold js.
    rewrite txn_tables_app, Hpre. cbn [txn_tables]. rewrite Htable.
    rewrite (bool_decide_eq_false_2 (name = "_comment")) by done. cbn [orb].
    destruct (bool_decide (name = "_date")) eqn:Hname; [|done].
    apply bool_decide_eq_true in Hname. by rewrite (Hdate Hname).
  - intros row object row'. cbn [ovsdb_file_update_row_from_json].
    apply update_row_columns_known.
Qed.

(** *** Rows encoded to JSON *)

Lemma shash_replace_members {A} (sh : list (string * A)) name v k x :
  (k, x) ∈ shash_replace sh name v → (k, x) ∈ sh ∨ (k, x) = (name, v).
Proof.
  induction sh as [|[k' v'] sh IH]; cbn.
  - intros ?%list_elem_of_singleton. by right.
  - destruct (decide (k' = name)) as [->|Hk].
    + intros [Heq|Hin]%elem_of_cons; [by right|]. left. by right.
    + intros [Heq|Hin]%elem_of_cons; [left; rewrite Heq; by left|].
      apply IH in Hin as [Hin|Heq]; [left; by right|by right].
Qed.

Lemma add_row_json_object old new changed columns members :
  foldl (add_row_step old new changed) (Some (JSON_OBJECT members)) columns
  = Some (JSON_OBJECT (stored_members old new changed members columns)).
Proof.
  revert members. induction columns as [|[key column] columns IH]; intros members;
    [done|].
  unfold stored_members. cbn [foldl List.filter snd add_row_step].
  fold (column_stored old new changed column).
  destruct (column_stored old new changed column); cbn [foldl]; apply IH.
Qed.

(** The row object of a new row holds the stored columns. *)
Lemma add_row_json_insert new changed :
  add_row_json None (Some new) changed
  = Some (JSON_OBJECT
            (stored_members None new changed [] (table_schema_columns (row_table new)))).
Proof. apply add_row_json_object. Qed.

(** A modified row has a row object only if a column of it is stored. *)
Lemma add_row_json_modify old new changed :
  add_row_json (Some old) (Some new) changed
  = match List.filter (λ node, column_stored (Some old) new changed node.2)
            (table_schema_columns (row_table new)) with
    | [] => None
    | _ :: _ =>
        Some (JSON_OBJECT
                (stored_members (Some old) new changed []
                   (table_schema_columns (row_table new))))
    end.
Proof.
  change (add_row_json (Some old) (Some new) changed)
    with (foldl (add_row_step (Some old) new changed) None
            (table_schema_columns (row_table new))).
  induction (table_schema_columns (row_table new)) as [|[key column] columns IH];
    [done|].
  unfold stored_members. cbn [foldl List.filter snd add_row_step].
  fold (column_stored (Some old) new changed column).
  destruct (column_stored (Some old) new changed column); [|exact IH].
  cbn [foldl default json_object_create json_object_put].
  apply add_row_json_object.
Qed.

Lemma stored_members_from old new changed columns members name v :
  (name, v) ∈ stored_members old new changed members columns →
  (name, v) ∈ members
  ∨ ∃ key column,
      (key, column) ∈ columns
      ∧ column_stored old new changed column = true
      ∧ name = column_name column
      ∧ v = ovsdb_datum_to_json
              (row_field new (column_index column) (column_type column))
              (column_type column).
Proof.
  revert members. induction columns as [|[key column] columns IH]; intros members;
    [by left|].
  unfold stored_members. cbn [List.filter snd].
  destruct (column_stored old new changed column) eqn:Hstored; cbn [foldl].
  - intros [Hin|(key' & column' & Hin & Hrest)]%IH.
    + apply shash_replace_members in Hin as [Hin|[= -> ->]]; [by left|].
      right. exists key, column. split; [by left|done].
    + right. exists key', column'. split; [by right|done].
  - intros [Hin|(key' & column' & Hin & Hrest)]%IH; [by left|].
    right. exists key', column'. split; [by right|done].
Qed.

(** X4.  What [ovsdb_file_txn_add_row] never writes.  The row object of a
    new or modified row has a member only for a column that is persistent
    and is not the UUID column, under the name of the column and with the
    JSON of the datum in the new row; for a modified row the column is one
    marked as changed, for a new row one whose datum is not the default. *)
Theorem add_row_json_members old new changed js :
  add_row_json old (Some new) changed = Some js →
  ∃ members,
    js = JSON_OBJECT members
    ∧ ∀ name v, (name, v) ∈ members →
        ∃ key column,
          (key, column) ∈ table_schema_columns (row_table new)
          ∧ name = column_name column
          ∧ column_index column ≠ OVSDB_COL_UUID
          ∧ column_persistent column = true
          ∧ v = ovsdb_datum_to_json
                  (row_field new (column_index column) (column_type column))
                  (column_type column)
          ∧ match old with
            | Some _ => changed (column_index column) = true
            | None =>
                ovsdb_datum_is_default
                  (row_field new (column_index column) (column_type column))
                  (column_type column) = false
            end.
Proof.
  intros Hjson.
  assert (js = JSON_OBJECT
                 (stored_members old new changed []
                    (table_schema_columns (row_table new)))) as ->.
  { destruct old as [old|].
    - rewrite add_row_json_modify in Hjson. by destruct (List.filter _ _); simplify_eq.
    - rewrite add_row_json_insert in Hjson. by simplify_eq. }
  eexists. split; [done|]. intros name v Hin.
  apply stored_members_from in Hin as [?%elem_of_nil|(key & column & Hin & Hstored & -> & ->)];
    [done|].
  exists key, column. unfold column_stored in Hstored.
  apply andb_prop in Hstored as [[Hidx%negb_true_iff Hpersistent]%andb_prop Hold].
  apply bool_decide_eq_false in Hidx.
  split_and!; try done. destruct old; [done|]. by apply negb_true_iff.
Qed.

Lemma ephemeral_change_no_json old new changed :
  ephemeral_change (Some old, Some new, changed) →
  add_row_json (Some old) (Some new) changed = None.
Proof.
  intros (old' & new' & [= <-] & [= <-] & Hchanged). cbn [snd] in Hchanged.
  rewrite add_row_json_modify.
  assert (List.filter (λ node, column_stored (Some old) new changed node.2)
            (table_schema_columns (row_table new)) = []) as ->; [|done].
  induction (table_schema_columns (row_table new)) as [|[key column] columns IH];
    [done|].
  cbn [List.filter snd].
  assert (column_stored (Some old) new changed column = false) as ->.
  { unfold column_stored.
    destruct (bool_decide (column_index column = OVSDB_COL_UUID)) eqn:Hidx; [done|].
    destruct (column_persistent column) eqn:Hpersistent; [|done]. cbn [negb andb].
    apply bool_decide_eq_false in Hidx. apply (Hchanged key); [by left|done..]. }
  apply IH. intros key' column' Hin. apply (Hchanged key'). by right.
Qed.

(** X5.  A change that touches no persistent column is not written.  If no
    column that is persistent (and is not the UUID column) is marked as
    changed, [ovsdb_file_txn_add_row] leaves the transaction JSON alone;
    and [ovsdb_file_commit] of a transaction all of whose changes are of
    that kind returns success without a write and without a look at the
    clocks. *)
Theorem ephemeral_changes_not_written :
  (∀ ftxn old new changed,
     ephemeral_change (Some old, Some new, changed) →
     ovsdb_file_txn_add_row ftxn (Some old) (Some new) changed = ftxn)
  ∧ (∀ file txn durable w,
       Forall ephemeral_change (ovsdb_txn_for_each_change txn) →
       ovsdb_file_commit file txn durable w = ((None, file), w)).
Proof.
  assert (∀ ftxn old new changed,
            ephemeral_change (Some old, Some new, changed) →
            ovsdb_file_txn_add_row ftxn (Some old) (Some new) changed = ftxn) as Hrow.
  { intros ftxn old new changed Hchange. unfold ovsdb_file_txn_add_row.
    by rewrite (ephemeral_change_no_json _ _ _ Hchange). }
  split; [exact Hrow|].
  intros file txn durable w Hchanges. unfold ovsdb_file_commit, commit_ftxn.
  assert (foldl ovsdb_file_change_cb ovsdb_file_txn_init (ovsdb_txn_for_each_change txn)
          = ovsdb_file_txn_init) as ->; [|done].
  generalize ovsdb_file_txn_init as ftxn.
  induction Hchanges as [|[[old new] changed] changes Hchange _ IH]; intros ftxn; [done|].
  cbn [foldl ovsdb_file_change_cb].
  destruct Hchange as (old' & new' & Hold & Hnew & Hchanged). cbn in Hold, Hnew.
  subst old new. rewrite Hrow; [apply IH|]. by exists old', new'.
Qed.

Lemma txn_commit_object members comment durable log w :
  ovsdb_file_txn_commit (JSON_OBJECT <$> members) comment durable log w
  = (let now := llong (wall_clock w (wall_reads w)) in
     let js := JSON_OBJECT (txn_commit_members (default [] members) comment now) in
     '(error, log) ←ˢ ovsdb_log_write log js;
     match error with
     | Some error => sys_ret (Some (ovsdb_wrap_error error "writing transaction failed"), log)
     | None =>
         if durable then
           error ←ˢ ovsdb_log_commit log;
           match error with
           | Some error =>
               sys_ret (Some (ovsdb_wrap_error error "committing transaction failed"), log)
           | None => sys_ret (None, log)
           end
         else sys_ret (None, log)
     end) ((time_wall_msec w).2).
Proof. by destruct members, comment. Qed.

(** X6.  What a successful [ovsdb_file_txn_commit] appends.  One record is
    written at the position of the log: the members of the transaction
    with [_date] set to the wall-clock time read and, when a comment is
    given, [_comment] set to it; the other members are as they were.
    The log stands behind the record, the clock was read once, and the
    log is synced exactly when the commit is durable. *)
Theorem txn_commit_appends_record members comment durable log log' w w' :
  ovsdb_file_txn_commit (JSON_OBJECT <$> members) comment durable log w
    = ((None, log'), w') →
  let now := llong (wall_clock w (wall_reads w)) in
  ∃ record,
    fs w' = <[log_name log :=
                take (log_pos log) (default [] (fs w !! log_name log))
                  ++ [log_record (JSON_OBJECT record)
                        (ovsdb_log_record_size (JSON_OBJECT record))]]> (fs w)
    ∧ shash_find_data record "_date" = Some (JSON_INTEGER now)
    ∧ shash_find_data record "_comment"
      = match comment with
        | Some comment => Some (JSON_STRING comment)
        | None => shash_find_data (default [] members) "_comment"
        end
    ∧ (∀ name, name ≠ "_date" → name ≠ "_comment" →
         shash_find_data record name = shash_find_data (default [] members) name)
    ∧ log_name log' = log_name log
    ∧ log_pos log' = S (log_pos log)
    ∧ ovsdb_log_get_offset log'
      = ovsdb_log_get_offset log + ovsdb_log_record_size (JSON_OBJECT record)
    ∧ wall_reads w' = S (wall_reads w)
    ∧ trace w'
      = (if durable then [ev_log_commit (log_name log)] else [])
          ++ ev_log_write (log_name log) (JSON_OBJECT record) :: trace w.
Proof.
  rewrite txn_commit_object. intros Hrun now.
  exists (txn_commit_members (default [] members) comment now).
  revert Hrun. sys_unfold. world_simpl. fold now.
  sys_cases; intros [= <- <-]; world_simpl.
  all: split_and!; try done.
  all: unfold txn_commit_members.
  all: try apply shash_replace_eq.
  all: try (rewrite shash_replace_ne by done; destruct comment;
            [apply shash_replace_eq|done]).
  all: intros name Hdate Hcomment; rewrite shash_replace_ne by done;
    destruct comment; [by rewrite shash_replace_ne|done].
Qed.

(** X7.  How [ovsdb_file_txn_commit] fails.  An error is the error of the
    write, wrapped as [writing transaction failed], and then the files
    and the log are as they were; or, for a durable commit only, the
    error of the [fsync], wrapped as [committing transaction failed],
    and then the record has been appended. *)
Theorem txn_commit_failure js comment durable log error log' w w' :
  ovsdb_file_txn_commit js comment durable log w = ((Some error, log'), w') →
  (∃ inner,
     error = ovsdb_wrap_error inner "writing transaction failed"
     ∧ fs w' = fs w ∧ log' = log)
  ∨ (∃ inner record size,
       durable = true
       ∧ error = ovsdb_wrap_error inner "committing transaction failed"
       ∧ log_pos log' = S (log_pos log)
       ∧ fs w' !! log_name log
         = Some (take (log_pos log) (default [] (fs w !! log_name log))
                   ++ [log_record record size])).
Proof.
  sys_unfold. world_simpl. sys_cases; intros [= <- <- <-]; world_simpl.
  - left. by eexists.
  - right. eexists _, _, _. split_and!; try done. by rewrite lookup_insert_eq.
Qed.

(** X8.  [ovsdb_file_commit] returns an error exactly when the append
    fails.  Then the error is that of [ovsdb_file_txn_commit]; the count
    of transactions and the times of compaction are as they were, the
    gate is not evaluated and no compaction starts. *)
Theorem commit_error_iff_append_fails file txn durable error file' w w' :
  ovsdb_file_commit file txn durable w = ((Some error, file'), w')
  ↔ ∃ js log',
      ftxn_json (commit_ftxn txn) = Some js
      ∧ ovsdb_file_txn_commit (Some js) (ovsdb_txn_get_comment txn) durable
          (file_log file) w = ((Some error, log'), w')
      ∧ file' = {| file_db := file_db file; file_log := log';
                   last_compact := last_compact file;
                   next_compact := next_compact file;
                   n_transactions := n_transactions file;
                   snapshot_size := snapshot_size file |}.
Proof.
  unfold ovsdb_file_commit.
  destruct (ftxn_json (commit_ftxn txn)) as [js|].
  2: { split; [done|]. by intros (? & ? & ? & _). }
  unfold sys_bind at 1.
  destruct (ovsdb_file_txn_commit _ _ _ _ w) as [[[error'|] log'] w1] eqn:Happend.
  - unfold sys_ret. split.
    + intros [= <- <- <-]. by exists js, log'.
    + intros (js' & log'' & [= <-] & Hrun & ->).
      rewrite Happend in Hrun. by simplify_eq.
  - split.
    2: { intros (js' & log'' & [= <-] & Hrun & _). rewrite Happend in Hrun.
         by simplify_eq. }
    file_simpl. sys_unfold. world_simpl. sys_cases; by intros [= <-].
Qed.

Lemma run_call_keeps_snapshot_size call file file' w w' :
  run_call call file w = (file', w') →
  snapshot_size file' = snapshot_size file
  ∧ log_name (file_log file') = log_name (file_log file).
Proof.
  destruct call as [db txn durable|db]; unfold run_call, ovsdb_file_commit.
  - destruct (ftxn_json (commit_ftxn txn)) as [js|];
      sys_unfold; world_simpl; sys_cases; by intros [= <- <-].
  - sys_unfold; world_simpl; sys_cases; by intros [= <- <-].
Qed.

(** X9.  The size of the snapshot is fixed when the file is opened.  No
    commit and no compaction, successful or not, changes [snapshot_size]:
    after a compaction the gate of [ovsdb_file_commit] still compares the
    log with the size measured at the opening.  The path of the log
    stays too. *)
Theorem snapshot_size_never_changes calls file file' w w' :
  run_calls calls file w = (file', w') →
  snapshot_size file' = snapshot_size file
  ∧ log_name (file_log file') = log_name (file_log file).
Proof.
  revert file w. induction calls as [|call calls IH]; intros file w.
  { cbn. unfold sys_ret. by intros [= <- <-]. }
  cbn [run_calls]. unfold sys_bind at 1.
  destruct (run_call call file w) as [file1 w1] eqn:Hcall.
  apply run_call_keeps_snapshot_size in Hcall as [Hsize Hname].
  intros [Hsize' Hname']%IH. split; congruence.
Qed.

Lemma compact_success_state file file' w w' :
  ovsdb_file_compact file w = ((None, file'), w') →
  ∃ snapshot,
    let name := log_name (file_log file) in
    let record0 := ovsdb_schema_to_json (db_schema (file_db file)) in
    fs w' = <[name := [log_record record0 (ovsdb_log_record_size record0);
                       log_record snapshot (ovsdb_log_record_size snapshot)]]>
              (delete (name ++ ".tmp")%string (fs w))
    ∧ file_log file'
      = {| log_name := name; log_pos := 2;
           log_offset := 0 + ovsdb_log_record_size record0
                         + ovsdb_log_record_size snapshot;
           log_prev_offset := 0 + ovsdb_log_record_size record0 |}
    ∧ n_transactions file' = 1
    ∧ last_compact file' = llong (wall_clock w (2 + wall_reads w))
    ∧ next_compact file' = llong (last_compact file' + COMPACT_MIN_MSEC)
    ∧ file_db file' = file_db file
    ∧ snapshot_size file' = snapshot_size file.
Proof.
  sys_unfold. world_simpl.
  sys_cases; intros [= <- <-]; file_simpl; world_simpl.
  eexists.
  rewrite !lookup_insert_eq. cbn [default take app].
  rewrite !insert_insert_eq, delete_insert_eq.
  split_and!; [reflexivity|done..].
Qed.

(** X10.  What a successful [ovsdb_file_compact] leaves.  The log file holds
    the schema record and one transaction record, the temporary file is
    gone and the other files are as they were; the handle keeps its path
    and stands behind the second record, so that the next commit appends
    a third one.  The count of transactions is 1, [last_compact] is the
    wall-clock time read at the end, [next_compact] is
    [COMPACT_MIN_MSEC] later; the database and [snapshot_size] are as
    they were. *)
Theorem compact_success file file' w w' :
  ovsdb_file_compact file w = ((None, file'), w') →
  let name := log_name (file_log file) in
  ∃ snapshot tmp_name,
    let record0 := ovsdb_schema_to_json (db_schema (file_db file)) in
    tmp_name ≠ name
    ∧ fs w' = <[name := [log_record record0 (ovsdb_log_record_size record0);
                         log_record snapshot (ovsdb_log_record_size snapshot)]]>
                (delete tmp_name (fs w))
    ∧ log_name (file_log file') = name
    ∧ log_pos (file_log file') = 2%nat
    ∧ ovsdb_log_get_offset (file_log file')
      = ovsdb_log_record_size record0 + ovsdb_log_record_size snapshot
    ∧ n_transactions file' = 1
    ∧ last_compact file' = llong (wall_clock w (2 + wall_reads w))
    ∧ next_compact file' = llong (last_compact file' + COMPACT_MIN_MSEC)
    ∧ file_db file' = file_db file
    ∧ snapshot_size file' = snapshot_size file
    ∧ ∀ js comment durable log'' w'',
        ovsdb_file_txn_commit js comment durable (file_log file') w'
          = ((None, log''), w'') →
        ∃ record size,
          fs w'' !! name
          = Some [log_record record0 (ovsdb_log_record_size record0);
                  log_record snapshot (ovsdb_log_record_size snapshot);
                  log_record record size].
Proof.
  intros (snapshot & Hfs & Hlog & Hcount & Hlast & Hnext & Hdb & Hsize)%compact_success_state
    name.
  exists snapshot, (name ++ ".tmp")%string. cbn zeta in *. fold name in Hfs, Hlog.
  rewrite Hlog. unfold ovsdb_log_get_offset. cbn [log_name log_pos log_offset].
  split_and!; try done; try lia; [apply tmp_name_ne|].
  intros js comment durable log'' w''. sys_unfold. world_simpl. rewrite Hfs.
  sys_cases; intros [= <- <-]; world_simpl;
    rewrite !lookup_insert_eq; cbn [default take app]; by eauto.
Qed.

(** X11.  A failed [ovsdb_file_save_copy] leaves no file behind.  If the
    copy cannot be completed, the file system is as it was before the
    call: a file that the call created is unlinked, and a file that
    existed is not touched; for an existing file the call always fails
    and writes nothing. *)
Theorem save_copy_failure file_name comment db w :
  (∀ error w',
     ovsdb_file_save_copy file_name comment db w = (Some error, w') → fs w' = fs w)
  ∧ (is_Some (fs w !! file_name) →
     ∃ error w',
       ovsdb_file_save_copy file_name comment db w = (Some error, w')
       ∧ trace w' = ev_log_open file_name :: trace w).
Proof.
  split.
  - intros error w'. unfold ovsdb_file_save_copy. sys_unfold. world_simpl.
    destruct (io_fault w (io_ops w)); [by intros [= <- <-]|].
    destruct (fs w !! file_name) eqn:Hfile; [by intros [= <- <-]|]. world_simpl.
    sys_cases; intros [= <- <-]; world_simpl;
      rewrite ?insert_insert_eq, delete_insert_eq; by apply delete_id.
  - intros [records Hfile]. unfold ovsdb_file_save_copy. sys_unfold. world_simpl.
    rewrite Hfile. destruct (io_fault w (io_ops w)); by eexists _, _.
Qed.

Lemma world_reads_clocks name n w :
  wall_clock (world_reads name n w) = wall_clock w
  ∧ wall_reads (world_reads name n w) = wall_reads w
  ∧ mono_clock (world_reads name n w) = mono_clock w
  ∧ mono_reads (world_reads name n w) = mono_reads w
  ∧ io_fault (world_reads name n w) = io_fault w
  ∧ io_ops (world_reads name n w) = io_ops w.
Proof. induction n as [|n IH]; [done|]. by cbn. Qed.

Lemma replay_applies_count good : ∀ fuel converting st w before tail db',
  fs w !! log_name (replay_log st) = Some (before ++ log_records good ++ tail) →
  length before = log_pos (replay_log st) →
  records_apply converting (replay_db st) good db' →
  0 <= replay_n_transactions st →
  replay_n_transactions st + Z.of_nat (length good) < UINT_MODULUS →
  ∃ st',
    ovsdb_file_open_replay (length good + fuel) converting st w
    = ovsdb_file_open_replay fuel converting st'
        (world_reads (log_name (replay_log st)) (length good) w)
    ∧ replay_db st' = db'
    ∧ log_name (replay_log st') = log_name (replay_log st)
    ∧ log_pos (replay_log st') = (log_pos (replay_log st) + length good)%nat
    ∧ log_offset (replay_log st')
      = log_offset (replay_log st) + log_records_size good
    ∧ replay_n_transactions st' = replay_n_transactions st + Z.of_nat (length good)
    ∧ replay_snapshot_size st'
      = if bool_decide (replay_n_transactions st = 0)
        then match good with
             | [] => replay_snapshot_size st
             | (_, size) :: _ => log_offset (replay_log st) + size
             end
        else replay_snapshot_size st.
Proof.
  induction good as [|[js size] good IH];
    intros fuel converting st w before tail db' Hfile Hpos Happly Hcount Hwrap.
  { cbn in Happly. subst db'. exists st. cbn.
    split_and!; try done; try lia. by case_bool_decide. }
  destruct Happly as (db1 & (txn & Hdecode & Hcommit) & Happly).
  cbn [length Nat.add ovsdb_file_open_replay]. unfold sys_bind at 1.
  erewrite log_read_record; [|done|].
  2: { rewrite lookup_app_r by lia. rewrite Hpos, Nat.sub_diag. done. }
  rewrite Hdecode, Hcommit.
  cbn [length] in Hwrap.
  rewrite (uint_id (replay_n_transactions st + 1)) by lia.
  match goal with
  | |- context [ovsdb_file_open_replay _ _ ?st1 ?w1] =>
      destruct (IH fuel converting st1 w1 (before ++ [log_record js size]) tail db')
        as (st' & Hrun & Hdb & Hname & Hpos' & Hoffset & Hcount' & Hsize)
  end.
  - cbn [replay_log log_name]. unfold world_emit; cbn [fs].
    by rewrite <- app_assoc.
  - cbn [replay_log log_pos]. rewrite length_app. cbn. lia.
  - done.
  - cbn [replay_n_transactions]. lia.
  - cbn [replay_n_transactions]. lia.
  - exists st'.
    cbn [replay_log replay_db log_name log_pos log_offset replay_n_transactions
         replay_snapshot_size] in *.
    rewrite Hrun, world_reads_succ. split_and!; try done; try lia.
    + rewrite Hoffset. unfold log_records_size. cbn [foldr]. lia.
    + rewrite Hsize. rewrite (bool_decide_eq_false_2 (_ + 1 = 0)) by lia.
      unfold ovsdb_log_get_offset. cbn [log_offset].
      repeat case_bool_decide; try done; lia.
Qed.

(** Opening a log whose first records apply: the loop goes through them,
    and [ovsdb_file_open] goes on with the records behind them. *)
Lemma open_replays_prefix file_name alternate_schema read_only locking filep w js0 size0
    schema good tail db' :
  let converting := bool_decide (alternate_schema ≠ None) in
  io_fault w (io_ops w) = false →
  fs w !! file_name = Some (log_record js0 size0 :: log_records good ++ tail) →
  match alternate_schema with
  | Some alternate => schema = alternate
  | None => ovsdb_schema_from_json js0 = inr schema
  end →
  records_apply converting (ovsdb_create schema) good db' →
  Z.of_nat (length good) < UINT_MODULUS →
  ∃ log w1,
    ovsdb_file_open file_name alternate_schema read_only locking filep w
    = ('(error, st) ←ˢ
         ovsdb_file_open_replay (S (S (length tail))) converting
           {| replay_db := db'; replay_log := log;
              replay_n_transactions := Z.of_nat (length good);
              replay_snapshot_size := snapshot_size_after size0 good |};
       ovsdb_file_open_finish filep error st) w1
    ∧ log_name log = file_name
    ∧ log_pos log = S (length good)
    ∧ log_offset log = size0 + log_records_size good
    ∧ fs w1 = fs w
    ∧ trace w1 = replicate (S (length good)) (ev_log_read file_name)
                   ++ ev_log_open file_name :: trace w
    ∧ wall_clock w1 = wall_clock w ∧ wall_reads w1 = wall_reads w.
Proof.
  intros converting Hio Hfile Hschema Happly Hwrap.
  unfold ovsdb_file_open. unfold sys_bind at 1.
  edestruct (open_log_schema file_name
               (if read_only then OVSDB_LOG_READ_ONLY else OVSDB_LOG_READ_WRITE)
               locking (bool_decide (alternate_schema = None)) w js0 size0
               (log_records good ++ tail) schema Hio)
    as (w1 & -> & Hfs1 & Htrace1 & Hwall1 & Hreads1);
    [by destruct read_only|exact Hfile| |].
  { destruct alternate_schema; [by rewrite bool_decide_eq_false_2|].
    by rewrite bool_decide_eq_true_2. }
  assert (match (if bool_decide (alternate_schema = None) then Some schema else None)
          with Some _ => (if bool_decide (alternate_schema = None)
                          then Some schema else None)
          | None => alternate_schema end = Some schema) as ->.
  { destruct alternate_schema; [|by rewrite bool_decide_eq_true_2].
    rewrite bool_decide_eq_false_2 by done. by subst. }
  unfold sys_bind at 1. unfold log_file_length. cbn [log_name].
  rewrite Hfs1, Hfile. cbn [from_option id].
  fold converting.
  replace (S (length (log_record js0 size0 :: log_records good ++ tail)))
    with (length good + S (S (length tail)))%nat.
  2: { cbn [length]. rewrite length_app. unfold log_records.
       rewrite length_fmap. lia. }
  unfold sys_bind at 1.
  match goal with
  | |- context [ovsdb_file_open_replay _ _ ?st0 _] =>
      destruct (replay_applies_count good (S (S (length tail))) converting st0 w1
                  [log_record js0 size0] tail db')
        as (st1 & -> & Hdb1 & Hname1 & Hpos1 & Hoffset1 & Hcount1 & Hsize1)
  end.
  { cbn [replay_log log_name]. by rewrite Hfs1, Hfile. }
  { done. }
  { done. }
  { done. }
  { cbn [replay_n_transactions]. lia. }
  cbn [replay_log replay_n_transactions replay_snapshot_size log_name log_pos log_offset]
    in *.
  rewrite bool_decide_eq_true_2 in Hsize1 by done.
  exists (replay_log st1), (world_reads file_name (length good) w1).
  split_and!; try done.
  - unfold sys_bind at 2.
    assert (st1 = {| replay_db := db'; replay_log := replay_log st1;
                     replay_n_transactions := Z.of_nat (length good);
                     replay_snapshot_size := snapshot_size_after size0 good |}) as <-;
      [|done].
    destruct st1; cbn in *. by f_equal.
  - by rewrite world_reads_fs.
  - rewrite world_reads_trace, Htrace1. cbn [replicate app].
    by rewrite replicate_snoc_app.
  - by rewrite (proj1 (world_reads_clocks _ _ _)).
  - by rewrite (proj1 (proj2 (world_reads_clocks _ _ _))).
Qed.

Lemma open_replays_to_end file_name alternate_schema read_only locking (filep : bool) w
    js0 size0 schema good db' :
  let converting := bool_decide (alternate_schema ≠ None) in
  io_fault w (io_ops w) = false →
  fs w !! file_name = Some (log_record js0 size0 :: log_records good) →
  match alternate_schema with
  | Some alternate => schema = alternate
  | None => ovsdb_schema_from_json js0 = inr schema
  end →
  records_apply converting (ovsdb_create schema) good db' →
  Z.of_nat (length good) < UINT_MODULUS →
  ∃ file_opt w',
    ovsdb_file_open file_name alternate_schema read_only locking filep w
    = (inr (db', file_opt), w')
    ∧ trace w'
      = (if filep then [] else [ev_log_close file_name])
          ++ replicate (S (S (length good))) (ev_log_read file_name)
          ++ ev_log_open file_name :: trace w
    ∧ fs w' = fs w
    ∧ if filep then
        ∃ file, file_opt = Some file
                ∧ file_db file = db'
                ∧ n_transactions file = Z.of_nat (length good)
                ∧ snapshot_size file = snapshot_size_after size0 good
                ∧ log_name (file_log file) = file_name
                ∧ log_pos (file_log file) = S (length good)
                ∧ ovsdb_log_get_offset (file_log file) = size0 + log_records_size good
                ∧ last_compact file = llong (wall_clock w (wall_reads w))
                ∧ next_compact file = llong (last_compact file + COMPACT_MIN_MSEC)
      else file_opt = None ∧ wall_reads w' = wall_reads w.
Proof.
  intros converting Hio Hfile Hschema Happly Hwrap.
  destruct (open_replays_prefix file_name alternate_schema read_only locking filep w
              js0 size0 schema good [] db')
    as (log & w1 & -> & Hname & Hpos & Hoffset & Hfs & Htrace & Hwall & Hreads);
    [done|by rewrite app_nil_r|done..|].
  unfold sys_bind at 1. cbn [ovsdb_file_open_replay replay_log]. unfold sys_bind at 1.
  erewrite log_read_eof; [|by rewrite Hname, Hfs|].
  2: { apply lookup_ge_None_2. rewrite Hpos. cbn [length]. unfold log_records.
       rewrite length_fmap. lia. }
  unfold ovsdb_file_open_finish.
  destruct filep; sys_unfold; world_simpl; eexists _, _;
    (split; [done|]);
    cbn [replay_db replay_log replay_n_transactions replay_snapshot_size];
    rewrite Htrace, Hfs, ?Hname; world_simpl;
    (split; [done|]); (split; [done|]); [|done].
  eexists. split; [done|]. file_simpl. by rewrite Hwall, Hreads.
Qed.

(** X12.  A log whose records all apply is replayed to its end.
    [ovsdb_file_open] returns the database that the records build and
    logs nothing; it has read every record and the end of the file, and
    has changed no file.  The [ovsdb_file] counts the records replayed,
    its log stands behind the last of them, and [last_compact] is the
    wall-clock time of the opening.  Without [filep] the log is closed
    and the clock is not read. *)
Theorem open_replays_all file_name alternate_schema read_only locking (filep : bool) w
    js0 size0 schema good db' :
  let converting := bool_decide (alternate_schema ≠ None) in
  io_fault w (io_ops w) = false →
  fs w !! file_name = Some (log_record js0 size0 :: log_records good) →
  match alternate_schema with
  | Some alternate => schema = alternate
  | None => ovsdb_schema_from_json js0 = inr schema
  end →
  records_apply converting (ovsdb_create schema) good db' →
  Z.of_nat (length good) < UINT_MODULUS →
  ∃ file_opt w',
    ovsdb_file_open file_name alternate_schema read_only locking filep w
    = (inr (db', file_opt), w')
    ∧ trace w'
      = (if filep then [] else [ev_log_close file_name])
          ++ replicate (S (S (length good))) (ev_log_read file_name)
          ++ ev_log_open file_name :: trace w
    ∧ fs w' = fs w
    ∧ if filep then
        ∃ file, file_opt = Some file
                ∧ file_db file = db'
                ∧ n_transactions file = Z.of_nat (length good)
                ∧ snapshot_size file = snapshot_size_after size0 good
                ∧ log_name (file_log file) = file_name
                ∧ log_pos (file_log file) = S (length good)
                ∧ ovsdb_log_get_offset (file_log file) = size0 + log_records_size good
                ∧ last_compact file = llong (wall_clock w (wall_reads w))
                ∧ next_compact file = llong (last_compact file + COMPACT_MIN_MSEC)
      else file_opt = None ∧ wall_reads w' = wall_reads w.
Proof. apply open_replays_to_end. Qed.

(** X13.  A record that fails the integrity check ends the replay without
    being pushed back.  [ovsdb_log_read] returns the error; the loop ends
    with no call of [ovsdb_log_unread], the error is logged and
    [ovsdb_file_open] returns success with the database of the records
    before. *)
Theorem open_read_error_swallowed file_name alternate_schema read_only locking
    (filep : bool) w js0 size0 schema good db' rest :
  let converting := bool_decide (alternate_schema ≠ None) in
  io_fault w (io_ops w) = false →
  fs w !! file_name
  = Some (log_record js0 size0 :: log_records good ++ log_corrupt :: rest) →
  match alternate_schema with
  | Some alternate => schema = alternate
  | None => ovsdb_schema_from_json js0 = inr schema
  end →
  records_apply converting (ovsdb_create schema) good db' →
  Z.of_nat (length good) < UINT_MODULUS →
  ∃ error file_opt w',
    ovsdb_file_open file_name alternate_schema read_only locking filep w
    = (inr (db', file_opt), w')
    ∧ trace w'
      = (if filep then [] else [ev_log_close file_name])
          ++ ev_vlog VLL_ERR (ovsdb_error_to_string error)
          :: replicate (S (S (length good))) (ev_log_read file_name)
          ++ ev_log_open file_name :: trace w
    ∧ fs w' = fs w
    ∧ if filep then
        ∃ file, file_opt = Some file
                ∧ file_db file = db'
                ∧ n_transactions file = Z.of_nat (length good)
                ∧ snapshot_size file = snapshot_size_after size0 good
                ∧ log_pos (file_log file) = S (length good)
                ∧ ovsdb_log_get_offset (file_log file) = size0 + log_records_size good
      else file_opt = None.
Proof.
  intros converting Hio Hfile Hschema Happly Hwrap.
  destruct (open_replays_prefix file_name alternate_schema read_only locking filep w
              js0 size0 schema good (log_corrupt :: rest) db')
    as (log & w1 & -> & Hname & Hpos & Hoffset & Hfs & Htrace & Hwall & Hreads);
    [done..|].
  unfold sys_bind at 1. cbn [ovsdb_file_open_replay replay_log]. unfold sys_bind at 1.
  erewrite log_read_corrupt; [|by rewrite Hname, Hfs|].
  2: { rewrite Hpos, lookup_cons. rewrite lookup_app_r; unfold log_records;
         rewrite length_fmap; [|lia]. by rewrite Nat.sub_diag. }
  unfold ovsdb_file_open_finish.
  destruct filep; sys_unfold; world_simpl; eexists _, _, _;
    (split; [done|]);
    cbn [replay_db replay_log replay_n_transactions replay_snapshot_size];
    rewrite Htrace, Hfs, ?Hname; world_simpl;
    (split; [done|]); (split; [done|]); [|done].
  eexists. split; [done|]. by file_simpl.
Qed.

(** X14.  The count of transactions after a replay that a record ended.  A
    record that does not decode is not counted.  A record that decodes
    and whose transaction fails to commit is counted, the count being
    incremented before the commit; it does not set [snapshot_size], also
    when it is the first transaction record. *)
Theorem open_count_after_failed_record file_name alternate_schema read_only locking w
    js0 size0 schema good bad size error db' rest :
  let converting := bool_decide (alternate_schema ≠ None) in
  io_fault w (io_ops w) = false →
  fs w !! file_name
  = Some (log_record js0 size0 :: log_records good ++ log_record bad size :: rest) →
  match alternate_schema with
  | Some alternate => schema = alternate
  | None => ovsdb_schema_from_json js0 = inr schema
  end →
  records_apply converting (ovsdb_create schema) good db' →
  record_fails converting db' bad error →
  Z.of_nat (length good) + 1 < UINT_MODULUS →
  ∃ file w',
    ovsdb_file_open file_name alternate_schema read_only locking true w
    = (inr (db', Some file), w')
    ∧ n_transactions file
      = match ovsdb_file_txn_from_json db' bad converting with
        | inl _ => Z.of_nat (length good)
        | inr _ => Z.of_nat (length good) + 1
        end
    ∧ snapshot_size file = snapshot_size_after size0 good.
Proof.
  intros converting Hio Hfile Hschema Happly Hfails Hwrap.
  destruct (open_replays_prefix file_name alternate_schema read_only locking true w
              js0 size0 schema good (log_record bad size :: rest) db')
    as (log & w1 & -> & Hname & Hpos & Hoffset & Hfs & Htrace & Hwall & Hreads);
    [done..|lia|].
  unfold sys_bind at 1.
  cbn [ovsdb_file_open_replay replay_log replay_db replay_n_transactions]. unfold sys_bind at 1.
  erewrite log_read_record; [|by rewrite Hname, Hfs|].
  2: { rewrite Hpos, lookup_cons. rewrite lookup_app_r; unfold log_records;
         rewrite length_fmap; [|lia]. by rewrite Nat.sub_diag. }
  unfold ovsdb_file_open_finish. fold converting.
  destruct Hfails as [Hdecode|(txn & Hdecode & Hcommit)]; rewrite Hdecode, ?Hcommit;
    sys_unfold; world_simpl; eexists _, _; (split; [done|]); file_simpl;
    [done|].
  by rewrite uint_id by lia.
Qed.

(** X15.  A file without a schema record does not open.  For a path that
    names no file, [ovsdb_file_open] and [ovsdb_file_read_schema] return
    the error of [ovsdb_log_open]; for a file without records they
    return the I/O error [database file contains no schema] and close
    the log.  No file is changed. *)
Theorem open_needs_schema_record file_name alternate_schema read_only locking filep w :
  (fs w !! file_name = None →
   ∃ error w',
     ovsdb_file_open file_name alternate_schema read_only locking filep w
     = (inl error, w')
     ∧ ovsdb_file_read_schema file_name w = (inl error, w')
     ∧ fs w' = fs w
     ∧ trace w' = ev_log_open file_name :: trace w)
  ∧ (io_fault w (io_ops w) = false →
     fs w !! file_name = Some [] →
     ∃ w',
       let error := ovsdb_io_error (file_name ++ ": database file contains no schema") in
       ovsdb_file_open file_name alternate_schema read_only locking filep w
       = (inl error, w')
       ∧ ovsdb_file_read_schema file_name w = (inl error, w')
       ∧ fs w' = fs w
       ∧ trace w' = ev_log_close file_name :: ev_log_read file_name
                      :: ev_log_open file_name :: trace w).
Proof.
  split.
  - intros Hfile. unfold ovsdb_file_open, ovsdb_file_read_schema.
    sys_unfold. world_simpl. rewrite Hfile.
    destruct (io_fault w (io_ops w)), read_only; by eexists _, _.
  - intros Hio Hfile. unfold ovsdb_file_open, ovsdb_file_read_schema.
    sys_unfold. world_simpl. rewrite Hio, Hfile.
    destruct read_only; world_simpl; rewrite Hfile; by eexists.
Qed.

(** X16.  The schema record is parsed only when no alternate schema is
    given.  Without one, a record 0 that is no schema makes
    [ovsdb_file_open] fail with the error of the parser wrapped as
    [failed to parse "FILE" as ovsdb schema]; the log is closed and no
    later record is read.  With an alternate schema the same file opens:
    record 0 is read and not parsed. *)
Theorem open_parses_schema_unless_alternate file_name read_only locking filep w js0 size0
    rest error :
  io_fault w (io_ops w) = false →
  fs w !! file_name = Some (log_record js0 size0 :: rest) →
  ovsdb_schema_from_json js0 = inl error →
  (∃ w',
     ovsdb_file_open file_name None read_only locking filep w
     = (inl (ovsdb_wrap_error error
               ("failed to parse " ++ dquote ++ file_name ++ dquote ++ " as ovsdb schema")),
        w')
     ∧ fs w' = fs w
     ∧ trace w' = ev_log_close file_name :: ev_log_read file_name
                    :: ev_log_open file_name :: trace w)
  ∧ (rest = [] →
     ∀ alternate, ∃ file_opt w',
       ovsdb_file_open file_name (Some alternate) read_only locking filep w
       = (inr (ovsdb_create alternate, file_opt), w')).
Proof.
  intros Hio Hfile Hparse. split.
  - unfold ovsdb_file_open. sys_unfold. world_simpl. rewrite Hio, Hfile.
    destruct read_only; world_simpl; rewrite Hfile; cbn [from_option id lookup list_lookup];
      rewrite Hparse; by eexists.
  - intros -> alternate.
    destruct (open_replays_prefix file_name (Some alternate) read_only locking filep w
                js0 size0 alternate [] [] (ovsdb_create alternate))
      as (log & w1 & -> & Hname & Hpos & Hoffset & Hfs & Htrace & Hwall & Hreads);
      [done..|].
    unfold sys_bind at 1. cbn [ovsdb_file_open_replay replay_log]. unfold sys_bind at 1.
    erewrite log_read_eof; [|by rewrite Hname, Hfs|].
    2: { apply lookup_ge_None_2. rewrite Hpos. cbn [length]. lia. }
    unfold ovsdb_file_open_finish.
    destruct filep; sys_unfold; world_simpl; by eexists _, _.
Qed.

(** X17.  [ovsdb_file_read_schema] reads record 0 and nothing else.  It
    returns the schema that record 0 parses to, whatever follows it in
    the file, closes the log and changes no file; if record 0 does not
    parse, it returns the error of the parser, wrapped. *)
Theorem read_schema_reads_record_0 file_name w js0 size0 rest :
  io_fault w (io_ops w) = false →
  fs w !! file_name = Some (log_record js0 size0 :: rest) →
  ∃ w',
    ovsdb_file_read_schema file_name w
    = (match ovsdb_schema_from_json js0 with
       | inr schema => inr schema
       | inl error =>
           inl (ovsdb_wrap_error error
                  ("failed to parse " ++ dquote ++ file_name ++ dquote
                     ++ " as ovsdb schema"))
       end, w')
    ∧ fs w' = fs w
    ∧ trace w' = ev_log_close file_name :: ev_log_read file_name
                   :: ev_log_open file_name :: trace w.
Proof.
  intros Hio Hfile. unfold ovsdb_file_read_schema. sys_unfold. world_simpl.
  rewrite Hio, Hfile. world_simpl. rewrite Hfile. cbn [from_option id lookup list_lookup].
  destruct (ovsdb_schema_from_json js0); by eexists.
Qed.






































End MoreProperties.

(** * Properties of the tool *)

Section ToolProperties.
Context `{ovsdb_tool_externals}.

Lemma string_app_empty_r (s : string) : (s ++ "")%string = s.
Proof.
  induction s as [|a s IH]; [done|].
  change (String a (s ++ "") = String a s)%string. by f_equal.
Qed.

Lemma show_log_transaction_quiet show_log_verbosity names schema js :
  show_log_verbosity <= 0 →
  show_log_transaction show_log_verbosity names schema js
  = (match js with
     | JSON_OBJECT object =>
         (match shash_find_data object "_date" with
          | Some (JSON_INTEGER t) =>
              xastrftime_msec " %Y-%m-%d %H:%M:%S.###" (show_log_date_msec t) true
          | _ => ""
          end
          ++ match shash_find_data object "_comment" with
             | Some (JSON_STRING comment) => " " ++ dquote ++ comment ++ dquote
             | _ => ""
             end)%string
     | _ => ""
     end, names).
Proof.
  intros Hquiet. unfold show_log_transaction. destruct js; try done.
  by rewrite (proj2 (Z.ltb_ge 0 show_log_verbosity)).
Qed.

Lemma show_log_loop_quiet show_log_verbosity names schema records : ∀ i fuel log w before tail,
  show_log_verbosity <= 0 →
  fs w !! log_name log = Some (before ++ log_records records ++ tail) →
  length before = log_pos log →
  0 < i → i + Z.of_nat (length records) < UINT_MODULUS →
  ∃ log',
    do_show_log_standalone_loop (length records + fuel) show_log_verbosity i names schema
      log w
    = (let '(rest, w') :=
         do_show_log_standalone_loop fuel show_log_verbosity
           (i + Z.of_nat (length records)) names schema log'
           (world_reads (log_name log) (length records) w) in
       (tool_then (show_log_lines i records) rest, w'))
    ∧ log_name log' = log_name log
    ∧ log_pos log' = (log_pos log + length records)%nat.
Proof.
  induction records as [|[js size] records IH];
    intros i fuel log w before tail Hquiet Hfile Hpos Hi Hwrap.
  { exists log. cbn. rewrite Z.add_0_r.
    split_and!; try done; try lia.
    destruct (do_show_log_standalone_loop _ _ _ _ _ _ _) as [[out fatal] w'].
    done. }
  cbn [length Nat.add do_show_log_standalone_loop]. unfold sys_bind at 1.
  erewrite log_read_record; [|done|].
  2: { rewrite lookup_app_r by lia. rewrite Hpos, Nat.sub_diag. done. }
  rewrite bool_decide_eq_false_2 by lia.
  rewrite show_log_transaction_quiet by done.
  cbn [length] in Hwrap. rewrite (uint_id (i + 1)) by lia.
  unfold sys_bind at 1.
  match goal with
  | |- context [do_show_log_standalone_loop _ _ _ _ _ ?log1 ?w1] =>
      destruct (IH (i + 1) fuel log1 w1 (before ++ [log_record js size]) tail)
        as (log' & -> & Hname & Hpos')
  end; try done; try lia.
  - cbn [log_name]. unfold world_emit; cbn [fs]. by rewrite <- app_assoc.
  - cbn [log_pos]. rewrite length_app. cbn. lia.
  - exists log'. cbn [log_name log_pos] in *. rewrite world_reads_succ.
    replace (i + 1 + Z.of_nat (length records)) with (i + Z.of_nat (S (length records)))
      by lia.
    split_and!; try done; try lia.
    destruct (do_show_log_standalone_loop _ _ _ _ _ _ _) as [[out fatal] w'].
    unfold sys_ret, tool_then. cbn [tool_stdout tool_fatal show_log_lines].
    do 2 f_equal. unfold show_log_record.
    destruct js; cbn; rewrite ?string_app_assoc; try done.
Qed.

(** X20.  What [show-log] prints of a standalone log without [-m].  For a
    log whose record 0 is a schema, the output is the line of the schema,
    an empty line, and for each transaction record its index with the
    date and the comment of the record.  A record that fails the
    integrity check ends the command in [ovs_fatal], after the records
    before it are printed; so does a record 0 that is no schema, after
    ["record 0:"].  No file is changed. *)
Theorem show_log_standalone_output show_log_verbosity log w js0 size0 records tail :
  show_log_verbosity <= 0 →
  log_pos log = 0%nat →
  fs w !! log_name log = Some (log_record js0 size0 :: log_records records ++ tail) →
  Z.of_nat (length records) + 1 < UINT_MODULUS →
  (tail = [] ∨ ∃ rest, tail = log_corrupt :: rest) →
  ∃ fatal w',
    do_show_log_standalone show_log_verbosity log w
    = ({| tool_stdout :=
            match ovsdb_schema_from_json js0 with
            | inr schema =>
                "record 0:" ++ show_log_schema schema ++ newline
                ++ show_log_lines 1 records
            | inl _ => "record 0:"
            end;
          tool_fatal := fatal |}, w')
    ∧ fs w' = fs w
    ∧ match ovsdb_schema_from_json js0 with
      | inr _ => fatal = None ↔ tail = []
      | inl error => fatal = Some error
      end.
Proof.
  intros Hquiet Hpos Hfile Hwrap Htail.
  unfold do_show_log_standalone, log_file_length. unfold sys_bind at 1.
  rewrite Hfile. cbn [from_option id length].
  replace (S (length (log_records records ++ tail)))
    with (length records + S (length tail))%nat
    by (rewrite length_app; unfold log_records; rewrite length_fmap; lia).
  set (fuel := (length records + S (length tail))%nat).
  cbn [do_show_log_standalone_loop]. unfold sys_bind at 1.
  erewrite log_read_record; [|done|by rewrite Hpos].
  rewrite bool_decide_eq_true_2 by done.
  destruct (ovsdb_schema_from_json js0) as [error|schema].
  { by eexists _, _. }
  change (uint (0 + 1)) with 1. subst fuel.
  unfold sys_bind at 1.
  match goal with
  | |- context [do_show_log_standalone_loop _ _ _ _ _ ?log1 ?w1] =>
      destruct (show_log_loop_quiet show_log_verbosity ∅ (Some schema) records 1
                  (S (length tail)) log1 w1 [log_record js0 size0] tail)
        as (log' & -> & Hname & Hpos')
  end; try done; try lia.
  { by rewrite Hpos. }
  cbn [log_name log_pos do_show_log_standalone_loop] in *. unfold sys_bind at 1.
  destruct Htail as [->|[rest ->]].
  - erewrite log_read_eof.
    2: { rewrite world_reads_fs. cbn [world_emit fs]. rewrite Hname. exact Hfile. }
    2: { apply lookup_ge_None_2. rewrite Hpos', Hpos, app_nil_r. cbn [length].
         unfold log_records. rewrite length_fmap. lia. }
    eexists _, _. unfold sys_ret, tool_then, tool_ok. cbn [tool_stdout tool_fatal].
    split; [by rewrite string_app_empty_r, !string_app_assoc|].
    split; [unfold world_emit; cbn [fs]; by rewrite world_reads_fs|done].
  - erewrite log_read_corrupt.
    2: { rewrite world_reads_fs. cbn [world_emit fs]. rewrite Hname. exact Hfile. }
    2: { rewrite Hpos', Hpos. cbn [Nat.add]. rewrite lookup_cons.
         rewrite lookup_app_r; unfold log_records; rewrite length_fmap; [|lia].
         by rewrite Nat.sub_diag. }
    eexists _, _. unfold sys_ret, tool_then, ovs_fatal. cbn [tool_stdout tool_fatal].
    split; [by rewrite string_app_empty_r, !string_app_assoc|].
    split; [unfold world_emit; cbn [fs]; by rewrite world_reads_fs|done].
Qed.

(** X21.  [show-log] shows a record of the file layer with its time and
    comment.  The record that [ovsdb_file_txn_commit] appends, with a
    comment, at the wall-clock time [now] is printed with that comment
    and, if [now] is at least [INT32_MAX], with that time; a time below
    [INT32_MAX] milliseconds is taken for seconds and shown a thousand
    times later. *)
Theorem show_log_renders_commit members comment durable log log' w w' :
  ovsdb_file_txn_commit (JSON_OBJECT <$> members) (Some comment) durable log w
    = ((None, log'), w') →
  let now := llong (wall_clock w (wall_reads w)) in
  0 <= now →
  ∃ records record size,
    fs w' !! log_name log = Some (records ++ [log_record record size])
    ∧ show_log_record record
      = (xastrftime_msec " %Y-%m-%d %H:%M:%S.###"
           (if decide (now < INT32_MAX) then now * 1000 else now) true
         ++ " " ++ dquote ++ comment ++ dquote ++ newline)%string.
Proof.
  rewrite txn_commit_object. intros Hrun now Hepoch.
  assert (show_log_date_msec now = if decide (now < INT32_MAX) then now * 1000 else now)
    as Hdate.
  { unfold show_log_date_msec.
    pose proof (llong_range (wall_clock w (wall_reads w))) as Hnow. fold now in Hnow.
    case_decide as Hlt.
    - assert ((now <? INT32_MAX) = true) as -> by by apply Z.ltb_lt.
      apply llong_id. unfold INT32_MAX, LLONG_MIN, LLONG_MAX in *. lia.
    - assert ((now <? INT32_MAX) = false) as -> by (apply Z.ltb_ge; lia). done. }
  revert Hrun. sys_unfold. world_simpl. fold now.
  sys_cases; intros [= <- <-]; world_simpl; rewrite lookup_insert_eq;
    eexists _, _, _; (split; [done|]); unfold show_log_record, txn_commit_members;
    rewrite shash_replace_eq, shash_replace_ne, shash_replace_eq by done;
    by rewrite Hdate, !string_app_assoc.
Qed.

Lemma print_db_changes_rows_names show_log_verbosity table table_schema rows :
  ∀ out names,
    (foldl
       (λ '(out, names) n2,
          let '(text, names) :=
            print_db_changes_row show_log_verbosity table table_schema names n2 in
          ((out ++ text)%string, names))
       (out, names) rows).2
    = foldl names_step names rows.
Proof.
  induction rows as [|[row_uuid columns] rows IH]; intros out names; [done|].
  cbn [foldl]. unfold names_step at 2.
  destruct (print_db_changes_row show_log_verbosity table table_schema names
              (row_uuid, columns)) as [text names'] eqn:Hrow.
  rewrite IH. f_equal. cbn [fst snd].
  revert Hrow. unfold print_db_changes_row, name_after.
  destruct columns as [| | |object| | | |]; intros [= <- <-]; cbn [fst snd].
  - done.
  - destruct (names !! row_uuid) as [old_name|] eqn:Hold;
      [by rewrite insert_id|by rewrite delete_id].
  - destruct (names !! row_uuid) as [old_name|] eqn:Hold;
      [by rewrite insert_id|by rewrite delete_id].
  - destruct (names !! row_uuid) as [old_name|] eqn:Hold;
      destruct (shash_find_data object "name") as [new_name_json|];
      cbn [default from_option id]; rewrite ?insert_delete_eq; try done.
    + case_bool_decide as Hsame; cbn [negb]; [|done]. rewrite Hsame in Hold.
      symmetry. by apply insert_id.
    + symmetry. by apply insert_id.
  - destruct (names !! row_uuid) as [old_name|] eqn:Hold;
      [by rewrite insert_id|by rewrite delete_id].
  - destruct (names !! row_uuid) as [old_name|] eqn:Hold;
      [by rewrite insert_id|by rewrite delete_id].
  - destruct (names !! row_uuid) as [old_name|] eqn:Hold;
      [by rewrite insert_id|by rewrite delete_id].
  - destruct (names !! row_uuid) as [old_name|] eqn:Hold;
      [by rewrite insert_id|by rewrite delete_id].
Qed.

Lemma print_db_changes_table_names show_log_verbosity schema acc n1 :
  (print_db_changes_table show_log_verbosity schema acc n1).2
  = foldl names_step acc.2
      (if shown_table n1 then match n1.2 with JSON_OBJECT rows => rows | _ => [] end
       else [])
  ∧ (shown_table n1 = false →
     print_db_changes_table show_log_verbosity schema acc n1 = acc).
Proof.
  destruct acc as [out names], n1 as [table rows].
  unfold print_db_changes_table, shown_table. cbn [fst snd].
  destruct rows as [| | |rows| | | |]; rewrite ?andb_false_r; try done.
  destruct (starts_with_underscore table); cbn [negb andb]; [done|].
  split; [apply print_db_changes_rows_names|done].
Qed.

Lemma print_db_changes_tables_shown show_log_verbosity schema tables : ∀ acc,
  foldl (print_db_changes_table show_log_verbosity schema) acc tables
  = foldl (print_db_changes_table show_log_verbosity schema) acc
      (List.filter shown_table tables)
  ∧ (foldl (print_db_changes_table show_log_verbosity schema) acc tables).2
    = foldl names_step acc.2 (shown_rows tables).
Proof.
  unfold shown_rows.
  induction tables as [|n1 tables IH]; intros acc; [done|].
  destruct (print_db_changes_table_names show_log_verbosity schema acc n1)
    as [Hnames Hskip].
  cbn [foldl List.filter]. destruct (shown_table n1) eqn:Hshown.
  - cbn [foldl fmap list_fmap mjoin list_join]. rewrite foldl_app, <- Hnames.
    apply IH.
  - rewrite Hskip by done. apply IH.
Qed.

Lemma print_db_changes_fold show_log_verbosity tables names schema :
  print_db_changes show_log_verbosity tables names schema
  = foldl (print_db_changes_table show_log_verbosity schema) ("", names) tables.
Proof.
  unfold print_db_changes. generalize ("", names).
  induction tables as [|[table rows] tables IH]; intros [out names']; [done|].
  cbn [foldl]. rewrite <- IH. done.
Qed.

(** X22.  What [print_db_changes] shows of a transaction record.  A member
    whose name begins with an underscore ([_date], [_comment]) or whose
    value is not an object is passed over: the record is shown as the
    record without such members is, and a record that has no other
    members prints nothing and leaves the names of the rows as they
    were. *)
Theorem print_db_changes_shown show_log_verbosity tables names schema :
  print_db_changes show_log_verbosity tables names schema
  = print_db_changes show_log_verbosity (List.filter shown_table tables) names schema
  ∧ ((∀ n1, n1 ∈ tables → shown_table n1 = false) →
     print_db_changes show_log_verbosity tables names schema = ("", names)).
Proof.
  rewrite !print_db_changes_fold. split; [apply print_db_changes_tables_shown|].
  intros Hnone. rewrite (proj1 (print_db_changes_tables_shown _ _ _ _)).
  assert (List.filter shown_table tables = []) as ->; [|done].
  induction tables as [|n1 tables IH]; [done|]. cbn.
  rewrite Hnone by by left. apply IH. intros n1' Hin. apply Hnone. by right.
Qed.

Lemma lookup_foldl_names_step rows : ∀ names row_uuid,
  NoDup rows.*1 →
  foldl names_step names rows !! row_uuid
  = match shash_find_data rows row_uuid with
    | Some columns => name_after (names !! row_uuid) row_uuid columns
    | None => names !! row_uuid
    end.
Proof.
  induction rows as [|[u columns] rows IH]; intros names row_uuid Hnodup; [done|].
  apply NoDup_cons in Hnodup as [Hu Hnodup]. cbn [fst] in Hu.
  cbn [foldl shash_find_data]. rewrite IH by done.
  destruct (decide (u = row_uuid)) as [->|Hne].
  - apply shash_find_data_None in Hu as ->. unfold names_step. cbn [fst snd].
    destruct (name_after _ _ _); [apply lookup_insert_eq|apply lookup_delete_eq].
  - assert (names_step names (u, columns) !! row_uuid = names !! row_uuid) as ->; [|done].
    unfold names_step. cbn [fst snd].
    destruct (name_after _ _ _); [by apply lookup_insert_ne|by apply lookup_delete_ne].
Qed.

(** X23.  The names that [print_db_changes] keeps for the rows.  After a
    record in which no row is changed twice, a row that the record does
    not change has the name it had; a row that it deletes has none; a
    row that it inserts or modifies has the value of the column [name]
    if the change sets it, else the name it had, else the first eight
    characters of its UUID. *)
Theorem print_db_changes_names show_log_verbosity tables names schema row_uuid :
  NoDup (shown_rows tables).*1 →
  (print_db_changes show_log_verbosity tables names schema).2 !! row_uuid
  = match shash_find_data (shown_rows tables) row_uuid with
    | Some columns => name_after (names !! row_uuid) row_uuid columns
    | None => names !! row_uuid
    end.
Proof.
  intros Hnodup.
  rewrite print_db_changes_fold.
  rewrite (proj2 (print_db_changes_tables_shown _ _ _ _)).
  by apply lookup_foldl_names_step.
Qed.

(** *** What decoding and replaying keep *)

Lemma txn_row_from_json_schema txn table converting row_uuid js txn' error :
  ovsdb_file_txn_row_from_json txn table converting row_uuid js = (txn', error) →
  db_schema (txn_db txn') = db_schema (txn_db txn).
Proof.
  unfold ovsdb_file_txn_row_from_json.
  destruct (ovsdb_table_get_row txn table row_uuid) as [row|].
  - destruct js; try (by intros [= <- <-]);
      destruct (ovsdb_file_update_row_from_json _ _ _) as [rw error']; by intros [= <- <-].
  - destruct js; try (by intros [= <- <-]);
      destruct (ovsdb_file_update_row_from_json _ _ _) as [new [error'|]];
      by intros [= <- <-].
Qed.

Lemma txn_table_rows_schema table converting js nodes : ∀ txn txn' error,
  txn_table_rows txn table converting js nodes = (txn', error) →
  db_schema (txn_db txn') = db_schema (txn_db txn).
Proof.
  induction nodes as [|[uuid_string row_json] nodes IH]; intros txn txn' error;
    cbn [txn_table_rows]; [by intros [= <- <-]|].
  destruct (uuid_from_string uuid_string) as [row_uuid|]; [|by intros [= <- <-]].
  destruct (ovsdb_file_txn_row_from_json _ _ _ _ _) as [txn1 [error1|]] eqn:Hrow;
    apply txn_row_from_json_schema in Hrow.
  - by intros [= <- <-].
  - intros Hrest%IH. congruence.
Qed.

Lemma txn_tables_schema db converting js nodes : ∀ txn txn' error,
  txn_tables db txn converting js nodes = (txn', error) →
  db_schema (txn_db txn') = db_schema (txn_db txn).
Proof.
  induction nodes as [|[table_name node_json] nodes IH]; intros txn txn' error;
    cbn [txn_tables]; [by intros [= <- <-]|].
  destruct (shash_find_data (db_tables db) table_name) as [table|].
  - unfold ovsdb_file_txn_table_from_json.
    destruct node_json as [| | |object| | | |];
      try (by intros [= <- <-]).
    destruct (txn_table_rows _ _ _ _ _) as [txn1 [error1|]] eqn:Hrows;
      apply txn_table_rows_schema in Hrows.
    + by intros [= <- <-].
    + intros Hrest%IH. congruence.
  - destruct (_ && _); [by apply IH|].
    destruct (_ || _); [by apply IH|]. by intros [= <- <-].
Qed.

Lemma txn_from_json_schema db js converting txn :
  ovsdb_file_txn_from_json db js converting = inr txn →
  db_schema (txn_db txn) = db_schema db.
Proof.
  unfold ovsdb_file_txn_from_json. destruct js as [| | |object| | | |]; try done.
  destruct (txn_tables _ _ _ _ _) as [txn' [error|]] eqn:Hrun; [done|].
  intros [= <-]. by apply txn_tables_schema in Hrun.
Qed.

Lemma log_read_keeps log r log' w w' :
  ovsdb_log_read log w = ((r, log'), w') →
  fs w' = fs w ∧ log_name log' = log_name log.
Proof.
  sys_unfold. world_simpl.
  destruct (default [] (fs w !! log_name log) !! log_pos log) as [[payload size|]|];
    by intros [= <- <- <-].
Qed.

Lemma replay_keeps fuel : ∀ converting st w error st' w',
  ovsdb_file_open_replay fuel converting st w = ((error, st'), w') →
  fs w' = fs w
  ∧ db_schema (replay_db st') = db_schema (replay_db st)
  ∧ log_name (replay_log st') = log_name (replay_log st).
Proof.
  induction fuel as [|fuel IH]; intros converting st w error st' w'.
  { cbn. unfold sys_ret. by intros [= <- <- <-]. }
  cbn [ovsdb_file_open_replay]. unfold sys_bind at 1.
  destruct (ovsdb_log_read (replay_log st) w) as [[[error1|[js|]] log] w1] eqn:Hread;
    apply log_read_keeps in Hread as [Hfs Hname].
  - unfold sys_ret. by intros [= <- <- <-].
  - destruct (ovsdb_file_txn_from_json _ _ _) as [error1|txn] eqn:Htxn.
    { sys_unfold. by intros [= <- <- <-]. }
    apply txn_from_json_schema in Htxn.
    unfold ovsdb_txn_commit.
    destruct (ovsdb_txn_precommit txn) as [error1|].
    { sys_unfold. by intros [= <- <- <-]. }
    intros (Hfs' & Hschema & Hname')%IH. cbn [replay_db replay_log] in *.
    split_and!; congruence.
  - unfold sys_ret. by intros [= <- <- <-].
Qed.

Lemma open_log_keeps file_name open_mode locking (logp schemap : bool) w r w' :
  open_mode ≠ OVSDB_LOG_CREATE_EXCL →
  ovsdb_file_open_log file_name open_mode locking logp schemap w = (r, w') →
  fs w' = fs w
  ∧ match r with
    | inl _ => True
    | inr (log_opt, schema_opt) =>
        (∃ js0 size0 rest,
           fs w !! file_name = Some (log_record js0 size0 :: rest)
           ∧ match schema_opt with
             | Some schema => schemap = true ∧ ovsdb_schema_from_json js0 = inr schema
             | None => schemap = false
             end)
        ∧ match log_opt with
          | Some log => logp = true ∧ log_name log = file_name
          | None => logp = false
          end
    end.
Proof.
  intros Hmode. sys_unfold. world_simpl.
  destruct (io_fault w (io_ops w)); [by intros [= <- <-]|].
  destruct (fs w !! file_name) as [records|] eqn:Hfile.
  2:{ destruct open_mode; [| |done]; by intros [= <- <-]. }
  assert (∀ A (x y : A),
            match open_mode with
            | OVSDB_LOG_CREATE_EXCL => x
            | _ => y
            end = y) as Hmatch by by destruct open_mode.
  rewrite Hmatch. world_simpl. rewrite Hfile. unfold default. cbn [from_option id].
  destruct records as [|[js0 size0|] rest]; cbn [lookup list_lookup];
    try by intros [= <- <-].
  destruct schemap; cbv beta iota.
  - destruct (ovsdb_schema_from_json js0) as [error|schema] eqn:Hschema; cbv beta iota;
      [by intros [= <- <-]|].
    destruct logp; cbv beta iota; intros [= <- <-]; world_simpl; (split; [done|]);
      (split; [by eexists _, _, _|done]).
  - destruct logp; cbv beta iota; intros [= <- <-]; world_simpl; (split; [done|]);
      (split; [by eexists _, _, _|done]).
Qed.

Lemma open_keeps file_name alternate_schema read_only locking (filep : bool) w r w' :
  ovsdb_file_open file_name alternate_schema read_only locking filep w = (r, w') →
  fs w' = fs w
  ∧ match r with
    | inl _ => True
    | inr (db, file_opt) =>
        (∃ js0 size0 rest,
           fs w !! file_name = Some (log_record js0 size0 :: rest)
           ∧ match alternate_schema with
             | Some schema => db_schema db = schema
             | None => ovsdb_schema_from_json js0 = inr (db_schema db)
             end)
        ∧ match file_opt with
          | Some file =>
              filep = true ∧ file_db file = db ∧ log_name (file_log file) = file_name
          | None => filep = false
          end
    end.
Proof.
  unfold ovsdb_file_open. unfold sys_bind at 1.
  destruct (ovsdb_file_open_log _ _ _ _ _ w) as [r1 w1] eqn:Hlog.
  apply open_log_keeps in Hlog as [Hfs1 Hr1]; [|by destruct read_only].
  destruct r1 as [error|[[log|] schema_opt]]; [by intros [= <- <-]| |by intros [= <- <-]].
  destruct Hr1 as [(js0 & size0 & rest & Hfile & Hschema) [_ Hname]].
  destruct (match schema_opt with Some _ => schema_opt | None => alternate_schema end)
    as [schema|] eqn:Hs; [|by intros [= <- <-]].
  assert (match alternate_schema with
          | Some alternate => schema = alternate
          | None => ovsdb_schema_from_json js0 = inr schema
          end) as Hchosen.
  { destruct schema_opt as [schema'|].
    - destruct Hschema as [Halt%bool_decide_eq_true Hparse]. subst alternate_schema.
      by injection Hs as ->.
    - apply bool_decide_eq_false in Hschema.
      destruct alternate_schema as [alternate|]; [by injection Hs as ->|done]. }
  unfold sys_bind at 1. unfold sys_bind at 1.
  destruct (ovsdb_file_open_replay _ _ _ w1) as [[error st] w2] eqn:Hreplay.
  apply replay_keeps in Hreplay as (Hfs2 & Hdb & Hname2). cbn [replay_db replay_log] in *.
  assert (∃ js0 size0 rest,
            fs w !! file_name = Some (log_record js0 size0 :: rest)
            ∧ match alternate_schema with
              | Some schema => db_schema (replay_db st) = schema
              | None => ovsdb_schema_from_json js0 = inr (db_schema (replay_db st))
              end) as Hrecord0.
  { exists js0, size0, rest. split; [done|]. rewrite Hdb. cbn [ovsdb_create db_schema].
    by destruct alternate_schema. }
  destruct error as [error|], filep; sys_unfold; intros [= <- <-]; world_simpl;
    file_simpl; (split; [congruence|]); (split; [done|]); split_and?; congruence.
Qed.

(** X24.  [ovsdb_file_open] only reads.  Whatever the mode and whatever the
    records, no file is changed by opening a database file, also when
    the replay stops at a record.  A database that is returned is built
    over the alternate schema if one is given and over the schema that
    record 0 parses to otherwise, and the [ovsdb_file] is returned
    exactly when the caller asks for it: it holds that database and a
    log of that path. *)
Theorem open_only_reads file_name alternate_schema read_only locking (filep : bool) w r w' :
  ovsdb_file_open file_name alternate_schema read_only locking filep w = (r, w') →
  fs w' = fs w
  ∧ match r with
    | inl _ => True
    | inr (db, file_opt) =>
        (∃ js0 size0 rest,
           fs w !! file_name = Some (log_record js0 size0 :: rest)
           ∧ match alternate_schema with
             | Some schema => db_schema db = schema
             | None => ovsdb_schema_from_json js0 = inr (db_schema db)
             end)
        ∧ match file_opt with
          | Some file =>
              filep = true ∧ file_db file = db ∧ log_name (file_log file) = file_name
          | None => filep = false
          end
    end.
Proof. apply open_keeps. Qed.

(** *** The commands that write a database *)

Lemma foldl_invariant {A B} (P : A → Prop) (f : A → B → A) (l : list B) : ∀ a,
  (∀ a b, P a → P (f a b)) → P a → P (foldl f a l).
Proof. induction l as [|b l IH]; intros a Hf Ha; [done|]. cbn. apply IH; auto. Qed.

Lemma add_row_keeps_object ftxn old new changed :
  (∃ members, default json_object_create (ftxn_json ftxn) = JSON_OBJECT members) →
  ∃ members,
    default json_object_create (ftxn_json (ovsdb_file_txn_add_row ftxn old new changed))
    = JSON_OBJECT members.
Proof.
  intros [members Hmembers]. unfold ovsdb_file_txn_add_row.
  destruct (add_row_json old new changed) as [row|]; [|by eauto].
  destruct (match new with Some _ => new | None => old end) as [new_or_old|]; [|by eauto].
  destruct (bool_decide _); cbn [ftxn_json default from_option id]; rewrite Hmembers;
    cbn [json_object_put]; by eauto.
Qed.

Lemma save_copy_rows_object db :
  ∃ members, default json_object_create (ftxn_json (save_copy_rows db)) = JSON_OBJECT members.
Proof.
  unfold save_copy_rows.
  apply (foldl_invariant
           (λ ftxn, ∃ members,
              default json_object_create (ftxn_json ftxn) = JSON_OBJECT members));
    [|by exists []].
  intros ftxn [name table] Hftxn.
  apply (foldl_invariant
           (λ ftxn, ∃ members,
              default json_object_create (ftxn_json ftxn) = JSON_OBJECT members));
    [|done].
  intros ftxn' [u row]. apply add_row_keeps_object.
Qed.

(** What [ovsdb_file_save_copy__] writes into a fresh log. *)
Lemma save_copy_snapshot log comment db log' w w' :
  log_pos log = 0%nat →
  ovsdb_file_save_copy__ log (Some comment) db w = ((None, log'), w') →
  ∃ members,
    let record0 := ovsdb_schema_to_json (db_schema db) in
    let snapshot := JSON_OBJECT members in
    fs w' = <[log_name log := [log_record record0 (ovsdb_log_record_size record0);
                               log_record snapshot (ovsdb_log_record_size snapshot)]]>
              (fs w)
    ∧ shash_find_data members "_comment" = Some (JSON_STRING comment)
    ∧ log_name log' = log_name log.
Proof.
  intros Hpos Hrun. destruct (save_copy_rows_object db) as [members Hmembers].
  exists (shash_replace (shash_replace members "_comment" (JSON_STRING comment)) "_date"
            (JSON_INTEGER (llong (wall_clock w (wall_reads w))))).
  revert Hrun. sys_unfold. world_simpl. rewrite Hpos, Hmembers.
  cbn [json_object_put json_object_put_string].
  sys_cases; intros [= <- <-]; world_simpl;
    rewrite ?lookup_insert_eq; cbn [default from_option id take app];
    rewrite ?lookup_insert_eq, ?insert_insert_eq; cbn [default from_option id take app];
    (split; [done|]); (split; [|done]);
    by rewrite shash_replace_ne, shash_replace_eq.
Qed.

Lemma save_copy_only_log log comment db r w w' :
  ovsdb_file_save_copy__ log comment db w = (r, w') →
  delete (log_name log) (fs w') = delete (log_name log) (fs w)
  ∧ log_name r.2 = log_name log.
Proof.
  sys_unfold. world_simpl.
  sys_cases; intros [= <- <-]; world_simpl; by rewrite ?delete_insert_eq.
Qed.

Lemma log_create_outcome file_name locking r w w' :
  ovsdb_log_open file_name OVSDB_LOG_CREATE_EXCL locking w = (r, w') →
  match r with
  | inl _ => fs w' = fs w
  | inr log =>
      fs w !! file_name = None
      ∧ fs w' = <[file_name := []]> (fs w)
      ∧ log_name log = file_name
      ∧ log_pos log = 0%nat
  end.
Proof.
  sys_unfold. world_simpl.
  destruct (io_fault w (io_ops w)); [by intros [= <- <-]|].
  destruct (fs w !! file_name); by intros [= <- <-].
Qed.

(** What [ovsdb_file_save_copy] leaves. *)
Lemma save_copy_outcome file_name comment db error w w' :
  ovsdb_file_save_copy file_name (Some comment) db w = (error, w') →
  match error with
  | Some _ => fs w' = fs w
  | None =>
      fs w !! file_name = None
      ∧ ∃ members,
          let record0 := ovsdb_schema_to_json (db_schema db) in
          let snapshot := JSON_OBJECT members in
          fs w' = <[file_name := [log_record record0 (ovsdb_log_record_size record0);
                                  log_record snapshot (ovsdb_log_record_size snapshot)]]>
                    (fs w)
          ∧ shash_find_data members "_comment" = Some (JSON_STRING comment)
  end.
Proof.
  unfold ovsdb_file_save_copy. unfold sys_bind at 1.
  destruct (ovsdb_log_open _ _ _ w) as [[error1|log] w1] eqn:Hopen;
    apply log_create_outcome in Hopen.
  { unfold sys_ret. by intros [= <- <-]. }
  destruct Hopen as (Hnone & Hfs1 & Hname & Hpos).
  unfold sys_bind at 1.
  destruct (ovsdb_file_save_copy__ log (Some comment) db w1) as [[error1 log1] w2] eqn:Hcopy.
  pose proof (save_copy_only_log _ _ _ _ _ _ Hcopy) as [Hothers Hname1].
  rewrite Hname, Hfs1, delete_insert_eq, (delete_id (fs w)) in Hothers by done.
  destruct error1 as [error1|].
  - sys_unfold. world_simpl. intros [= <- <-]. world_simpl. congruence.
  - apply save_copy_snapshot in Hcopy as (members & Hfs2 & Hcomment & _); [|done].
    cbn zeta in Hfs2. rewrite Hname, Hfs1, insert_insert_eq in Hfs2.
    sys_unfold. world_simpl. destruct (io_fault w2 (io_ops w2)); intros [= <- <-];
      world_simpl; [congruence|]. split; [done|]. by exists members.
Qed.

(** What [ovsdb_file_compact] leaves. *)
Lemma compact_outcome file error file' w w' :
  ovsdb_file_compact file w = ((error, file'), w') →
  let name := log_name (file_log file) in
  match error with
  | Some _ => ∀ other, other ≠ (name ++ ".tmp")%string → fs w' !! other = fs w !! other
  | None =>
      ∃ members,
        let record0 := ovsdb_schema_to_json (db_schema (file_db file)) in
        let snapshot := JSON_OBJECT members in
        fs w' = <[name := [log_record record0 (ovsdb_log_record_size record0);
                           log_record snapshot (ovsdb_log_record_size snapshot)]]>
                  (delete (name ++ ".tmp")%string (fs w))
        ∧ shash_find_data members "_comment"
          = Some (JSON_STRING
                    (compact_comment
                       (llong (wall_clock w (wall_reads w)) - last_compact file)
                       (n_transactions file) (ovsdb_log_get_offset (file_log file))))
  end.
Proof.
  intros Hrun name. destruct (save_copy_rows_object (file_db file)) as [members Hmembers].
  destruct error as [error|].
  - intros other Hother. subst name.
    assert ((log_name (file_log file) ++ ".tmp")%string ≠ other) as Hne by congruence.
    revert Hrun. sys_unfold. world_simpl.
    sys_cases; intros [= <- <- <-]; world_simpl; by rewrite ?lookup_insert_ne by exact Hne.
  - exists (shash_replace
              (shash_replace members "_comment"
                 (JSON_STRING
                    (compact_comment
                       (llong (wall_clock w (wall_reads w)) - last_compact file)
                       (n_transactions file) (ovsdb_log_get_offset (file_log file)))))
              "_date" (JSON_INTEGER (llong (wall_clock w (S (wall_reads w)))))).
    revert Hrun. sys_unfold. world_simpl. rewrite Hmembers.
    cbn [json_object_put json_object_put_string].
    sys_cases; intros [= <- <-]; world_simpl.
    rewrite !lookup_insert_eq. cbn [default from_option id take app].
    rewrite !insert_insert_eq, delete_insert_eq.
    split; [done|]. by rewrite shash_replace_ne, shash_replace_eq.
Qed.

(** X25.  [compact] and [convert] with a target.  The source is opened
    read-only and no file but the target is changed.  On success the
    target, which did not exist, holds two records: the schema of the
    database read (the new schema for [convert]) and one transaction
    record with the comment of the command; nothing is printed.  On any
    failure the command ends in [ovs_fatal] with the files as they were:
    a target that exists is refused and a target begun is removed. *)
Theorem compact_or_convert_to_target src_name_ dst_name_ new_schema comment w exit w' :
  compact_or_convert src_name_ (Some dst_name_) new_schema comment w = (exit, w') →
  let src_name := follow_symlinks src_name_ in
  let dst_name := follow_symlinks dst_name_ in
  tool_stdout exit = ""
  ∧ match tool_fatal exit with
    | Some _ => fs w' = fs w
    | None =>
        ∃ db w1 js0 size0 rest members,
          w' = (ovsdb_destroy db w1).2
          ∧ fs w !! src_name = Some (log_record js0 size0 :: rest)
          ∧ match new_schema with
            | Some schema => db_schema db = schema
            | None => ovsdb_schema_from_json js0 = inr (db_schema db)
            end
          ∧ fs w !! dst_name = None
          ∧ (let record0 := ovsdb_schema_to_json (db_schema db) in
             let snapshot := JSON_OBJECT members in
             fs w1
             = <[dst_name := [log_record record0 (ovsdb_log_record_size record0);
                              log_record snapshot (ovsdb_log_record_size snapshot)]]>
                 (fs w))
          ∧ shash_find_data members "_comment" = Some (JSON_STRING comment)
    end.
Proof.
  intros Hrun src_name dst_name. revert Hrun.
  unfold compact_or_convert. fold src_name dst_name. unfold sys_bind at 1.
  destruct (ovsdb_file_open src_name new_schema true 0 true w) as [r w1] eqn:Hopen.
  apply open_keeps in Hopen as [Hfs1 Hr].
  destruct r as [error|[db file_opt]]; [by intros [= <- <-]|].
  destruct Hr as [(js0 & size0 & rest & Hfile & Hschema) _].
  unfold sys_bind at 1.
  destruct (ovsdb_file_save_copy dst_name (Some comment) db w1) as [error w2] eqn:Hcopy.
  apply save_copy_outcome in Hcopy.
  destruct error as [error|].
  { intros [= <- <-]. cbn. split; [done|]. congruence. }
  destruct Hcopy as (Hnone & members & Hfs2 & Hcomment).
  unfold sys_bind, sys_ret. destruct (ovsdb_destroy db w2) as [[] w3] eqn:Hdestroy.
  intros [= <- <-]. cbn [tool_ok tool_stdout tool_fatal]. split; [done|].
  exists db, w2, js0, size0, rest, members. rewrite Hdestroy.
  cbn zeta in *. rewrite Hfs1 in Hnone, Hfs2. by split_and!.
Qed.

(** X26.  [compact] and [convert] in place.  The file is opened read-only
    with a lock and is replaced through a temporary file beside it.  On
    success it holds two records: the schema of the database read (the
    new schema for [convert]) and one transaction record, whose comment
    is the one that [ovsdb_file_compact] makes, not the comment of the
    command; the temporary file is gone.  On any failure the command
    ends in [ovs_fatal] and no file but the temporary one is changed. *)
Theorem compact_or_convert_in_place src_name_ new_schema comment w exit w' :
  compact_or_convert src_name_ None new_schema comment w = (exit, w') →
  let src_name := follow_symlinks src_name_ in
  let tmp_name := (src_name ++ ".tmp")%string in
  tool_stdout exit = ""
  ∧ match tool_fatal exit with
    | Some _ => ∀ other, other ≠ tmp_name → fs w' !! other = fs w !! other
    | None =>
        ∃ db w1 js0 size0 rest members age n_transactions size,
          w' = (ovsdb_destroy db w1).2
          ∧ fs w !! src_name = Some (log_record js0 size0 :: rest)
          ∧ match new_schema with
            | Some schema => db_schema db = schema
            | None => ovsdb_schema_from_json js0 = inr (db_schema db)
            end
          ∧ (let record0 := ovsdb_schema_to_json (db_schema db) in
             let snapshot := JSON_OBJECT members in
             fs w1
             = <[src_name := [log_record record0 (ovsdb_log_record_size record0);
                              log_record snapshot (ovsdb_log_record_size snapshot)]]>
                 (delete tmp_name (fs w)))
          ∧ shash_find_data members "_comment"
            = Some (JSON_STRING (compact_comment age n_transactions size))
    end.
Proof.
  intros Hrun src_name tmp_name. revert Hrun.
  unfold compact_or_convert. fold src_name. unfold sys_bind at 1.
  destruct (ovsdb_file_open src_name new_schema true 1 true w) as [r w1] eqn:Hopen.
  apply open_keeps in Hopen as [Hfs1 Hr].
  destruct r as [error|[db file_opt]].
  { intros [= <- <-]. cbn. split; [done|]. intros other _. by rewrite Hfs1. }
  destruct Hr as [(js0 & size0 & rest & Hfile & Hschema) Hfile_opt].
  destruct file_opt as [file|]; [|done].
  destruct Hfile_opt as (_ & Hdb & Hname).
  unfold sys_bind at 1.
  destruct (ovsdb_file_compact file w1) as [[error file'] w2] eqn:Hcompact.
  apply compact_outcome in Hcompact. cbn zeta in Hcompact.
  rewrite Hname, Hfs1 in Hcompact. fold tmp_name in Hcompact.
  destruct error as [error|].
  { intros [= <- <-]. cbn. split; [done|]. apply Hcompact. }
  destruct Hcompact as (members & Hfs2 & Hcomment).
  unfold sys_bind, sys_ret. destruct (ovsdb_destroy db w2) as [[] w3] eqn:Hdestroy.
  intros [= <- <-]. cbn [tool_ok tool_stdout tool_fatal]. split; [done|].
  exists db, w2, js0, size0, rest, members. eexists _, _, _. rewrite Hdestroy.
  rewrite Hdb in Hfs2. by split_and!.
Qed.

(** X27.  [create] and what it leaves.  With the schema of the schema file
    read, [do_create] prints nothing and succeeds exactly when the
    database file does not exist and opening, writing and syncing it
    all work; the file then holds one record, the JSON of the schema,
    and [db-name], [db-version] and [db-cksum] print the fields of the
    schema that this record parses to.  An existing file is left as it
    is.  A file that was created is not removed when the command fails
    later: it stays empty if the write fails, and complete if the sync
    fails. *)
Theorem do_create_outcome argv schema w0 w exit w' :
  let db_file_name := arg_or argv 1 default_db in
  let js := ovsdb_schema_to_json schema in
  let record := log_record js (ovsdb_log_record_size js) in
  let n := io_ops w in
  ovsdb_schema_from_file (arg_or argv 2 default_schema) w0 = (inr schema, w) →
  do_create argv w0 = (exit, w') →
  tool_stdout exit = ""
  ∧ (tool_fatal exit = None
     ↔ fs w !! db_file_name = None
       ∧ io_fault w n = false ∧ io_fault w (S n) = false ∧ io_fault w (S (S n)) = false)
  ∧ fs w'
    = match fs w !! db_file_name with
      | Some _ => fs w
      | None =>
          if io_fault w n then fs w
          else <[db_file_name := if io_fault w (S n) then [] else [record]]> (fs w)
      end
  ∧ (tool_fatal exit = None →
     io_fault w' (io_ops w') = false →
     ∀ field argv' schema',
       arg_or argv' 1 default_db = db_file_name →
       ovsdb_schema_from_json js = inr schema' →
       ∃ w'',
         do_db_field field argv' w' = (tool_ok (field schema' ++ newline), w'')
         ∧ fs w'' = fs w').
Proof.
  intros db_file_name js record n Hschema. unfold do_create. unfold sys_bind at 1.
  rewrite Hschema. fold db_file_name js. sys_unfold. world_simpl. fold n.
  destruct (io_fault w n) eqn:Hopen.
  { intros [= <- <-]. cbn. split_and!; [done| |by destruct (fs w !! db_file_name)|done].
    split; [done|]. by intros (_ & [=] & _). }
  destruct (fs w !! db_file_name) as [records|] eqn:Hfile.
  { intros [= <- <-]. cbn. split_and!; [done| |done..]. split; [done|]. by intros ([=] & _). }
  world_simpl. destruct (io_fault w (S n)) eqn:Hwrite.
  { intros [= <- <-]. cbn. split_and!; [done| |done..].
    split; [done|]. by intros (_ & _ & [=] & _). }
  world_simpl. rewrite lookup_insert_eq. cbn [default from_option id take app].
  rewrite insert_insert_eq. destruct (io_fault w (S (S n))) eqn:Hsync.
  { intros [= <- <-]. cbn. split_and!; [done| |done..].
    split; [done|]. by intros (_ & _ & _ & [=]). }
  intros [= <- <-]. cbn [tool_ok tool_stdout tool_fatal]. world_simpl.
  split_and!; [done|done|done|].
  intros _ Hio field argv' schema' Hargv Hparse.
  unfold do_db_field, ovsdb_file_read_schema. rewrite Hargv.
  sys_unfold. world_simpl. rewrite Hio, lookup_insert_eq. world_simpl.
  rewrite lookup_insert_eq. cbn [default from_option id lookup list_lookup].
  fold js. rewrite Hparse. by eexists.
Qed.

End ToolProperties.

Import Mini.

Lemma run_succeeded {A B C} (run : (option A * B) * C) :
  run.1.1 = None → run = ((None, run.1.2), run.2).
Proof. destruct run as [[error b] c]. cbn. by intros ->. Qed.

Lemma run_failed {A B C} (run : (option A * B) * C) error :
  run.1.1 = Some error → run = ((Some error, run.1.2), run.2).
Proof. destruct run as [[error' b] c]. cbn. by intros ->. Qed.

(** C8, counterexample: [INT32_MAX] fits in a 32-bit signed integer and is
    rendered as milliseconds unchanged; [INT32_MIN - 1] does not fit and is
    multiplied by 1000. *)
Lemma show_log_date_fits_counterexample :
  (INT32_MIN <= INT32_MAX <= INT32_MAX
   ∧ show_log_date_msec INT32_MAX ≠ INT32_MAX * 1000
   ∧ show_log_record (JSON_OBJECT [("_date", JSON_INTEGER INT32_MAX)])
     = (" @2147483647" ++ newline)%string)
  ∧ (¬ (INT32_MIN <= INT32_MIN - 1 <= INT32_MAX)
     ∧ show_log_date_msec (INT32_MIN - 1) ≠ INT32_MIN - 1
     ∧ show_log_record (JSON_OBJECT [("_date", JSON_INTEGER (INT32_MIN - 1))])
       = (" @-2147483649000" ++ newline)%string).
Proof.
  split; split_and!; try (by vm_compute); unfold INT32_MIN, INT32_MAX; lia.
Qed.

Lemma show_log_date_scaling_witness :
  show_log_date_msec 1500000000 = 1500000000000
  ∧ (∃ rest,
       show_log_record (JSON_OBJECT [("_date", JSON_INTEGER 1500000000)])
       = (xastrftime_msec " %Y-%m-%d %H:%M:%S.###" 1500000000000 true ++ rest)%string)
  ∧ show_log_date_msec (-9223372036854775807) = 1000.
Proof.
  destruct (show_log_date_scaling [("_date", JSON_INTEGER 1500000000)] 1500000000
              eq_refl) as (_ & Hexact & _ & Hshown).
  destruct (show_log_date_scaling [("_date", JSON_INTEGER (-9223372036854775807))]
              (-9223372036854775807) eq_refl) as (Hwrapped & _).
  split_and!.
  - apply Hexact; [unfold INT32_MAX|unfold LLONG_MIN]; lia.
  - exact Hshown.
  - rewrite Hwrapped. reflexivity.
Defined.

(** C1, counterexample: scenario S4.  A log is opened, compacted and
    opened again.  The compacted log holds the schema record, of 151
    bytes, and one transaction record, of 184 bytes; the [snapshot_size]
    after the second opening is 335, the two together, not the 184 bytes
    of record 1. *)
Lemma snapshot_size_record_1_counterexample :
  s4_compacted.1.1 = None
  ∧ entry_size <$> default [] (fs s4_compacted.2 !! "db") = [151; 184]
  ∧ opened_snapshot_size s4_reopened.1 = Some 335
  ∧ 335 ≠ 184.
Proof. split_and!; [reflexivity..|done]. Qed.

Lemma snapshot_size_is_offset_behind_record_1_witness :
  ∃ db file w',
    ovsdb_file_open "db" None false 0 true compacted_world = (inr (db, Some file), w')
    ∧ snapshot_size file = 151 + 120.
Proof.
  apply (snapshot_size_is_offset_behind_record_1 "db" None false 0 compacted_world
           schema_json 151 schema snapshot_record 120 db0 []).
  - reflexivity.
  - reflexivity.
  - reflexivity.
  - exists (decoded db0 snapshot_record). split; reflexivity.
  - reflexivity.
Defined.

Lemma commit_compacts_iff_gate_witness :
  compactions_started (ovsdb_file_commit grown_file txn_modify true (grown_world no_fault)).2
  = S (compactions_started (grown_world no_fault)).
Proof.
  set (w := grown_world no_fault).
  set (run := ovsdb_file_commit grown_file txn_modify true w).
  assert (ftxn_json (commit_ftxn txn_modify) = Some modify_json) as Hjs
    by (vm_compute; reflexivity).
  assert (modify_appended w = ((None, (modify_appended w).1.2), (modify_appended w).2))
    as Happend by (apply run_succeeded; vm_compute; reflexivity).
  assert (run = (run.1, run.2)) as Hrun by (by destruct run).
  apply (proj2 (commit_compacts_iff_gate grown_file txn_modify true modify_json _ w _ _ _
                  Hjs Happend Hrun)).
  vm_compute. split_and!; discriminate.
Defined.

(** C4, counterexample: [ovsdb_file_compact] is called on an open file
    whose [next_compact] is 4000, and [replace_start] fails.  The error is
    returned and [next_compact] is still 4000: it is no reading of either
    clock plus [COMPACT_RETRY_MSEC]. *)
Lemma compact_failure_retry_counterexample :
  let run := ovsdb_file_compact grown_file (grown_world first_fails) in
  run.1.1 = Some (ovsdb_io_error "replace_start failed")
  ∧ next_compact run.1.2 = 4000
  ∧ ∀ n, 4000 ≠ wall_clock (grown_world first_fails) n + COMPACT_RETRY_MSEC
         ∧ 4000 ≠ mono_clock (grown_world first_fails) n + COMPACT_RETRY_MSEC.
Proof.
  split_and!; [reflexivity..|].
  intros n. cbn [grown_world clock_world wall_clock mono_clock].
  unfold COMPACT_RETRY_MSEC. lia.
Qed.

Lemma compact_failure_witness :
  (∃ w', ovsdb_file_compact grown_file (grown_world third_fails)
         = ((Some (ovsdb_wrap_error (ovsdb_io_error "write failed")
                     "writing transaction failed"), grown_file), w')
         ∧ fs w' !! "db" = fs (grown_world third_fails) !! "db")
  ∧ (let run := ovsdb_file_compact grown_file (grown_world first_fails) in
     run.1.2 = grown_file ∧ fs run.2 !! "db" = fs (grown_world first_fails) !! "db")
  ∧ (∃ file' w',
       ovsdb_file_commit grown_file txn_modify true (grown_world third_fails)
       = ((None, file'), w')
       ∧ next_compact file' = 5001 + COMPACT_RETRY_MSEC
       ∧ last_compact file' = 1000
       ∧ n_transactions file' = 150
       ∧ head (trace w')
         = Some (compact_warning "db" (ovsdb_io_error "replace_start failed"))).
Proof.
  destruct compact_failure as (Hstep & Hcompact & Hcommit). split_and!.
  - apply (Hstep grown_file (grown_world third_fails) 2%nat); [lia|reflexivity|].
    intros [|[|j]] Hj; [reflexivity|reflexivity|lia].
  - intros run.
    apply (Hcompact grown_file (ovsdb_io_error "replace_start failed") run.1.2
             (grown_world first_fails) run.2).
    apply run_failed. vm_compute; reflexivity.
  - set (w := grown_world third_fails).
    set (w1 := (modify_appended w).2).
    set (log' := (modify_appended w).1.2).
    set (appended :=
           {| file_db := file_db grown_file; file_log := log';
              last_compact := last_compact grown_file;
              next_compact := next_compact grown_file;
              n_transactions := uint (n_transactions grown_file + 1);
              snapshot_size := snapshot_size grown_file |}).
    set (compacted := ovsdb_file_compact appended (time_msec w1).2).
    destruct (Hcommit grown_file txn_modify true modify_json log'
                (ovsdb_io_error "replace_start failed") compacted.1.2 w w1 compacted.2)
      as (file' & w' & Hrun & Hnext & Hlast & Hcount & _ & Htrace).
    + vm_compute; reflexivity.
    + apply run_succeeded. vm_compute; reflexivity.
    + by vm_compute.
    + by vm_compute.
    + by vm_compute.
    + by vm_compute.
    + apply run_failed. vm_compute; reflexivity.
    + by vm_compute.
    + exists file', w'.
      split_and!; [exact Hrun|exact Hnext|exact Hlast|exact Hcount|].
      rewrite Htrace. reflexivity.
Defined.

Lemma next_compact_not_before_last_witness :
  let created := ovsdb_file_create db1 grown_log 149 160 (late_world third_fails) in
  let calls := [call_commit db1 txn_modify true; call_compact db1] in
  let final := run_calls calls created.1.2 created.2 in
  next_compact final.1 = 1700000600005 ∧ last_compact final.1 <= next_compact final.1.
Proof.
  intros created calls final. split; [by vm_compute|].
  apply (next_compact_not_before_last db1 grown_log 149 160 calls created.1.2 final.1
           (late_world third_fails) created.2 final.2).
  - intros i. cbn [late_world clock_world wall_clock mono_clock].
    unfold COMPACT_MIN_MSEC, LLONG_MIN, LLONG_MAX. lia.
  - intros i j Hle. cbn [late_world clock_world mono_clock]. lia.
  - reflexivity.
  - apply surjective_pairing.
Defined.



(** C3, counterexample: the read refuses the third record of the log.
    [ovsdb_file_open] logs the error and returns the database of the
    records before it, and it does not call [ovsdb_log_unread]: its
    calls on the log are the opening and three reads. *)
Lemma replay_read_error_counterexample :
  let run := ovsdb_file_open "db" None false 0 true corrupt_world in
  fs corrupt_world !! "db"
  = Some [log_record schema_json 151; log_record insert_u1 160; log_corrupt;
          log_record modify_u1 130]
  ∧ (∃ file, run.1 = inr (db1, Some file))
  ∧ trace run.2
    = [ev_vlog VLL_ERR (ovsdb_error_to_string (ovsdb_io_error "read failed"));
       ev_log_read "db"; ev_log_read "db"; ev_log_read "db"; ev_log_open "db"]
  ∧ ev_log_unread "db" ∉ trace run.2.
Proof.
  intros run.
  assert (trace run.2
          = [ev_vlog VLL_ERR (ovsdb_error_to_string (ovsdb_io_error "read failed"));
             ev_log_read "db"; ev_log_read "db"; ev_log_read "db"; ev_log_open "db"])
    as Htrace by reflexivity.
  split_and!; [reflexivity|eexists; reflexivity|exact Htrace|].
  rewrite Htrace. intros Hin.
  repeat (apply elem_of_cons in Hin as [Hin|Hin]; [discriminate Hin|]).
  by apply elem_of_nil in Hin.
Qed.

Lemma replay_error_swallowed_witness :
  (∃ file_opt w',
     ovsdb_file_open "db" None false 0 true broken_world = (inr (db1, file_opt), w')
     ∧ trace w'
       = [ev_vlog VLL_ERR (ovsdb_error_to_string u2_missing); ev_log_unread "db";
          ev_log_read "db"; ev_log_read "db"; ev_log_read "db"; ev_log_open "db"]
     ∧ fs w' = fs broken_world)
  ∧ (∃ file_opt w',
       ovsdb_file_open "db" None false 0 true corrupt_world = (inr (db1, file_opt), w')
       ∧ trace w'
         = [ev_vlog VLL_ERR (ovsdb_error_to_string (ovsdb_io_error "read failed"));
            ev_log_read "db"; ev_log_read "db"; ev_log_read "db"; ev_log_open "db"]
       ∧ fs w' = fs corrupt_world).
Proof.
  assert (records_apply false (ovsdb_create schema) [(insert_u1, 160)] db1) as Happly.
  { exists db1. split; [|reflexivity].
    exists (decoded db0 insert_u1). split; reflexivity. }
  split.
  - destruct (replay_error_swallowed "db" None false 0 true broken_world schema_json 151
                schema [(insert_u1, 160)] (log_record delete_u2 120) u2_missing db1
                [log_record modify_u1 130])
      as (file_opt & w' & Hopen & Htrace & Hfs & _).
    + reflexivity.
    + reflexivity.
    + reflexivity.
    + exact Happly.
    + left. reflexivity.
    + exists file_opt, w'. split_and!; [exact Hopen|exact Htrace|exact Hfs].
  - destruct (replay_error_swallowed "db" None false 0 true corrupt_world schema_json 151
                schema [(insert_u1, 160)] log_corrupt (ovsdb_io_error "read failed") db1
                [log_record modify_u1 130])
      as (file_opt & w' & Hopen & Htrace & Hfs & _).
    + reflexivity.
    + reflexivity.
    + reflexivity.
    + exact Happly.
    + reflexivity.
    + exists file_opt, w'. split_and!; [exact Hopen|exact Htrace|exact Hfs].
Defined.

Lemma delete_of_missing_row_aborts_witness :
  ∃ error, ovsdb_file_txn_from_json db1 delete_u2 false = inl error.
Proof.
  destruct (delete_of_missing_row_aborts db1 false [] "T" (table_T db1) [] u2 2%N []
              [("_date", JSON_INTEGER 1700000002000)]) as [Herror _].
  - reflexivity.
  - reflexivity.
  - intros txn1 txn2 [= <-] [= <-]. reflexivity.
  - exact Herror.
Defined.

Lemma reserved_members_ignored_witness :
  (shash_find_data (db_tables db0) "_date" = None
   ∧ shash_find_data (db_tables db0) "_comment" = None)
  ∧ (ovsdb_file_txn_from_json db0 insert_u1 false = inr (decoded db0 insert_u1)
     ↔ ovsdb_file_txn_from_json db0
         (JSON_OBJECT [("T", JSON_OBJECT [(u1, JSON_OBJECT [("k", JSON_STRING "a");
                                                            ("v", JSON_INTEGER 1)])])])
         false
       = inr (decoded db0 insert_u1)).
Proof.
  assert (table_names_valid db0) as Hvalid.
  { intros name Hname.
    assert ((db_tables db0).*1 = ["T"]) as Hnames by reflexivity.
    rewrite Hnames in Hname. apply list_elem_of_singleton in Hname as ->.
    reflexivity. }
  destruct (reserved_members_ignored db0 false
              [("T", JSON_OBJECT [(u1, JSON_OBJECT [("k", JSON_STRING "a");
                                                    ("v", JSON_INTEGER 1)])]);
               ("_date", JSON_INTEGER 1700000000000)] Hvalid)
    as (Hnames & _ & Hdecode).
  split; [exact Hnames|apply Hdecode].
Defined.

Lemma snapshot_has_two_records_witness :
  ∃ record0 record1,
    fs (ovsdb_file_save_copy "copy" (Some "saved") db0 (clock_world 5000 ∅ no_fault)).2
      !! "copy"
    = Some [record0; record1].
Proof.
  destruct snapshot_has_two_records as (_ & Hcopy & _).
  apply (Hcopy "copy" (Some "saved") db0 (clock_world 5000 ∅ no_fault)).
  set (run := ovsdb_file_save_copy _ _ _ _).
  assert (run.1 = None) as Hrun by (vm_compute; reflexivity).
  destruct run as [error w']. cbn in Hrun. by subst.
Defined.

(** ** Concrete runs of the further properties *)

Import MiniTool.


Lemma update_row_from_json_fields_witness :
  let row := fresh_row table_one 1%N in
  let row' := (ovsdb_file_update_row_from_json row false (JSON_OBJECT columns_uuid)).1 in
  row_table row' = row_table row
  ∧ row_uuid row' = 2%N
  ∧ row_fields row' !! 2%nat = Some (JSON_STRING "a")
  ∧ row_fields row' !! 3%nat = row_fields row !! 3%nat.
Proof.
  intros row row'.
  destruct (update_row_from_json_fields row false columns_uuid row')
    as (Htable & Hframe & Hlast); [reflexivity|].
  split_and!; [exact Htable| | |].
  - destruct (Hlast [] "_uuid" (JSON_STRING u2) [("k", JSON_STRING "a")]
                (mini_column "_uuid" 0 true mini_uuid).2) as (datum & Hdatum & _ & Huuid).
    + reflexivity.
    + reflexivity.
    + intros name' column' Hin%list_elem_of_singleton. subst name'. by intros [= <-].
    + injection Hdatum as <-. exact (Huuid eq_refl).
  - destruct (Hlast [("_uuid", JSON_STRING u2)] "k" (JSON_STRING "a") []
                (mini_column "k" 2 true mini_string).2) as (datum & Hdatum & Hfield & _).
    + reflexivity.
    + reflexivity.
    + by intros name' column' Hin%elem_of_nil.
    + injection Hdatum as <-. exact Hfield.
  - apply (Hframe 3%nat). intros name column Hin. cbn in Hin.
    repeat (apply elem_of_cons in Hin as [->|Hin]; [by intros [= <-]|]).
    by apply elem_of_nil in Hin.
Defined.

Lemma add_row_json_members_witness :
  ∃ members,
    JSON_OBJECT columns_u1 = JSON_OBJECT members
    ∧ ∀ name v, (name, v) ∈ members →
        ∃ key column,
          (key, column) ∈ table_schema_columns schema_T
          ∧ name = column_name column
          ∧ column_persistent column = true.
Proof.
  destruct (add_row_json_members None row_one (λ _, false) (JSON_OBJECT columns_u1))
    as (members & Hjs & Hmembers); [reflexivity|].
  exists members. split; [exact Hjs|].
  intros name v Hin.
  destruct (Hmembers name v Hin) as (key & column & Hcolumn & Hname & _ & Hpersistent & _).
  exists key, column. split_and!; [exact Hcolumn|exact Hname|exact Hpersistent].
Defined.

Lemma txn_commit_appends_record_witness :
  let run :=
    ovsdb_file_txn_commit (Some (JSON_OBJECT members_modify)) (Some "a commit") true
      grown_log (grown_world no_fault) in
  ∃ record,
    fs run.2 !! "db"
    = Some [log_record schema_json 151; log_record insert_u1 19999849;
            log_record (JSON_OBJECT record) (mini_record_size (JSON_OBJECT record))]
    ∧ shash_find_data record "_date" = Some (JSON_INTEGER 1700000000000)
    ∧ shash_find_data record "_comment" = Some (JSON_STRING "a commit")
    ∧ log_pos run.1.2 = 3%nat.
Proof.
  intros run.
  destruct (txn_commit_appends_record (Some members_modify) (Some "a commit") true
              grown_log run.1.2 (grown_world no_fault) run.2)
    as (record & Hfs & Hdate & Hcomment & _ & _ & Hpos & _).
  { apply run_succeeded. reflexivity. }
  exists record. split_and!; [|exact Hdate|exact Hcomment|exact Hpos].
  rewrite Hfs. apply lookup_insert_eq.
Defined.

Lemma txn_commit_failure_witness :
  let run :=
    ovsdb_file_txn_commit (Some (JSON_OBJECT members_modify)) None true
      grown_log (grown_world first_fails) in
  fs run.2 = fs (grown_world first_fails) ∧ run.1.2 = grown_log.
Proof.
  intros run.
  destruct (txn_commit_failure (Some (JSON_OBJECT members_modify)) None true grown_log
              (ovsdb_wrap_error (ovsdb_io_error "write failed") "writing transaction failed")
              run.1.2 (grown_world first_fails) run.2)
    as [(inner & _ & Hfs & Hlog)|(inner & record & size & _ & Herror & _)].
  - apply run_failed. reflexivity.
  - split; [exact Hfs|exact Hlog].
  - discriminate Herror.
Defined.

Lemma snapshot_size_never_changes_witness :
  let calls := [call_commit db1 txn_modify true; call_compact db1;
                call_commit db1 txn_modify false] in
  let final := run_calls calls grown_file (grown_world no_fault) in
  snapshot_size final.1 = 160 ∧ log_name (file_log final.1) = "db".
Proof.
  intros calls final.
  apply (snapshot_size_never_changes calls grown_file final.1 (grown_world no_fault)
           final.2).
  apply surjective_pairing.
Defined.

Lemma compact_success_witness :
  let run := ovsdb_file_compact grown_file (grown_world no_fault) in
  ∃ snapshot,
    fs run.2 !! "db"
    = Some [log_record schema_json (mini_record_size schema_json);
            log_record snapshot (mini_record_size snapshot)]
    ∧ fs run.2 !! "db.tmp" = None
    ∧ n_transactions run.1.2 = 1
    ∧ snapshot_size run.1.2 = 160.
Proof.
  intros run.
  destruct (compact_success grown_file run.1.2 (grown_world no_fault) run.2)
    as (snapshot & tmp_name & _ & Hfs & _ & _ & _ & Hcount & _ & _ & _ & Hsize & _).
  { apply run_succeeded. reflexivity. }
  exists snapshot. split_and!; [| |exact Hcount|exact Hsize].
  - rewrite Hfs. exact (lookup_insert_eq _ _ _).
  - reflexivity.
Defined.

Lemma open_replays_all_witness :
  ∃ file_opt w',
    ovsdb_file_open "db" None true 0 false compacted_world = (inr (db0, file_opt), w')
    ∧ fs w' = fs compacted_world.
Proof.
  destruct (open_replays_all "db" None true 0 false compacted_world schema_json
              (mini_record_size schema_json) schema
              [(snapshot_record, mini_record_size snapshot_record)] db0)
    as (file_opt & w' & Hopen & _ & Hfs & _).
  - reflexivity.
  - reflexivity.
  - reflexivity.
  - exists db0. split; [|reflexivity].
    exists (decoded db0 snapshot_record). split; reflexivity.
  - reflexivity.
  - exists file_opt, w'. split; [exact Hopen|exact Hfs].
Defined.

Lemma open_read_error_swallowed_witness :
  ∃ file_opt w',
    ovsdb_file_open "db" None false 0 true corrupt_world = (inr (db1, file_opt), w')
    ∧ fs w' = fs corrupt_world.
Proof.
  destruct (open_read_error_swallowed "db" None false 0 true corrupt_world schema_json 151
              schema [(insert_u1, 160)] db1 [log_record modify_u1 130])
    as (error & file_opt & w' & Hopen & _ & Hfs & _).
  - reflexivity.
  - reflexivity.
  - reflexivity.
  - exists db1. split; [|reflexivity].
    exists (decoded db0 insert_u1). split; reflexivity.
  - reflexivity.
  - exists file_opt, w'. split; [exact Hopen|exact Hfs].
Defined.

Lemma open_count_after_failed_record_witness :
  ∃ file w',
    ovsdb_file_open "db" None false 0 true broken_world = (inr (db1, Some file), w')
    ∧ n_transactions file = 1
    ∧ snapshot_size file = 151 + 160.
Proof.
  destruct (open_count_after_failed_record "db" None false 0 broken_world schema_json 151
              schema [(insert_u1, 160)] delete_u2 120 u2_missing db1
              [log_record modify_u1 130])
    as (file & w' & Hopen & Hcount & Hsize).
  - reflexivity.
  - reflexivity.
  - reflexivity.
  - exists db1. split; [|reflexivity].
    exists (decoded db0 insert_u1). split; reflexivity.
  - left. reflexivity.
  - reflexivity.
  - exists file, w'. split_and!; [exact Hopen|exact Hcount|exact Hsize].
Defined.

Lemma open_parses_schema_unless_alternate_witness :
  (∃ error w', ovsdb_file_open "db" None false 0 true no_schema_world = (inl error, w'))
  ∧ ∃ file_opt w',
      ovsdb_file_open "db" (Some schema) false 0 true no_schema_world
      = (inr (db0, file_opt), w').
Proof.
  destruct (open_parses_schema_unless_alternate "db" false 0 true no_schema_world
              (JSON_STRING "x") 57 []
              (ovsdb_syntax_error (Some (JSON_STRING "x")) None "bad schema"))
    as [(w' & Hopen & _) Halternate].
  - reflexivity.
  - reflexivity.
  - reflexivity.
  - split; [by eexists _, w'|]. exact (Halternate eq_refl schema).
Defined.

Lemma read_schema_reads_record_0_witness :
  ∃ w', ovsdb_file_read_schema "db" broken_world = (inr schema, w')
        ∧ fs w' = fs broken_world.
Proof.
  destruct (read_schema_reads_record_0 "db" broken_world schema_json 151
              [log_record insert_u1 160; log_record delete_u2 120;
               log_record modify_u1 130])
    as (w' & Hread & Hfs & _).
  - reflexivity.
  - reflexivity.
  - exists w'. split; [exact Hread|exact Hfs].
Defined.






Lemma show_log_standalone_output_witness :
  ∃ fatal w',
    do_show_log_standalone 0 log_at_start broken_world
    = ({| tool_stdout :=
            "record 0:" ++ show_log_schema schema ++ newline
            ++ show_log_lines 1 [(insert_u1, 160); (delete_u2, 120); (modify_u1, 130)];
          tool_fatal := fatal |}, w')
    ∧ fs w' = fs broken_world.
Proof.
  destruct (show_log_standalone_output 0 log_at_start broken_world schema_json 151
              [(insert_u1, 160); (delete_u2, 120); (modify_u1, 130)] [])
    as (fatal & w' & Hrun & Hfs & _).
  - lia.
  - reflexivity.
  - reflexivity.
  - reflexivity.
  - left. reflexivity.
  - exists fatal, w'. split; [exact Hrun|exact Hfs].
Defined.

Lemma show_log_renders_commit_witness :
  let run :=
    ovsdb_file_txn_commit (Some (JSON_OBJECT members_modify)) (Some "a commit") true
      grown_log (grown_world no_fault) in
  ∃ records record size,
    fs run.2 !! "db" = Some (records ++ [log_record record size])
    ∧ show_log_record record
      = (" @1700000000000 " ++ dquote ++ "a commit" ++ dquote ++ newline)%string.
Proof.
  intros run.
  destruct (show_log_renders_commit (Some members_modify) "a commit" true grown_log
              run.1.2 (grown_world no_fault) run.2)
    as (records & record & size & Hfs & Hshow).
  - apply run_succeeded. reflexivity.
  - by vm_compute.
  - exists records, record, size. split; [exact Hfs|].
    rewrite Hshow. by vm_compute.
Defined.

Lemma print_db_changes_names_witness :
  (print_db_changes 1 members_named ∅ schema).2 !! u1 = Some (dquote ++ "a" ++ dquote)%string
  ∧ (print_db_changes 1 members_named {[ u2 := "b" ]} schema).2 !! u2 = None.
Proof.
  split.
  - etrans; [apply (print_db_changes_names 1 members_named ∅ schema u1)|reflexivity].
    apply (bool_decide_unpack _). by vm_compute.
  - etrans; [apply (print_db_changes_names 1 members_named {[ u2 := "b" ]} schema u2)|
             reflexivity].
    apply (bool_decide_unpack _). by vm_compute.
Defined.

Lemma open_only_reads_witness :
  fs (ovsdb_file_open "db" None false 0 true broken_world).2 = fs broken_world.
Proof.
  apply (open_only_reads "db" None false 0 true broken_world
           (ovsdb_file_open "db" None false 0 true broken_world).1
           (ovsdb_file_open "db" None false 0 true broken_world).2).
  apply surjective_pairing.
Defined.

Lemma compact_or_convert_to_target_witness :
  let run := compact_or_convert "db" (Some "copy") None "compacted" broken_world in
  tool_stdout run.1 = ""
  ∧ fs run.2 !! "db" = fs broken_world !! "db"
  ∧ ∃ record0 record1, fs run.2 !! "copy" = Some [record0; record1].
Proof.
  intros run.
  destruct (compact_or_convert_to_target "db" "copy" None "compacted" broken_world
              run.1 run.2) as [Hout Hfatal]; [apply surjective_pairing|].
  split; [exact Hout|].
  assert (tool_fatal run.1 = None) as Hnone by reflexivity.
  rewrite Hnone in Hfatal.
  destruct Hfatal as (db & w1 & js0 & size0 & rest & members & Hw & _ & _ & _ & Hfs & _).
  rewrite Hw. change (fs (ovsdb_destroy db w1).2) with (fs w1). rewrite Hfs. split.
  - by apply lookup_insert_ne.
  - eexists _, _. exact (lookup_insert_eq _ _ _).
Defined.

Lemma compact_or_convert_in_place_witness :
  let run := compact_or_convert "db" None None "compacted" broken_world in
  tool_stdout run.1 = ""
  ∧ ∃ record0 record1, fs run.2 !! "db" = Some [record0; record1].
Proof.
  intros run.
  destruct (compact_or_convert_in_place "db" None "compacted" broken_world
              run.1 run.2) as [Hout Hfatal]; [apply surjective_pairing|].
  split; [exact Hout|].
  assert (tool_fatal run.1 = None) as Hnone by reflexivity.
  rewrite Hnone in Hfatal.
  destruct Hfatal
    as (db & w1 & js0 & size0 & rest & members & age & n & size & Hw & _ & _ & Hfs & _).
  rewrite Hw. change (fs (ovsdb_destroy db w1).2) with (fs w1). rewrite Hfs.
  eexists _, _. exact (lookup_insert_eq _ _ _).
Defined.

Lemma do_create_outcome_witness :
  let run := do_create argv_create broken_world in
  tool_stdout run.1 = ""
  ∧ tool_fatal run.1 = None
  ∧ fs run.2 !! "new.db"
    = Some [log_record (ovsdb_schema_to_json schema)
              (mini_record_size (ovsdb_schema_to_json schema))]
  ∧ ∃ w'', do_db_name ["db-name"; "new.db"] run.2 = (tool_ok ("mini" ++ newline), w'').
Proof.
  intros run.
  destruct (do_create_outcome argv_create schema broken_world broken_world run.1 run.2)
    as (Hout & Hfatal & Hfs & Hread).
  - reflexivity.
  - apply surjective_pairing.
  - assert (tool_fatal run.1 = None) as Hnone.
    { apply Hfatal. split_and!; reflexivity. }
    split_and!; [exact Hout|exact Hnone| |].
    + rewrite Hfs. reflexivity.
    + destruct (Hread Hnone eq_refl schema_name ["db-name"; "new.db"] schema eq_refl eq_refl)
        as (w'' & Hname & _).
      exists w''. exact Hname.
Defined.

Lemma converting_skips_unknown_names_witness :
  ovsdb_file_txn_from_json db0
    (JSON_OBJECT [("U", JSON_NULL); ("T", JSON_OBJECT [(u1, JSON_OBJECT columns_u1)])]) true
  = ovsdb_file_txn_from_json db0
      (JSON_OBJECT [("T", JSON_OBJECT [(u1, JSON_OBJECT columns_u1)])]) true.
Proof.
  exact (proj1 converting_skips_unknown_names db0
           [("U", JSON_NULL); ("T", JSON_OBJECT [(u1, JSON_OBJECT columns_u1)])]).
Defined.

Lemma unknown_names_rejected_witness :
  ovsdb_file_txn_from_json db0 (JSON_OBJECT [("U", JSON_OBJECT [])]) false
  = inl (ovsdb_syntax_error (Some (JSON_OBJECT [("U", JSON_OBJECT [])]))
           (Some "unknown table") "No table named U.").
Proof.
  destruct unknown_names_rejected as (_ & Hunknown & _).
  apply (Hunknown db0 [] "U" (JSON_OBJECT []) [] (ovsdb_txn_create db0)).
  - reflexivity.
  - reflexivity.
  - discriminate.
  - discriminate.
Defined.

Lemma ephemeral_changes_not_written_witness :
  ovsdb_file_txn_add_row ovsdb_file_txn_init (Some row_one) (Some row_one) (λ _, false)
  = ovsdb_file_txn_init.
Proof.
  apply (proj1 ephemeral_changes_not_written).
  exists row_one, row_one. split_and!; [reflexivity|reflexivity|].
  intros key column _ _ _. reflexivity.
Defined.

Lemma commit_error_iff_append_fails_witness :
  let run := ovsdb_file_commit grown_file txn_modify true (grown_world first_fails) in
  run.1.1
  = Some (ovsdb_wrap_error (ovsdb_io_error "write failed") "writing transaction failed").
Proof.
  intros run.
  set (error := ovsdb_wrap_error (ovsdb_io_error "write failed")
                  "writing transaction failed").
  set (w := grown_world first_fails).
  assert (run = ((Some error, run.1.2), run.2)) as ->; [|reflexivity].
  apply (proj2 (commit_error_iff_append_fails grown_file txn_modify true error run.1.2 w
                  run.2)).
  refine (ex_intro _ modify_json (ex_intro _ (modify_appended w).1.2 _)).
  split_and!; reflexivity.
Defined.

Lemma save_copy_failure_witness :
  ∃ error w',
    ovsdb_file_save_copy "db" None db0 compacted_world = (Some error, w')
    ∧ trace w' = [ev_log_open "db"].
Proof.
  apply (proj2 (save_copy_failure "db" None db0 compacted_world)).
  eexists. reflexivity.
Defined.

Lemma open_needs_schema_record_witness :
  ∃ error w',
    ovsdb_file_open "conf.db" None false 0 true broken_world = (inl error, w')
    ∧ ovsdb_file_read_schema "conf.db" broken_world = (inl error, w')
    ∧ fs w' = fs broken_world
    ∧ trace w' = [ev_log_open "conf.db"].
Proof.
  apply (proj1 (open_needs_schema_record "conf.db" None false 0 true broken_world)).
  reflexivity.
Defined.

Lemma print_db_changes_shown_witness :
  print_db_changes 1 [("_date", JSON_INTEGER 1700000000000)] ∅ schema = ("", ∅).
Proof.
  apply (proj2 (print_db_changes_shown 1 [("_date", JSON_INTEGER 1700000000000)] ∅ schema)).
  intros n1 Hin. apply list_elem_of_singleton in Hin as ->. reflexivity.
Defined.
